(** * entropy-viz: order/chaos particle simulation

    A shallow embedding of the simulation core of the repository:

    - [StateMachine]        js/state-machine.js
    - [EntropyCalculator]   js/entropy-calculator.js
    - [WebGLFallback]       js/webgl-fallback.js (_initParticles, updatePhysics)
    - [PhysicsShader]       shaders/physics.wgsl
    - [HistogramShader]     shaders/histogram.wgsl
    - [DensitySplat]        shaders/density-splat.wgsl

    The code computes on IEEE-754 numbers.  Every function below is written
    once, over an abstract arithmetic [Arith F], and is used at two
    instances: [binary64] (the JavaScript number type, with the binary32
    rounding of a [Float32Array] store), on which the definitions evaluate,
    and the real numbers [R], the exact arithmetic that the floating-point
    operations approximate, on which the analytic properties are proved. *)

From Stdlib Require Import Floats.
From Stdlib Require Import ZArith List Bool Lia Reals Lra Psatz.
From Stdlib Require String.
From stdpp Require Import base list.

Set Warnings "-inexact-float".

(** * The arithmetic interface *)

Class Arith (F : Type) : Type := {
  fadd : F -> F -> F;
  fsub : F -> F -> F;
  fmul : F -> F -> F;
  fdiv : F -> F -> F;
  fsqrt : F -> F;
  (** [Math.floor], WGSL [floor] *)
  ffloor : F -> F;
  (** [Math.min] / WGSL [min], [Math.max] / WGSL [max] *)
  fmin : F -> F -> F;
  fmax : F -> F -> F;
  (** [a < b], [a <= b], [a === b] *)
  fltb : F -> F -> bool;
  fleb : F -> F -> bool;
  feqb : F -> F -> bool;
  (** an integer as a number *)
  ofZ : Z -> F;
  (** truncation toward zero; 0 where the number has no integer part
      (NaN, infinities) *)
  toZ : F -> Z;
  (** the rounding of a store into a [Float32Array] *)
  fround : F -> F;
}.

(** The library functions of the two languages: [Math.pow], [exp], [log],
    [Math.log2], [cos], and WGSL's [bitcast<u32>] of an [f32]. *)
Class MathLib (F : Type) : Type := {
  fpow : F -> F -> F;
  fexp : F -> F;
  flog : F -> F;
  flog2 : F -> F;
  fcos : F -> F;
  fbits : F -> Z;
}.

Declare Scope arith_scope.
Delimit Scope arith_scope with A.
Infix "+!" := fadd (at level 50, left associativity) : arith_scope.
Infix "-!" := fsub (at level 50, left associativity) : arith_scope.
Infix "*!" := fmul (at level 40, left associativity) : arith_scope.
Infix "/!" := fdiv (at level 40, left associativity) : arith_scope.
Local Open Scope arith_scope.

Section Derived.
Context {F : Type} `{Arith F}.

(** [a > b] and [a >= b] *)
Definition fgtb (a b : F) : bool := fltb b a.
Definition fgeb (a b : F) : bool := fleb b a.

(** The decimal literal [n/d]: both languages round a literal to the
    nearest number, which is what the correctly rounded quotient of the
    two integers gives. *)
Definition dec (n : Z) (d : Z) : F := ofZ n /! ofZ d.

Definition fneg (a : F) : F := ofZ 0 -! a.

(** [Math.ceil], WGSL [ceil] *)
Definition fceil (a : F) : F := fneg (ffloor (fneg a)).

(** JavaScript [ToInt32], as applied by [| 0] and [&]. *)
Definition wrap32 (z : Z) : Z := ((z + 2 ^ 31) mod 2 ^ 32 - 2 ^ 31)%Z.
Definition toInt32 (a : F) : Z := wrap32 (toZ a).

(** The element a number selects in a typed array: the integer it
    denotes, none when it denotes no integer (NaN, infinities). *)
Definition array_index (a : F) : option Z :=
  if feqb a (ofZ (toZ a)) then Some (toZ a) else None.

(** WGSL [clamp(e, low, high)] and [mix(a, b, t)]. *)
Definition clamp (e low high : F) : F := fmin (fmax e low) high.
Definition mix (a b t : F) : F := a *! (ofZ 1 -! t) +! b *! t.

(** WGSL [u32(e)] and [i32(e)] of a float: truncation, clamped to the
    range of the target type. *)
Definition u32_of (a : F) : Z := Z.min (Z.max 0 (toZ a)) (2 ^ 32 - 1).
Definition i32_of (a : F) : Z := Z.min (Z.max (- 2 ^ 31) (toZ a)) (2 ^ 31 - 1).
End Derived.

(** ** Exact arithmetic: the real numbers *)

Definition R_toZ (x : R) : Z :=
  if Rle_dec 0 x then Zfloor x else (- Zfloor (- x))%Z.

#[export] Instance R_arith : Arith R := {
  fadd := Rplus;
  fsub := Rminus;
  fmul := Rmult;
  fdiv := Rdiv;
  fsqrt := sqrt;
  ffloor := fun x => IZR (Zfloor x);
  fmin := Rmin;
  fmax := Rmax;
  fltb := fun a b => if Rlt_dec a b then true else false;
  fleb := fun a b => if Rle_dec a b then true else false;
  feqb := fun a b => if Req_dec_T a b then true else false;
  ofZ := IZR;
  toZ := R_toZ;
  fround := fun x => x;
}.

(** [Math.pow] on the reals: repeated product at a natural exponent. *)
Definition R_pow (x y : R) : R :=
  if Req_dec_T y (IZR (Zfloor y))
  then (if Rle_dec 0 y then x ^ Z.to_nat (Zfloor y) else / x ^ Z.to_nat (- Zfloor y))
  else Rpower x y.

(** A real number has no bit pattern: [fbits] only feeds the seed of the
    noise generator, for which any 32-bit value serves. *)
#[export] Instance R_mathlib : MathLib R := {
  fpow := R_pow;
  fexp := exp;
  flog := ln;
  flog2 := fun x => (ln x / ln 2)%R;
  fcos := cos;
  fbits := fun x => (R_toZ x mod 2 ^ 32)%Z;
}.

(** ** IEEE-754 binary64, with binary32 stores *)

Module Binary64.

Definition of_Z (n : Z) : float :=
  SF2Prim (binary_normalize 53 1024 n 0 false).

Definition to_Z (x : float) : Z :=
  match Prim2SF x with
  | S754_finite s m e =>
      let a := if (0 <=? e)%Z then (Zpos m * 2 ^ e)%Z
               else (Zpos m / 2 ^ (- e))%Z in
      if s then (- a)%Z else a
  | _ => 0%Z
  end.

Definition floor (x : float) : float :=
  match Prim2SF x with
  | S754_finite s m e =>
      if (0 <=? e)%Z then x
      else
        let q := (Zpos m / 2 ^ (- e))%Z in
        let exact := (q * 2 ^ (- e) =? Zpos m)%Z in
        if s then (if exact then PrimFloat.opp (of_Z q)
                   else PrimFloat.opp (of_Z (q + 1)))
        else of_Z q
  | _ => x
  end.

(** [Math.min]: NaN if either is NaN, and [-0 < +0]. *)
Definition min (a b : float) : float :=
  if PrimFloat.is_nan a then a
  else if PrimFloat.is_nan b then b
  else if PrimFloat.ltb a b then a
  else if PrimFloat.ltb b a then b
  else if PrimFloat.get_sign a then a else b.

Definition max (a b : float) : float :=
  if PrimFloat.is_nan a then a
  else if PrimFloat.is_nan b then b
  else if PrimFloat.ltb a b then b
  else if PrimFloat.ltb b a then a
  else if PrimFloat.get_sign a then b else a.

(** [Math.fround]: the nearest binary32 number. *)
Definition round32 (x : float) : float :=
  match Prim2SF x with
  | S754_finite s m e =>
      SF2Prim (binary_normalize 24 128 (cond_Zopp s (Zpos m)) e s)
  | _ => x
  end.

End Binary64.

#[export] Instance binary64 : Arith float := {
  fadd := PrimFloat.add;
  fsub := PrimFloat.sub;
  fmul := PrimFloat.mul;
  fdiv := PrimFloat.div;
  fsqrt := PrimFloat.sqrt;
  ffloor := Binary64.floor;
  fmin := Binary64.min;
  fmax := Binary64.max;
  fltb := PrimFloat.ltb;
  fleb := PrimFloat.leb;
  feqb := PrimFloat.eqb;
  ofZ := Binary64.of_Z;
  toZ := Binary64.to_Z;
  fround := Binary64.round32;
}.

(** * js/state-machine.js *)

Module StateMachine.

Inductive State := ORDERED | SHATTERING | CHAOS | REASSEMBLING.

Section WithArith.
Context {F : Type} `{Arith F} `{MathLib F}.

Definition easeOutCubic (t : F) : F :=
  ofZ 1 -! fpow (ofZ 1 -! t) (ofZ 3).

Definition easeInOutQuad (t : F) : F :=
  if fltb t (dec 5 10) then ofZ 2 *! t *! t
  else ofZ 1 -! fpow (ofZ (-2) *! t +! ofZ 2) (ofZ 2) /! ofZ 2.

Record t := mk {
  state : State;
  tOrder : F;
  transitionProgress : F;
  transitionDuration : F;
  elapsed : F;
}.

Definition constructor : t :=
  {| state := ORDERED;
     tOrder := ofZ 1;
     transitionProgress := ofZ 0;
     transitionDuration := ofZ 0;
     elapsed := ofZ 0 |}.

Definition canClick (m : t) : bool :=
  match state m with
  | ORDERED | CHAOS => true
  | _ => false
  end.

Definition click (m : t) : t :=
  match state m with
  | ORDERED =>
      {| state := SHATTERING;
         tOrder := tOrder m;
         transitionProgress := ofZ 0;
         transitionDuration := dec 15 10;
         elapsed := ofZ 0 |}
  | CHAOS =>
      {| state := REASSEMBLING;
         tOrder := tOrder m;
         transitionProgress := ofZ 0;
         transitionDuration := ofZ 2;
         elapsed := ofZ 0 |}
  | _ => m
  end.

Definition update (dt : F) (m : t) : t :=
  match state m with
  | SHATTERING =>
      let elapsed' := elapsed m +! dt in
      let progress := fmin (elapsed' /! transitionDuration m) (ofZ 1) in
      let tOrder' := ofZ 1 -! easeOutCubic progress in
      if fgeb progress (ofZ 1) then
        {| state := CHAOS; tOrder := ofZ 0;
           transitionProgress := progress;
           transitionDuration := transitionDuration m;
           elapsed := elapsed' |}
      else
        {| state := SHATTERING; tOrder := tOrder';
           transitionProgress := progress;
           transitionDuration := transitionDuration m;
           elapsed := elapsed' |}
  | REASSEMBLING =>
      let elapsed' := elapsed m +! dt in
      let progress := fmin (elapsed' /! transitionDuration m) (ofZ 1) in
      let tOrder' := easeInOutQuad progress in
      if fgeb progress (ofZ 1) then
        {| state := ORDERED; tOrder := ofZ 1;
           transitionProgress := progress;
           transitionDuration := transitionDuration m;
           elapsed := elapsed' |}
      else
        {| state := REASSEMBLING; tOrder := tOrder';
           transitionProgress := progress;
           transitionDuration := transitionDuration m;
           elapsed := elapsed' |}
  | _ => m
  end.

(** [n] calls of [update(dt)] in a row. *)
Definition updates (n : nat) (dt : F) (m : t) : t :=
  Nat.iter n (update dt) m.
End WithArith.

Arguments t F : clear implicits.
End StateMachine.

(** * Vectors and particles *)

Record vec3 (F : Type) := V3 { vx : F; vy : F; vz : F }.
Arguments V3 {F} _ _ _.
Arguments vx {F} _.
Arguments vy {F} _.
Arguments vz {F} _.

(** A particle: [position], [velocity], [speed] and [home_position] of the
    WGSL struct, which is the record
    [x, y, z, vx, vy, vz, hx, hy, hz, speed] of the fallback's array. *)
Record Particle (F : Type) := mkParticle {
  position : vec3 F;
  velocity : vec3 F;
  speed : F;
  home_position : vec3 F;
}.
Arguments mkParticle {F} _ _ _ _.
Arguments position {F} _.
Arguments velocity {F} _.
Arguments speed {F} _.
Arguments home_position {F} _.

Section Vec3.
Context {F : Type} `{Arith F}.

Definition vadd (a b : vec3 F) : vec3 F :=
  V3 (vx a +! vx b) (vy a +! vy b) (vz a +! vz b).
Definition vsub (a b : vec3 F) : vec3 F :=
  V3 (vx a -! vx b) (vy a -! vy b) (vz a -! vz b).
Definition vdiv (a b : vec3 F) : vec3 F :=
  V3 (vx a /! vx b) (vy a /! vy b) (vz a /! vz b).
(** vector times scalar, vector over scalar *)
Definition vscale (a : vec3 F) (s : F) : vec3 F :=
  V3 (vx a *! s) (vy a *! s) (vz a *! s).
Definition vquot (a : vec3 F) (s : F) : vec3 F :=
  V3 (vx a /! s) (vy a /! s) (vz a /! s).
(** WGSL [length] and [normalize]; [Math.sqrt(x**2 + y**2 + z**2)]. *)
Definition vlength (a : vec3 F) : F :=
  fsqrt (vx a *! vx a +! vy a *! vy a +! vz a *! vz a).
Definition normalize (a : vec3 F) : vec3 F := vquot a (vlength a).
Definition vzero : vec3 F := V3 (ofZ 0) (ofZ 0) (ofZ 0).
End Vec3.

(** The integers [lo, lo+1, ..., hi] of a counting loop. *)
Definition range (lo hi : Z) : list Z :=
  map (fun k => (lo + Z.of_nat k)%Z) (seq 0 (Z.to_nat (hi - lo + 1))).

(** [u32] arithmetic wraps. *)
Definition u32 (z : Z) : Z := (z mod 2 ^ 32)%Z.

(** [atomicAdd] on a [u32] cell, [x++] on a [Uint32Array] element. *)
Definition add_u32 (c : Z) (v : Z) : Z := ((v + c) mod 2 ^ 32)%Z.

(** * js/entropy-calculator.js *)

Module EntropyCalculator.
Section WithArith.
Context {F : Type} `{Arith F} `{MathLib F}.

Record t := mk {
  numBins : Z;
  maxEntropy : F;
  currentEntropy : F;
  normalizedEntropy : F;
  displayEntropy : F;
  smoothing : F;
}.

Definition constructor (numBins : Z) : t :=
  {| numBins := numBins;
     maxEntropy := flog2 (ofZ numBins);
     currentEntropy := ofZ 0;
     normalizedEntropy := ofZ 0;
     displayEntropy := ofZ 0;
     smoothing := dec 12 100 |}.

(** The first loop of [compute]. *)
Definition total (histogram : list Z) : F :=
  fold_left (fun total h => total +! ofZ h) histogram (ofZ 0).

(** The second loop of [compute]. *)
Definition shannon (total : F) (histogram : list Z) : F :=
  fold_left
    (fun H h =>
       if (0 <? h)%Z
       then let p := ofZ h /! total in H -! p *! flog2 p
       else H)
    histogram (ofZ 0).

(** [compute(histogram)]: the calculator afterwards, and the returned
    [{ entropy, normalized }]. *)
Definition compute (histogram : list Z) (e : t) : t * (F * F) :=
  let total := total histogram in
  if feqb total (ofZ 0) then
    ({| numBins := numBins e; maxEntropy := maxEntropy e;
        currentEntropy := ofZ 0; normalizedEntropy := ofZ 0;
        displayEntropy := displayEntropy e; smoothing := smoothing e |},
     (ofZ 0, ofZ 0))
  else
    let H := shannon total histogram in
    let n := H /! maxEntropy e in
    ({| numBins := numBins e; maxEntropy := maxEntropy e;
        currentEntropy := H; normalizedEntropy := n;
        displayEntropy := displayEntropy e; smoothing := smoothing e |},
     (H, n)).

Definition updateDisplay (dt : F) (e : t) : t :=
  {| numBins := numBins e; maxEntropy := maxEntropy e;
     currentEntropy := currentEntropy e;
     normalizedEntropy := normalizedEntropy e;
     displayEntropy :=
       displayEntropy e +!
       (normalizedEntropy e -! displayEntropy e) *! smoothing e;
     smoothing := smoothing e |}.
End WithArith.
Arguments t F : clear implicits.
End EntropyCalculator.

(** * js/webgl-fallback.js *)

Module WebGLFallback.

Definition PARTICLE_COUNT : Z := 512.
Definition HIST_BINS : Z := 64.

(** [Math.ceil(Math.cbrt(n))] at an integer [n]: the least [s] with
    [n <= s^3]. *)
Fixpoint cbrt_ceil_from (fuel : nat) (s n : Z) : Z :=
  match fuel with
  | O => s
  | S fuel' => if (n <=? s * s * s)%Z then s else cbrt_ceil_from fuel' (s + 1) n
  end.
Definition cbrt_ceil (n : Z) : Z := cbrt_ceil_from (Z.to_nat n) 0 n.

Section WithArith.
Context {F : Type} `{Arith F}.

(** The renderer's fields that the physics reads and writes. *)
Record t := mk {
  particles : list (Particle F);
  pendingHistogram : option (list Z);
}.

(** *** _initParticles *)

(** A [for (let i = 0; i < n && cond; i++)] loop.  The condition of
    the loops below ([idx < PARTICLE_COUNT]) stays false once it is
    false, so leaving the loop and skipping the remaining rounds
    agree. *)
Definition for_while {S : Type} (n : Z) (cond : S -> bool)
    (body : Z -> S -> S) (s : S) : S :=
  fold_left (fun s i => if cond s then body i s else s) (range 0 (n - 1)) s.

(** One guarded block of the innermost loop: the atom of cell
    [(x, y, z)] at offset [off], stored at record [idx]. *)
Definition place (side : Z) (spacing off : F) (x y z : Z)
    (s : nat * list (Particle F)) : nat * list (Particle F) :=
  let '(idx, ps) := s in
  if (Z.of_nat idx <? PARTICLE_COUNT)%Z then
    let px := (ofZ x -! ofZ side /! ofZ 2 +! off) *! spacing in
    let py := (ofZ y -! ofZ side /! ofZ 2 +! off) *! spacing in
    let pz := (ofZ z -! ofZ side /! ofZ 2 +! off) *! spacing in
    let p := V3 (fround px) (fround py) (fround pz) in
    (S idx, <[idx := mkParticle p (V3 (fround (ofZ 0)) (fround (ofZ 0)) (fround (ofZ 0)))
                       (fround (ofZ 0)) p]> ps)
  else s.

(** The loops of [_initParticles]: [idx] and the array when they end. *)
Definition initLoop : nat * list (Particle F) :=
  let blank := replicate (Z.to_nat PARTICLE_COUNT)
                 (mkParticle vzero vzero (ofZ 0) vzero) in
  let side := cbrt_ceil (PARTICLE_COUNT / 2) in
  let spacing := ofZ 5 /! ofZ side in
  let more := fun s : nat * list (Particle F) =>
                (Z.of_nat (fst s) <? PARTICLE_COUNT)%Z in
  for_while side more (fun z =>
    for_while side more (fun y =>
      for_while side more (fun x s =>
        place side spacing (ofZ 1) x y z
          (place side spacing (dec 5 10) x y z s))))
    (O, blank).

Definition initParticles : list (Particle F) := snd initLoop.

(** *** updatePhysics *)

Definition springK : F := ofZ 12.
Definition noiseStr : F := ofZ 4.
Definition dampOrdered : F := dec 97 100.
Definition dampChaos : F := dec 999 1000.

(** [rand()]: the seed afterwards and the value returned. *)
Definition rand (seed : Z) : Z * F :=
  let seed' :=
    Z.land (toInt32 (ofZ seed *! ofZ 1103515245 +! ofZ 12345)) 2147483647 in
  (seed', ofZ seed' /! ofZ 2147483647 *! ofZ 2 -! ofZ 1).

(** Spring and noise force, velocity update, clamp. *)
Definition integrateVelocity (dt tOrder damping : F) (seed : Z)
    (p : Particle F) : Z * Particle F :=
  let pos := position p in
  let v := velocity p in
  let h := home_position p in
  let dx := vx h -! vx pos in
  let dy := vy h -! vy pos in
  let dz := vz h -! vz pos in
  let '(seed1, r1) := rand seed in
  let fx := dx *! springK *! tOrder +! r1 *! noiseStr *! (ofZ 1 -! tOrder) in
  let '(seed2, r2) := rand seed1 in
  let fy := dy *! springK *! tOrder +! r2 *! noiseStr *! (ofZ 1 -! tOrder) in
  let '(seed3, r3) := rand seed2 in
  let fz := dz *! springK *! tOrder +! r3 *! noiseStr *! (ofZ 1 -! tOrder) in
  let v3 := fround (vx v *! damping +! fx *! dt) in
  let v4 := fround (vy v *! damping +! fy *! dt) in
  let v5 := fround (vz v *! damping +! fz *! dt) in
  let spd := vlength (V3 v3 v4 v5) in
  let v' :=
    if fgtb spd (ofZ 8) then
      let s := ofZ 8 /! spd in
      V3 (fround (v3 *! s)) (fround (v4 *! s)) (fround (v5 *! s))
    else V3 v3 v4 v5 in
  (seed3, mkParticle pos v' (speed p) h).

(** Position update, and the speed stored in slot 9. *)
Definition integratePosition (dt : F) (p : Particle F) : Particle F :=
  let pos := position p in
  let v := velocity p in
  let pos' := V3 (fround (vx pos +! vx v *! dt))
                 (fround (vy pos +! vy v *! dt))
                 (fround (vz pos +! vz v *! dt)) in
  mkParticle pos' v (fround (vlength v)) (home_position p).

(** Soft boundary. *)
Definition softBoundary (dt : F) (p : Particle F) : Particle F :=
  let pos := position p in
  let v := velocity p in
  let distC := vlength pos in
  if fgtb distC (dec 45 10) then
    let push := (distC -! dec 45 10) *! ofZ 2 *! dt /! distC in
    mkParticle pos
      (V3 (fround (vx v -! vx pos *! push))
          (fround (vy v -! vy pos *! push))
          (fround (vz v -! vz pos *! push)))
      (speed p) (home_position p)
  else p.

(** The body of the first loop, for one particle. *)
Definition stepParticle (dt tOrder damping : F) (seed : Z)
    (p : Particle F) : Z * Particle F :=
  let '(seed', p1) := integrateVelocity dt tOrder damping seed p in
  (seed', softBoundary dt (integratePosition dt p1)).

(** The first loop: the records of the array in index order ([i] from 0
    to [PARTICLE_COUNT - 1], the array having [PARTICLE_COUNT] records),
    [rand] consumed sequentially. *)
Fixpoint stepParticles (dt tOrder damping : F) (seed : Z)
    (ps : list (Particle F)) : list (Particle F) :=
  match ps with
  | [] => []
  | p :: rest =>
      let '(seed', p') := stepParticle dt tOrder damping seed p in
      p' :: stepParticles dt tOrder damping seed' rest
  end.

(** [hist[bin]++] on a [Uint32Array]: no effect when [bin] is not an
    index of the array. *)
Definition incr (bin : F) (hist : list Z) : list Z :=
  match array_index bin with
  | Some k => if (0 <=? k)%Z then alter (add_u32 1) (Z.to_nat k) hist else hist
  | None => hist
  end.

Definition binOf (spd : F) : F :=
  fmin (ffloor (spd /! ofZ 8 *! ofZ HIST_BINS)) (ofZ (HIST_BINS - 1)).

(** The second loop. *)
Definition buildHistogram (ps : list (Particle F)) : list Z :=
  fold_left (fun hist p => incr (binOf (speed p)) hist) ps
    (replicate (Z.to_nat HIST_BINS) 0%Z).

Definition updatePhysics (dt tOrder time : F) (r : t) : t :=
  let damping := dampChaos +! (dampOrdered -! dampChaos) *! tOrder in
  let seed := toInt32 (time *! ofZ 1000) in
  let ps := stepParticles dt tOrder damping seed (particles r) in
  {| particles := ps; pendingHistogram := Some (buildHistogram ps) |}.

Definition getHistogram (r : t) : option (list Z) := pendingHistogram r.

(** The renderer after [init()]. *)
Definition init : t :=
  {| particles := initParticles; pendingHistogram := None |}.
End WithArith.
Arguments t F : clear implicits.
End WebGLFallback.

(** * shaders/physics.wgsl *)

Module PhysicsShader.

(** PCG hash. *)
Definition pcg (v : Z) : Z :=
  let state := u32 (u32 (v * 747796405) + 2891336453) in
  let word :=
    u32 (Z.lxor (Z.shiftr state (u32 (Z.shiftr state 28 + 4))) state * 277803737) in
  Z.lxor (Z.shiftr word 22) word.

Section WithArith.
Context {F : Type} `{Arith F} `{MathLib F}.

Record Uniforms := mkUniforms {
  dt : F;
  t_order : F;
  damping_ordered : F;
  damping_chaos : F;
  noise_strength : F;
  spring_k : F;
  time : F;
  particle_count : Z;
}.

Definition rand01 (seed : Z) : F := ofZ (pcg seed) /! ofZ 4294967295.

Definition randNormal (seed1 seed2 : Z) : F :=
  let u1 := fmax (rand01 seed1) (dec 1 10000) in
  let u2 := rand01 seed2 in
  fsqrt (ofZ (-2) *! flog u1) *! fcos (dec 62831853 10000000 *! u2).

(** The noise force of invocation [idx]. *)
Definition noise_force (u : Uniforms) (idx : Z) : vec3 F :=
  let t := t_order u in
  let frame_seed := u32 (fbits (time u *! ofZ 1000) + u32 (idx * 3)) in
  let nx := randNormal frame_seed (u32 (frame_seed + 1))
            *! noise_strength u *! (ofZ 1 -! t) in
  let ny := randNormal (u32 (frame_seed + 2)) (u32 (frame_seed + 3))
            *! noise_strength u *! (ofZ 1 -! t) in
  let nz := randNormal (u32 (frame_seed + 4)) (u32 (frame_seed + 5))
            *! noise_strength u *! (ofZ 1 -! t) in
  V3 nx ny nz.

(** Spring, noise, damping, velocity update and clamp. *)
Definition integrateVelocity (u : Uniforms) (idx : Z) (p : Particle F)
    : Particle F :=
  let t := t_order u in
  let displacement := vsub (home_position p) (position p) in
  let spring_force := vscale (vscale displacement (spring_k u)) t in
  let damping := mix (damping_chaos u) (damping_ordered u) t in
  let v := vadd (vscale (velocity p) damping)
                (vscale (vadd spring_force (noise_force u idx)) (dt u)) in
  let max_speed := ofZ 8 in
  let spd := vlength v in
  let v' := if fgtb spd max_speed then vscale v (max_speed /! spd) else v in
  mkParticle (position p) v' (speed p) (home_position p).

Definition integratePosition (u : Uniforms) (p : Particle F) : Particle F :=
  mkParticle (vadd (position p) (vscale (velocity p) (dt u)))
    (velocity p) (speed p) (home_position p).

(** Soft boundary. *)
Definition softBoundary (u : Uniforms) (p : Particle F) : Particle F :=
  let dist_from_center := vlength (position p) in
  if fgtb dist_from_center (dec 45 10) then
    let push := vscale (vscale (normalize (position p))
                          (dist_from_center -! dec 45 10)) (ofZ 2) in
    mkParticle (position p) (vsub (velocity p) (vscale push (dt u)))
      (speed p) (home_position p)
  else p.

(** Cache speed for histogram. *)
Definition cacheSpeed (p : Particle F) : Particle F :=
  mkParticle (position p) (velocity p) (vlength (velocity p))
    (home_position p).

(** What invocation [idx] stores back for the particle it loaded. *)
Definition stepParticle (u : Uniforms) (idx : Z) (p : Particle F)
    : Particle F :=
  cacheSpeed (softBoundary u (integratePosition u (integrateVelocity u idx p))).

(** One invocation of [main]. *)
Definition main (u : Uniforms) (idx : Z) (particles : list (Particle F))
    : list (Particle F) :=
  if (particle_count u <=? idx)%Z then particles
  else match particles !! Z.to_nat idx with
       | Some p => <[Z.to_nat idx := stepParticle u idx p]> particles
       | None => particles
       end.

(** A dispatch of [groups] workgroups of 256 invocations.  Each
    invocation touches the one record of its own index, so the
    invocations are run in index order. *)
Definition dispatch (u : Uniforms) (groups : Z) (particles : list (Particle F))
    : list (Particle F) :=
  fold_left (fun ps idx => main u idx ps) (range 0 (groups * 256 - 1)) particles.

(** The uniforms written by [updateUniforms(dt, tOrder, time, camera)]
    for a renderer of [n] particles. *)
Definition updateUniforms (n : Z) (dt tOrder time : F) : Uniforms :=
  {| dt := fround dt; t_order := fround tOrder;
     damping_ordered := fround (dec 97 100);
     damping_chaos := fround (dec 999 1000);
     noise_strength := fround (ofZ 4);
     spring_k := fround (ofZ 12);
     time := fround time;
     particle_count := n |}.
End WithArith.
Arguments Uniforms F : clear implicits.
End PhysicsShader.

(** * shaders/histogram.wgsl *)

Module HistogramShader.
Section WithArith.
Context {F : Type} `{Arith F}.

Record HistUniforms := mkHistUniforms {
  particle_count : Z;
  num_bins : Z;
  max_speed : F;
}.

Definition binOf (u : HistUniforms) (speed : F) : Z :=
  let normalized := clamp (speed /! max_speed u) (ofZ 0) (dec 9999 10000) in
  u32_of (normalized *! ofZ (num_bins u)).

(** One invocation of [main]. *)
Definition main (u : HistUniforms) (idx : Z) (particles : list (Particle F))
    (histogram : list Z) : list Z :=
  if (particle_count u <=? idx)%Z then histogram
  else match particles !! Z.to_nat idx with
       | Some p => alter (add_u32 1) (Z.to_nat (binOf u (speed p))) histogram
       | None => histogram
       end.

(** The uniforms written by [updateUniforms]. *)
Definition uniforms (n : Z) : HistUniforms :=
  {| particle_count := n; num_bins := 64; max_speed := fround (ofZ 8) |}.
End WithArith.
Arguments HistUniforms F : clear implicits.
End HistogramShader.

(** * shaders/density-splat.wgsl *)

Module DensitySplat.
Section WithArith.
Context {F : Type} `{Arith F} `{MathLib F}.

Record DensityUniforms := mkDensityUniforms {
  grid_min : vec3 F;
  grid_max : vec3 F;
  grid_res : Z;
  particle_count : Z;
  splat_radius : F;
  splat_strength : F;
}.

Definition worldToGrid (u : DensityUniforms) (pos : vec3 F) : vec3 F :=
  let normalized := vdiv (vsub pos (grid_min u))
                         (vsub (grid_max u) (grid_min u)) in
  vscale normalized (ofZ (grid_res u)).

Definition gridIndex (u : DensityUniforms) (ix iy iz : Z) : Z :=
  u32
    (ix + u32 (iy * grid_res u)
        + u32 (u32 (iz * grid_res u) * grid_res u)).

(** Gaussian falloff and fixed-point conversion: the contribution of
    particle [p], at grid position [gridPos], to the cell [(x, y, z)]. *)
Definition contribution (u : DensityUniforms) (p : Particle F)
    (gridPos : vec3 F) (x y z : Z) : Z :=
  let speed_factor := ofZ 1 +! speed p *! dec 3 10 in
  let cellCenter := V3 (ofZ x +! dec 5 10) (ofZ y +! dec 5 10)
                       (ofZ z +! dec 5 10) in
  let dist := vlength (vsub gridPos cellCenter) in
  let sigma := splat_radius u *! dec 5 10 in
  let weight := fexp (fneg dist *! dist /! (ofZ 2 *! sigma *! sigma)) in
  u32_of (weight *! splat_strength u *! speed_factor *! ofZ 1000).

(** The body of the innermost loop at offset [(dx, dy, dz)] from the
    cell [(cx, cy, cz)]: the [atomicAdd] it performs, as the pair of the
    cell index and the contribution, or nothing. *)
Definition splatCell (u : DensityUniforms) (p : Particle F)
    (gridPos : vec3 F) (cx cy cz : Z) (dx dy dz : Z) : list (Z * Z) :=
  let res := wrap32 (grid_res u) in
  let x := wrap32 (cx + dx) in
  let y := wrap32 (cy + dy) in
  let z := wrap32 (cz + dz) in
  if ((x <? 0) || (res <=? x) || (y <? 0) || (res <=? y)
      || (z <? 0) || (res <=? z))%Z
  then []
  else
    let c := contribution u p gridPos x y z in
    if (0 <? c)%Z
    then [(gridIndex u (u32 x) (u32 y) (u32 z), c)]
    else [].

(** The [atomicAdd]s of the invocation that loaded particle [p], in
    the order of the three loops. *)
Definition splatWrites (u : DensityUniforms) (p : Particle F) : list (Z * Z) :=
  let gridPos := worldToGrid u (position p) in
  let r := i32_of (fceil (splat_radius u)) in
  let cx := i32_of (ffloor (vx gridPos)) in
  let cy := i32_of (ffloor (vy gridPos)) in
  let cz := i32_of (ffloor (vz gridPos)) in
  flat_map (fun dz =>
    flat_map (fun dy =>
      flat_map (fun dx => splatCell u p gridPos cx cy cz dx dy dz)
        (range (- r) r))
      (range (- r) r))
    (range (- r) r).

Definition atomicAdd (density : list Z) (w : Z * Z) : list Z :=
  alter (add_u32 (snd w)) (Z.to_nat (fst w)) density.

(** One invocation of [main]. *)
Definition main (u : DensityUniforms) (idx : Z) (particles : list (Particle F))
    (density : list Z) : list Z :=
  if (particle_count u <=? idx)%Z then density
  else match particles !! Z.to_nat idx with
       | Some p => fold_left atomicAdd (splatWrites u p) density
       | None => density
       end.

(** The uniforms written by [updateUniforms], with
    [GRID_MIN = -3.5], [GRID_MAX = 3.5] and [GRID_RES = 64]. *)
Definition uniforms (n : Z) : DensityUniforms :=
  {| grid_min := V3 (fround (dec (-35) 10)) (fround (dec (-35) 10))
                    (fround (dec (-35) 10));
     grid_max := V3 (fround (dec 35 10)) (fround (dec 35 10))
                    (fround (dec 35 10));
     grid_res := 64;
     particle_count := n;
     splat_radius := fround (ofZ 2);
     splat_strength := fround (dec 15 10) |}.

(** The density volume after density-clear.wgsl. *)
Definition cleared : list Z := replicate (Z.to_nat (64 * 64 * 64)) 0%Z.
End WithArith.
Arguments DensityUniforms F : clear implicits.
End DensitySplat.

(** * Predicates of the specification *)

Section Predicates.
Context {F : Type} `{Arith F}.



End Predicates.

(** ** Test states of the fallback renderer *)

Module Scenario.
Import WebGLFallback.

(** Particle 0 of the lattice, at rest outside the soft boundary (at
    distance [4 * sqrt 3] from the origin). *)
Definition stray : Particle float :=
  match initParticles !! 0%nat with
  | Some p => mkParticle (V3 (ofZ (-4)) (ofZ (-4)) (ofZ (-4))) (velocity p)
                (speed p) (home_position p)
  | None => mkParticle vzero vzero (ofZ 0) vzero
  end.

(** Particle 0 of the lattice, outside the soft boundary and moving
    across the radius faster than the clamp allows. *)
Definition fast_stray : Particle float :=
  match initParticles !! 0%nat with
  | Some p => mkParticle (V3 (ofZ 7) (ofZ 0) (ofZ 0)) (V3 (ofZ 0) (ofZ 9) (ofZ 0))
                (ofZ 9) (home_position p)
  | None => mkParticle vzero vzero (ofZ 0) vzero
  end.

(** The renderer after [init()], with record 0 replaced. *)
Definition renderer_with (p : Particle float) : WebGLFallback.t float :=
  {| particles := <[0%nat := p]> initParticles; pendingHistogram := None |}.

(** One frame at 60 Hz-like [dt = 0.016], fully ordered, at time 1.234 s. *)
Definition tick (r : WebGLFallback.t float) : WebGLFallback.t float :=
  updatePhysics (dec 16 1000) (ofZ 1) (dec 1234 1000) r.
End Scenario.

(** ** Real vectors *)

Definition dot (a b : vec3 R) : R :=
  (vx a * vx b + vy a * vy b + vz a * vz b)%R.

(** The squared length. *)
Definition norm2 (a : vec3 R) : R := dot a a.

(** ** Test particles in exact arithmetic *)

Module RealScenario.
(** A particle outside the soft boundary, moving across the radius faster
    than the clamp allows; its home is the lattice point at the origin. *)
Definition fast_stray : Particle R :=
  mkParticle (V3 7 0 0)%R (V3 0 9 0)%R 9%R (V3 0 0 0)%R.

End RealScenario.

(** The total of a histogram. *)
Definition sumZ (l : list Z) : Z := fold_right Z.add 0%Z l.

(** ** The density volume, cell by cell *)

(** What a sequence of [atomicAdd]s, given as pairs of index and amount,
    makes of the value [v] of cell [k]. *)
Definition valueAt (k : nat) (ws : list (Z * Z)) (v : Z) : Z :=
  fold_left (fun v w => if Nat.eqb (Z.to_nat (fst w)) k then add_u32 (snd w) v else v)
    ws v.

(** The block of cells of the three loops: within 2 cells of
    [(cx, cy, cz)] along each axis. *)
Definition in_block (cx cy cz x y z : Z) : bool :=
  ((Z.abs (x - cx) <=? 2) && (Z.abs (y - cy) <=? 2) && (Z.abs (z - cz) <=? 2))%Z.

(** A particle at rest at the centre of the grid cell [(32, 32, 32)]. *)
Definition centred_particle : Particle R :=
  mkParticle (V3 (7 / 128) (7 / 128) (7 / 128))%R (V3 0 0 0)%R 0%R
    (V3 (7 / 128) (7 / 128) (7 / 128))%R.

(** ** Spring relaxation in exact arithmetic

    In the ordered state ([tOrder = 1]) the noise force is scaled by
    [1 - tOrder = 0], and one integration step of either backend is the
    map [relax] on the pair of position and velocity of a particle with
    home [h]. *)

Module Relax.
Local Open Scope R_scope.

Definition radius : R := 45 / 10.

(** The clamp of the velocity to length 8. *)
Definition clamp8 (a : vec3 R) : vec3 R :=
  if Rlt_dec 8 (vlength a) then vscale a (8 / vlength a) else a.










End Relax.

(** ** Frames *)

Section Frames.
Context {F : Type} `{Arith F} `{MathLib F}.


(** The physics pass of [WebGPURenderer.frame]: the uniforms of the
    frame, then [Math.ceil(PARTICLE_COUNT / 256) = 8] workgroups for its
    2048 particles. *)
Definition physicsPass (dt tOrder time : F) (ps : list (Particle F))
    : list (Particle F) :=
  PhysicsShader.dispatch (PhysicsShader.updateUniforms 2048 dt tOrder time) 8 ps.

End Frames.


(** * js/state-machine.js: the getters, and runs of the machine *)

Module StateMachineView.
Import StateMachine.
Import Stdlib.Strings.String.

Definition stateLabel {F : Type} (m : StateMachine.t F) : String.string :=
  match state m with
  | ORDERED => "ORDER"
  | SHATTERING => "SHATTERING"
  | CHAOS => "CHAOS"
  | REASSEMBLING => "REASSEMBLING"
  end%string.

Definition clickInstruction {F : Type} (m : StateMachine.t F) : String.string :=
  match state m with
  | ORDERED => "click to shatter"
  | CHAOS => "click to reassemble"
  | _ => ""
  end%string.

Definition isTransitioning {F : Type} (m : StateMachine.t F) : bool :=
  match state m with
  | SHATTERING | REASSEMBLING => true
  | _ => false
  end.

(** What happens to the machine: a click, or a frame of [dt] seconds. *)
Inductive event (F : Type) : Type :=
| Click
| Update (dt : F).
Arguments Click {F}.
Arguments Update {F} dt.

Definition apply_event {F : Type} `{Arith F} `{MathLib F}
    (m : StateMachine.t F) (e : event F) : StateMachine.t F :=
  match e with
  | Click => click m
  | Update dt => update dt m
  end.

(** The machine after the events, the first of the list first. *)
Definition run {F : Type} `{Arith F} `{MathLib F}
    (es : list (event F)) (m : StateMachine.t F) : StateMachine.t F :=
  fold_left apply_event es m.
End StateMachineView.

(** The relation of the state and [tOrder] that the machine keeps. *)
Definition StateMachine_consistent (m : StateMachine.t R) : Prop :=
  match StateMachine.state m with
  | StateMachine.ORDERED => StateMachine.tOrder m = 1%R
  | StateMachine.CHAOS => StateMachine.tOrder m = 0%R
  | _ => (0 <= StateMachine.tOrder m <= 1)%R
         /\ (0 <= StateMachine.elapsed m)%R
         /\ (0 < StateMachine.transitionDuration m)%R
  end.

(** The frames of a run last no negative time. *)
Definition forward {F : Type} `{Arith F} (e : StateMachineView.event F) : Prop :=
  match e with
  | StateMachineView.Click => True
  | StateMachineView.Update dt => fleb (ofZ 0) dt = true
  end.

(** * shaders/density-clear.wgsl, shaders/histogram-clear.wgsl *)

(** [atomicStore(&buffer[idx], 0u)] by the invocations below [size]. *)
Module ClearShader.
Definition main (size : Z) (idx : Z) (buffer : list Z) : list Z :=
  if (size <=? idx)%Z then buffer else <[Z.to_nat idx := 0%Z]> buffer.

(** A dispatch of [groups] workgroups of 64 invocations, run in the order
    [order] of their indices. *)
Definition dispatch_in (size : Z) (order : list Z) (buffer : list Z) : list Z :=
  fold_left (fun b idx => main size idx b) order buffer.

Definition dispatch (size : Z) (groups : Z) (buffer : list Z) : list Z :=
  dispatch_in size (range 0 (groups * 64 - 1)) buffer.
End ClearShader.

(** * js/webgpu-renderer.js *)

Module WebGPURenderer.

Definition PARTICLE_COUNT : Z := 2048.
Definition GRID_RES : Z := 64.
Definition GRID_VOXELS : Z := GRID_RES * GRID_RES * GRID_RES.
Definition HIST_BINS : Z := 64.

Section WithArith.
Context {F : Type} `{Arith F} `{MathLib F}.

(** *** _generateBCCLattice *)

(** One guarded block of the innermost loop: the twelve floats of record
    [idx], of which the two paddings are left out. *)
Definition place (side : Z) (spacing off : F) (x y z : Z)
    (s : nat * list (Particle F)) : nat * list (Particle F) :=
  let '(idx, ps) := s in
  if (Z.of_nat idx <? PARTICLE_COUNT)%Z then
    let px := (ofZ x -! ofZ side /! ofZ 2 +! off) *! spacing in
    let py := (ofZ y -! ofZ side /! ofZ 2 +! off) *! spacing in
    let pz := (ofZ z -! ofZ side /! ofZ 2 +! off) *! spacing in
    let p := V3 (fround px) (fround py) (fround pz) in
    (S idx, <[idx := mkParticle p (V3 (fround (ofZ 0)) (fround (ofZ 0)) (fround (ofZ 0)))
                       (fround (ofZ 0)) p]> ps)
  else s.

(** The loops: [idx] and the array when they end. *)
Definition latticeLoop : nat * list (Particle F) :=
  let blank := replicate (Z.to_nat PARTICLE_COUNT)
                 (mkParticle vzero vzero (ofZ 0) vzero) in
  let side := WebGLFallback.cbrt_ceil (PARTICLE_COUNT / 2) in
  let spacing := ofZ 5 /! ofZ side in
  let more := fun s : nat * list (Particle F) =>
                (Z.of_nat (fst s) <? PARTICLE_COUNT)%Z in
  WebGLFallback.for_while side more (fun z =>
    WebGLFallback.for_while side more (fun y =>
      WebGLFallback.for_while side more (fun x s =>
        place side spacing (ofZ 1) x y z
          (place side spacing (dec 5 10) x y z s))))
    (O, blank).

Definition generateBCCLattice : list (Particle F) := snd latticeLoop.

(** *** frame *)

(** The buffers that the compute passes of a frame read and write. *)
Record t := mk {
  particles : list (Particle F);
  density : list Z;
  densityRead : list Z;
  histogram : list Z;
}.

(** The splat and histogram passes, their invocations run in the order
    [order] of their indices. *)
Definition splatPass_in (order : list Z) (ps : list (Particle F))
    (density : list Z) : list Z :=
  fold_left (fun d idx => DensitySplat.main (DensitySplat.uniforms PARTICLE_COUNT) idx ps d)
    order density.

Definition histogramPass_in (order : list Z) (ps : list (Particle F))
    (histogram : list Z) : list Z :=
  fold_left
    (fun h idx => HistogramShader.main (HistogramShader.uniforms PARTICLE_COUNT) idx ps h)
    order histogram.

(** The compute passes of [frame(dt, tOrder, time, camera)], with
    [Math.ceil(GRID_VOXELS / 64) = 4096] workgroups for the clear of the
    volume, [Math.ceil(PARTICLE_COUNT / 256) = 8] for the passes over the
    particles and one for the clear of the histogram. *)
Definition frame (dt tOrder time : F) (r : t) : t :=
  let density0 := ClearShader.dispatch 262144 4096 (density r) in
  let ps := physicsPass dt tOrder time (particles r) in
  let density1 := splatPass_in (range 0 (8 * 256 - 1)) ps density0 in
  let hist0 := ClearShader.dispatch 64 1 (histogram r) in
  let hist1 := histogramPass_in (range 0 (8 * 256 - 1)) ps hist0 in
  {| particles := ps; density := density1; densityRead := density1;
     histogram := hist1 |}.

(** The renderer's buffers after [init()]: the lattice, and the two
    zero-filled storage buffers. *)
Definition init : t :=
  {| particles := generateBCCLattice;
     density := replicate (Z.to_nat GRID_VOXELS) 0%Z;
     densityRead := replicate (Z.to_nat GRID_VOXELS) 0%Z;
     histogram := replicate (Z.to_nat HIST_BINS) 0%Z |}.
End WithArith.
Arguments t F : clear implicits.
End WebGPURenderer.

(** The physics pass with its invocations run in the order [order] of their
    indices. *)
Definition physicsPass_in {F : Type} `{Arith F} `{MathLib F} (order : list Z)
    (dt tOrder time : F) (ps : list (Particle F)) : list (Particle F) :=
  fold_left
    (fun ps idx =>
       PhysicsShader.main (PhysicsShader.updateUniforms 2048 dt tOrder time) idx ps)
    order ps.

(** All the [atomicAdd]s of the splat pass. *)
Definition splatPass_writes {F : Type} `{Arith F} `{MathLib F}
    (ps : list (Particle F)) : list (Z * Z) :=
  flat_map
    (fun idx =>
       if (DensitySplat.particle_count
             (DensitySplat.uniforms (F := F) WebGPURenderer.PARTICLE_COUNT) <=? idx)%Z
       then []
       else match ps !! Z.to_nat idx with
            | Some p =>
                DensitySplat.splatWrites
                  (DensitySplat.uniforms WebGPURenderer.PARTICLE_COUNT) p
            | None => []
            end)
    (range 0 (8 * 256 - 1)).

(** * js/math-utils.js *)

(** [Math.sin] and [Math.tan]. *)
Class Trig (F : Type) := {
  fsin : F -> F;
  ftan : F -> F;
}.

#[export] Instance R_trig : Trig R := {
  fsin := sin;
  ftan := tan;
}.

Module MathUtils.
Section WithArith.
Context {F : Type} `{Arith F}.

(** A column-major [Float32Array(16)]: [e_i] is the element of index [i],
    the entry of row [i mod 4] and column [i / 4]. *)
Record mat4 := mkMat4 {
  e0 : F; e1 : F; e2 : F; e3 : F;
  e4 : F; e5 : F; e6 : F; e7 : F;
  e8 : F; e9 : F; e10 : F; e11 : F;
  e12 : F; e13 : F; e14 : F; e15 : F;
}.

(** [m[i]], for the indices 0 to 15 the code uses. *)
Definition mget (m : mat4) (i : Z) : F :=
  match i with
  | 0 => e0 m | 1 => e1 m | 2 => e2 m | 3 => e3 m
  | 4 => e4 m | 5 => e5 m | 6 => e6 m | 7 => e7 m
  | 8 => e8 m | 9 => e9 m | 10 => e10 m | 11 => e11 m
  | 12 => e12 m | 13 => e13 m | 14 => e14 m | 15 => e15 m
  | _ => ofZ 0
  end%Z.

(** The array with the element [f i] at index [i]. *)
Definition mat4_of (f : Z -> F) : mat4 :=
  mkMat4 (f 0%Z) (f 1%Z) (f 2%Z) (f 3%Z) (f 4%Z) (f 5%Z) (f 6%Z) (f 7%Z)
         (f 8%Z) (f 9%Z) (f 10%Z) (f 11%Z) (f 12%Z) (f 13%Z) (f 14%Z) (f 15%Z).

(** Unary minus, and [Math.abs]. *)
Definition fopp (a : F) : F := ofZ (-1) *! a.
Definition fabs (a : F) : F := fmax a (fopp a).

Definition mat4Identity : mat4 :=
  mkMat4 (fround (ofZ 1)) (fround (ofZ 0)) (fround (ofZ 0)) (fround (ofZ 0))
         (fround (ofZ 0)) (fround (ofZ 1)) (fround (ofZ 0)) (fround (ofZ 0))
         (fround (ofZ 0)) (fround (ofZ 0)) (fround (ofZ 1)) (fround (ofZ 0))
         (fround (ofZ 0)) (fround (ofZ 0)) (fround (ofZ 0)) (fround (ofZ 1)).

Definition mat4Perspective `{Trig F} (fovY aspect near far : F) : mat4 :=
  let f := ofZ 1 /! ftan (fovY *! dec 5 10) in
  let nf := ofZ 1 /! (near -! far) in
  mkMat4 (fround (f /! aspect)) (ofZ 0) (ofZ 0) (ofZ 0)
         (ofZ 0) (fround f) (ofZ 0) (ofZ 0)
         (ofZ 0) (ofZ 0) (fround ((far +! near) *! nf)) (fround (ofZ (-1)))
         (ofZ 0) (ofZ 0) (fround (ofZ 2 *! far *! near *! nf)) (ofZ 0).

Definition mat4LookAt (eye center up : vec3 F) : mat4 :=
  let zx := vx eye -! vx center in
  let zy := vy eye -! vy center in
  let zz := vz eye -! vz center in
  let len := ofZ 1 /! fsqrt (zx *! zx +! zy *! zy +! zz *! zz) in
  let fz0 := zx *! len in
  let fz1 := zy *! len in
  let fz2 := zz *! len in
  let rx := vy up *! fz2 -! vz up *! fz1 in
  let ry := vz up *! fz0 -! vx up *! fz2 in
  let rz := vx up *! fz1 -! vy up *! fz0 in
  let len' := ofZ 1 /! fsqrt (rx *! rx +! ry *! ry +! rz *! rz) in
  let rx := rx *! len' in
  let ry := ry *! len' in
  let rz := rz *! len' in
  let ux := fz1 *! rz -! fz2 *! ry in
  let uy := fz2 *! rx -! fz0 *! rz in
  let uz := fz0 *! ry -! fz1 *! rx in
  mkMat4 (fround rx) (fround ux) (fround fz0) (fround (ofZ 0))
         (fround ry) (fround uy) (fround fz1) (fround (ofZ 0))
         (fround rz) (fround uz) (fround fz2) (fround (ofZ 0))
         (fround (fopp (rx *! vx eye +! ry *! vy eye +! rz *! vz eye)))
         (fround (fopp (ux *! vx eye +! uy *! vy eye +! uz *! vz eye)))
         (fround (fopp (fz0 *! vx eye +! fz1 *! vy eye +! fz2 *! vz eye)))
         (fround (ofZ 1)).

(** The determinant as [mat4Inverse] computes it. *)
Definition mat4Det (m : mat4) : F :=
  let a00 := e0 m in let a01 := e1 m in let a02 := e2 m in let a03 := e3 m in
  let a10 := e4 m in let a11 := e5 m in let a12 := e6 m in let a13 := e7 m in
  let a20 := e8 m in let a21 := e9 m in let a22 := e10 m in let a23 := e11 m in
  let a30 := e12 m in let a31 := e13 m in let a32 := e14 m in let a33 := e15 m in
  let b00 := a00 *! a11 -! a01 *! a10 in
  let b01 := a00 *! a12 -! a02 *! a10 in
  let b02 := a00 *! a13 -! a03 *! a10 in
  let b03 := a01 *! a12 -! a02 *! a11 in
  let b04 := a01 *! a13 -! a03 *! a11 in
  let b05 := a02 *! a13 -! a03 *! a12 in
  let b06 := a20 *! a31 -! a21 *! a30 in
  let b07 := a20 *! a32 -! a22 *! a30 in
  let b08 := a20 *! a33 -! a23 *! a30 in
  let b09 := a21 *! a32 -! a22 *! a31 in
  let b10 := a21 *! a33 -! a23 *! a31 in
  let b11 := a22 *! a33 -! a23 *! a32 in
  b00 *! b11 -! b01 *! b10 +! b02 *! b09 +! b03 *! b08 -! b04 *! b07 +! b05 *! b06.

Definition mat4Inverse (m : mat4) : mat4 :=
  let a00 := e0 m in let a01 := e1 m in let a02 := e2 m in let a03 := e3 m in
  let a10 := e4 m in let a11 := e5 m in let a12 := e6 m in let a13 := e7 m in
  let a20 := e8 m in let a21 := e9 m in let a22 := e10 m in let a23 := e11 m in
  let a30 := e12 m in let a31 := e13 m in let a32 := e14 m in let a33 := e15 m in
  let b00 := a00 *! a11 -! a01 *! a10 in
  let b01 := a00 *! a12 -! a02 *! a10 in
  let b02 := a00 *! a13 -! a03 *! a10 in
  let b03 := a01 *! a12 -! a02 *! a11 in
  let b04 := a01 *! a13 -! a03 *! a11 in
  let b05 := a02 *! a13 -! a03 *! a12 in
  let b06 := a20 *! a31 -! a21 *! a30 in
  let b07 := a20 *! a32 -! a22 *! a30 in
  let b08 := a20 *! a33 -! a23 *! a30 in
  let b09 := a21 *! a32 -! a22 *! a31 in
  let b10 := a21 *! a33 -! a23 *! a31 in
  let b11 := a22 *! a33 -! a23 *! a32 in
  let det := mat4Det m in
  if fltb (fabs det) (dec 1 100000000) then mat4Identity
  else
    let det := ofZ 1 /! det in
    mkMat4
      (fround ((a11 *! b11 -! a12 *! b10 +! a13 *! b09) *! det))
      (fround ((a02 *! b10 -! a01 *! b11 -! a03 *! b09) *! det))
      (fround ((a31 *! b05 -! a32 *! b04 +! a33 *! b03) *! det))
      (fround ((a22 *! b04 -! a21 *! b05 -! a23 *! b03) *! det))
      (fround ((a12 *! b08 -! a10 *! b11 -! a13 *! b07) *! det))
      (fround ((a00 *! b11 -! a02 *! b08 +! a03 *! b07) *! det))
      (fround ((a32 *! b02 -! a30 *! b05 -! a33 *! b01) *! det))
      (fround ((a20 *! b05 -! a22 *! b02 +! a23 *! b01) *! det))
      (fround ((a10 *! b10 -! a11 *! b08 +! a13 *! b06) *! det))
      (fround ((a01 *! b08 -! a00 *! b10 -! a03 *! b06) *! det))
      (fround ((a30 *! b04 -! a31 *! b02 +! a33 *! b00) *! det))
      (fround ((a21 *! b02 -! a20 *! b04 -! a23 *! b00) *! det))
      (fround ((a11 *! b07 -! a10 *! b09 -! a12 *! b06) *! det))
      (fround ((a00 *! b09 -! a01 *! b07 +! a02 *! b06) *! det))
      (fround ((a31 *! b01 -! a30 *! b03 -! a32 *! b00) *! det))
      (fround ((a20 *! b03 -! a21 *! b01 +! a22 *! b00) *! det)).

Definition vec3Length (v : vec3 F) : F :=
  fsqrt (vx v *! vx v +! vy v *! vy v +! vz v *! vz v).

Definition vec3Normalize (v : vec3 F) : vec3 F :=
  let len := fsqrt (vx v *! vx v +! vy v *! vy v +! vz v *! vz v) in
  if fltb len (dec 1 100000000) then V3 (ofZ 0) (ofZ 0) (ofZ 0)
  else V3 (vx v /! len) (vy v /! len) (vz v /! len).

Definition vec3Sub (a b : vec3 F) : vec3 F :=
  V3 (vx a -! vx b) (vy a -! vy b) (vz a -! vz b).

Definition vec3Add (a b : vec3 F) : vec3 F :=
  V3 (vx a +! vx b) (vy a +! vy b) (vz a +! vz b).

Definition vec3Scale (v : vec3 F) (s : F) : vec3 F :=
  V3 (vx v *! s) (vy v *! s) (vz v *! s).

(** *** The matrix products of the renderers *)

(** [vec4<f32>], and the product [m * v] of WGSL and GLSL. *)
Record vec4 := V4 { x4 : F; y4 : F; z4 : F; w4 : F }.

Definition transform (m : mat4) (v : vec4) : vec4 :=
  V4 (e0 m *! x4 v +! e4 m *! y4 v +! e8 m *! z4 v +! e12 m *! w4 v)
     (e1 m *! x4 v +! e5 m *! y4 v +! e9 m *! z4 v +! e13 m *! w4 v)
     (e2 m *! x4 v +! e6 m *! y4 v +! e10 m *! z4 v +! e14 m *! w4 v)
     (e3 m *! x4 v +! e7 m *! y4 v +! e11 m *! z4 v +! e15 m *! w4 v).

(** The loops of [WebGLFallback.frame] that fill [vp] with [proj * view],
    each [+=] a store to the [Float32Array]. *)
Definition viewProj (proj view : mat4) : mat4 :=
  mat4_of (fun idx =>
    let i := (idx mod 4)%Z in
    let j := (idx / 4)%Z in
    fold_left
      (fun acc k => fround (acc +! mget proj (k * 4 + i) *! mget view (j * 4 + k)))
      (range 0 3) (fround (ofZ 0))).
End WithArith.
Arguments mat4 F : clear implicits.
Arguments vec4 F : clear implicits.
End MathUtils.

(** * js/camera.js *)

Module Camera.
Section WithArith.
Context {F : Type} `{Arith F} `{MathLib F} `{Trig F}.

Record t := mk {
  baseRadius : F;
  radius : F;
  theta : F;
  phi : F;
  driftSpeed : F;
  center : vec3 F;
  up : vec3 F;
  mouseX : F;
  mouseY : F;
  maxParallax : F;
  eye : vec3 F;
  viewMatrix : MathUtils.mat4 F;
}.

(** [updateAspect()], at the ratio [aspect] of the window's width to its
    height. *)
Definition updateAspect (aspect : F) (c : t) : t :=
  mk (baseRadius c)
     (if fltb aspect (ofZ 1)
      then baseRadius c *! (ofZ 1 +! (ofZ 1 -! aspect) *! dec 8 10)
      else baseRadius c)
     (theta c) (phi c) (driftSpeed c) (center c) (up c) (mouseX c) (mouseY c)
     (maxParallax c) (eye c) (viewMatrix c).

(** [new Camera()], in a window of aspect ratio [aspect]. *)
Definition constructor (aspect : F) : t :=
  updateAspect aspect
    (mk (ofZ 8) (ofZ 8) (ofZ 0) (dec 3 10) (dec 2 100)
        (V3 (ofZ 0) (ofZ 0) (ofZ 0)) (V3 (ofZ 0) (ofZ 1) (ofZ 0))
        (ofZ 0) (ofZ 0) (dec 8 100)
        (V3 (ofZ 0) (ofZ 0) (ofZ 8))
        (MathUtils.mat4_of (fun _ => ofZ 0))).

Definition onMouseMove (nx ny : F) (c : t) : t :=
  mk (baseRadius c) (radius c) (theta c) (phi c) (driftSpeed c) (center c) (up c)
     nx ny (maxParallax c) (eye c) (viewMatrix c).

Definition update (dt : F) (c : t) : t :=
  let theta' := theta c +! driftSpeed c *! dt in
  let thetaOffset := mouseX c *! maxParallax c in
  let phiOffset := mouseY c *! maxParallax c in
  let t := theta' +! thetaOffset in
  let p := phi c +! phiOffset in
  let eye' := V3 (radius c *! fsin t *! fcos p)
                 (radius c *! fsin p)
                 (radius c *! fcos t *! fcos p) in
  mk (baseRadius c) (radius c) theta' (phi c) (driftSpeed c) (center c) (up c)
     (mouseX c) (mouseY c) (maxParallax c) eye'
     (MathUtils.mat4LookAt eye' (center c) (up c)).
End WithArith.
Arguments t F : clear implicits.
End Camera.

(** The cross product, for the statements about [mat4LookAt]. *)
Definition cross (a b : vec3 R) : vec3 R :=
  V3 (vy a * vz b - vz a * vy b)%R (vz a * vx b - vx a * vz b)%R
     (vx a * vy b - vy a * vx b)%R.

(** A point as the [vec4] with [w = 1], and the point of a [vec4]. *)
Definition point4 (p : vec3 R) : MathUtils.vec4 R := MathUtils.V4 (vx p) (vy p) (vz p) 1%R.
Definition xyz (v : MathUtils.vec4 R) : vec3 R :=
  V3 (MathUtils.x4 v) (MathUtils.y4 v) (MathUtils.z4 v).

(** The view matrix of the frame with the unit vectors [r], [f × r] and
    [f] as rows, seen from [eye]. *)
Definition frame_matrix (f r eye : vec3 R) : MathUtils.mat4 R :=
  let u := cross f r in
  MathUtils.mkMat4
    (vx r) (vx u) (vx f) 0%R
    (vy r) (vy u) (vy f) 0%R
    (vz r) (vz u) (vz f) 0%R
    (- dot r eye)%R (- dot u eye)%R (- dot f eye)%R 1%R.

(** The events the camera receives, and a run of them. *)
Module CameraView.
Inductive event (F : Type) : Type :=
| Resize (aspect : F)
| MouseMove (nx ny : F)
| Update (dt : F).
Arguments Resize {F} aspect.
Arguments MouseMove {F} nx ny.
Arguments Update {F} dt.

Definition apply_event {F : Type} `{Arith F} `{MathLib F} `{Trig F}
    (c : Camera.t F) (e : event F) : Camera.t F :=
  match e with
  | Resize aspect => Camera.updateAspect aspect c
  | MouseMove nx ny => Camera.onMouseMove nx ny c
  | Update dt => Camera.update dt c
  end.

Definition run {F : Type} `{Arith F} `{MathLib F} `{Trig F}
    (es : list (event F)) (c : Camera.t F) : Camera.t F :=
  fold_left apply_event es c.

(** The pointer is inside the window: its normalised height is in
    [[-1, 1]]. *)
Definition pointer_inside (e : event R) : Prop :=
  match e with
  | MouseMove nx ny => (-1 <= ny <= 1)%R
  | _ => True
  end.

(** What the events keep of the camera. *)
Definition steady (c : Camera.t R) : Prop :=
  Camera.center c = V3 0%R 0%R 0%R /\ Camera.up c = V3 0%R 1%R 0%R
  /\ Camera.phi c = (3 / 10)%R /\ Camera.maxParallax c = (8 / 100)%R
  /\ Camera.baseRadius c = 8%R /\ (8 <= Camera.radius c)%R
  /\ (-1 <= Camera.mouseY c <= 1)%R.
End CameraView.

(** * shaders/fullscreen.wgsl *)

Module Fullscreen.
Section WithArith.
Context {F : Type} `{Arith F}.

Record VSOut := mkVSOut {
  position : MathUtils.vec4 F;
  uv : F * F;
}.

Definition vs_main (vid : Z) : VSOut :=
  let x := ofZ (wrap32 (Z.land vid 1)) *! ofZ 4 -! ofZ 1 in
  let y := ofZ (wrap32 (Z.shiftr vid 1)) *! ofZ 4 -! ofZ 1 in
  {| position := MathUtils.V4 x y (ofZ 0) (ofZ 1);
     uv := (x *! dec 5 10 +! dec 5 10, ofZ 1 -! (y *! dec 5 10 +! dec 5 10)) |}.
End WithArith.
Arguments VSOut F : clear implicits.
End Fullscreen.

(** * shaders/raymarch.wgsl *)

Module Raymarch.
Section WithArith.
Context {F : Type} `{Arith F} `{MathLib F}.

Record RaymarchUniforms := mkRaymarchUniforms {
  inv_view : MathUtils.mat4 F;
  inv_proj : MathUtils.mat4 F;
  camera_pos : vec3 F;
  time : F;
  grid_min : vec3 F;
  grid_max : vec3 F;
  grid_res : F;
  screen_width : F;
  screen_height : F;
  absorption : F;
}.

(** [clamp] on [i32]. *)
Definition clampi (e low high : Z) : Z := Z.min (Z.max e low) high.

(** [density[idx]]; a read outside the buffer is taken to give 0. *)
Definition load (density : list Z) (idx : Z) : Z :=
  match density !! Z.to_nat idx with
  | Some v => v
  | None => 0%Z
  end.

(** The body of the innermost loop of [sampleDensity]. *)
Definition corner (density : list Z) (gi : Z * Z * Z) (frac : vec3 F) (res : Z)
    (dz dy dx : Z) (result : F) : F :=
  let '(gix, giy, giz) := gi in
  let cx := clampi (wrap32 (gix + dx)) 0 (wrap32 (res - 1)) in
  let cy := clampi (wrap32 (giy + dy)) 0 (wrap32 (res - 1)) in
  let cz := clampi (wrap32 (giz + dz)) 0 (wrap32 (res - 1)) in
  let idx := u32 (wrap32 (cx + wrap32 (cy * res) + wrap32 (wrap32 (cz * res) * res))) in
  let val := ofZ (load density idx) /! ofZ 1000 in
  let wx := if (dx =? 1)%Z then vx frac else ofZ 1 -! vx frac in
  let wy := if (dy =? 1)%Z then vy frac else ofZ 1 -! vy frac in
  let wz := if (dz =? 1)%Z then vz frac else ofZ 1 -! vz frac in
  result +! val *! wx *! wy *! wz.

Definition sampleDensity (u : RaymarchUniforms) (density : list Z) (pos : vec3 F) : F :=
  let norm := vdiv (vsub pos (grid_min u)) (vsub (grid_max u) (grid_min u)) in
  let gf := vscale norm (grid_res u) in
  let fl := V3 (ffloor (vx gf)) (ffloor (vy gf)) (ffloor (vz gf)) in
  let gi := (i32_of (vx fl), i32_of (vy fl), i32_of (vz fl)) in
  let frac := vsub gf fl in
  let res := i32_of (grid_res u) in
  fold_left (fun result dz =>
    fold_left (fun result dy =>
      fold_left (fun result dx => corner density gi frac res dz dy dx result)
        (range 0 1) result)
      (range 0 1) result)
    (range 0 1) (ofZ 0).

(** Ray-AABB intersection: [(tNear, tFar)]. *)
Definition intersectBox (ro rd bmin bmax : vec3 F) : F * F :=
  let invRd := V3 (ofZ 1 /! vx rd) (ofZ 1 /! vy rd) (ofZ 1 /! vz rd) in
  let t0 := V3 ((vx bmin -! vx ro) *! vx invRd) ((vy bmin -! vy ro) *! vy invRd)
               ((vz bmin -! vz ro) *! vz invRd) in
  let t1 := V3 ((vx bmax -! vx ro) *! vx invRd) ((vy bmax -! vy ro) *! vy invRd)
               ((vz bmax -! vz ro) *! vz invRd) in
  let tmin := V3 (fmin (vx t0) (vx t1)) (fmin (vy t0) (vy t1)) (fmin (vz t0) (vz t1)) in
  let tmax := V3 (fmax (vx t0) (vx t1)) (fmax (vy t0) (vy t1)) (fmax (vz t0) (vz t1)) in
  let tNear := fmax (fmax (vx tmin) (vy tmin)) (vz tmin) in
  let tFar := fmin (fmin (vx tmax) (vy tmax)) (vz tmax) in
  (tNear, tFar).






(** The uniforms of the volume that [updateUniforms] writes. *)
Definition uniforms (invView invProj : MathUtils.mat4 F) (eye : vec3 F)
    (time width height : F) : RaymarchUniforms :=
  {| inv_view := invView; inv_proj := invProj; camera_pos := eye;
     time := fround time;
     grid_min := V3 (fround (dec (-35) 10)) (fround (dec (-35) 10)) (fround (dec (-35) 10));
     grid_max := V3 (fround (dec 35 10)) (fround (dec 35 10)) (fround (dec 35 10));
     grid_res := fround (ofZ 64);
     screen_width := fround width; screen_height := fround height;
     absorption := fround (ofZ 3) |}.
End WithArith.
Arguments RaymarchUniforms F : clear implicits.
End Raymarch.

(** The point of the segment with the barycentric weights [(a, b, c)] on
    the three vertices: the interpolation of the rasteriser. *)
Definition barycentric (a b c : R) (p0 p1 p2 : R) : R := (a * p0 + b * p1 + c * p2)%R.

(** The point [p] is in the box with the corners [bmin] and [bmax]. *)
Definition in_box (bmin bmax p : vec3 R) : Prop :=
  (vx bmin <= vx p <= vx bmax /\ vy bmin <= vy p <= vy bmax
   /\ vz bmin <= vz p <= vz bmax)%R.

(** * js/color-map.js *)

Module ColorMap.
Section WithArith.
Context {F : Type} `{Arith F}.

(** [Math.round]: the nearest integer, a half rounded up. *)
Definition jsRound (x : F) : F :=
  let f := ffloor x in
  if fltb (x -! f) (dec 5 10) then f else f +! ofZ 1.

(** A store to a [Uint8Array]: the integer part modulo 256. *)
Definition toUint8 (x : F) : Z := (toZ x mod 256)%Z.

(** A control point [[position, r, g, b]]. *)
Record stop := mkStop { pos : F; red : F; green : F; blue : F }.

Definition stops : list stop :=
  [ mkStop (dec 0 100) (dec 2 100) (dec 4 100) (dec 12 100);
    mkStop (dec 15 100) (dec 5 100) (dec 15 100) (dec 35 100);
    mkStop (dec 30 100) (dec 8 100) (dec 72 100) (dec 65 100);
    mkStop (dec 50 100) (dec 20 100) (dec 85 100) (dec 75 100);
    mkStop (dec 65 100) (dec 85 100) (dec 60 100) (dec 20 100);
    mkStop (dec 80 100) (dec 98 100) (dec 45 100) (dec 9 100);
    mkStop (dec 92 100) (dec 100 100) (dec 80 100) (dec 50 100);
    mkStop (dec 100 100) (dec 100 100) (dec 96 100) (dec 90 100) ].

Definition first_stop : stop := mkStop (dec 0 100) (dec 2 100) (dec 4 100) (dec 12 100).
Definition last_stop : stop := mkStop (dec 100 100) (dec 100 100) (dec 96 100) (dec 90 100).

(** The loop that finds the surrounding stops: the first pair of
    neighbours around [t], or else the first and the last stop. *)
Definition surrounding (t : F) : stop * stop :=
  match find (fun p : stop * stop => fgeb t (pos (fst p)) && fleb t (pos (snd p)))
             (combine stops (tl stops)) with
  | Some p => p
  | None => (first_stop, last_stop)
  end.

(** The four bytes of entry [i]. *)
Definition entry (size i : Z) : list Z :=
  let t := ofZ i /! ofZ (size - 1) in
  let '(lower, upper) := surrounding t in
  let range := pos upper -! pos lower in
  let f := if fgtb range (ofZ 0) then (t -! pos lower) /! range else ofZ 0 in
  let sf := f *! f *! (ofZ 3 -! ofZ 2 *! f) in
  let r := red lower +! (red upper -! red lower) *! sf in
  let g := green lower +! (green upper -! green lower) *! sf in
  let b := blue lower +! (blue upper -! blue lower) *! sf in
  [ toUint8 (jsRound (r *! ofZ 255));
    toUint8 (jsRound (g *! ofZ 255));
    toUint8 (jsRound (b *! ofZ 255));
    255%Z ].

Definition generateColorLUT (size : Z) : list Z :=
  flat_map (entry size) (range 0 (size - 1)).
End WithArith.
Arguments stop F : clear implicits.
End ColorMap.

(** * js/ui.js *)

Module UI.
Section WithArith.
Context {F : Type} `{Arith F} `{MathLib F}.

(** What [update] writes to the page: the number shown by the entropy
    counter (before [toFixed(4)] formats it), whether the counter has the
    class [hot], the width of the bar in percent, the text of the state
    label and whether it has the class [visible], the text of the click
    instruction and whether it has the class [hidden]. *)
Record t := mk {
  entropyValue : F;
  hot : bool;
  barWidth : F;
  stateLabel : String.string;
  labelVisible : bool;
  clickInstruction : String.string;
  instructionHidden : bool;
}.

(** JavaScript's truth value of a string. *)
Definition truthy (s : String.string) : bool :=
  match s with
  | String.EmptyString => false
  | _ => true
  end.

Definition update (entropy : EntropyCalculator.t F) (stateMachine : StateMachine.t F)
    (ui : t) : t :=
  let instruction := StateMachineView.clickInstruction stateMachine in
  {| entropyValue := EntropyCalculator.currentEntropy entropy;
     hot := fgtb (EntropyCalculator.normalizedEntropy entropy) (dec 5 10);
     barWidth := EntropyCalculator.displayEntropy entropy *! ofZ 100;
     stateLabel := StateMachineView.stateLabel stateMachine;
     labelVisible := StateMachineView.isTransitioning stateMachine;
     clickInstruction := if truthy instruction then instruction else clickInstruction ui;
     instructionHidden := negb (truthy instruction) |}.
End WithArith.
Arguments t F : clear implicits.
End UI.

(** * js/main.js, with the WebGL2 renderer *)

Module Main.
Section WithArith.
Context {F : Type} `{Arith F} `{MathLib F} `{Trig F}.

(** The objects of [main] and the variables of its animation loop.  Of
    [renderer.frame] the physics is kept; its drawing is left out. *)
Record t := mk {
  lastTime : F;
  totalTime : F;
  stateMachine : StateMachine.t F;
  entropy : EntropyCalculator.t F;
  camera : Camera.t F;
  renderer : WebGLFallback.t F;
  ui : UI.t F;
}.

(** The state when the loop starts: [now] is [performance.now()], [aspect]
    the aspect ratio of the window, [page] the page as loaded. *)
Definition start (now aspect : F) (page : UI.t F) : t :=
  {| lastTime := now;
     totalTime := ofZ 0;
     stateMachine := StateMachine.constructor;
     entropy := EntropyCalculator.constructor 64;
     camera := Camera.constructor aspect;
     renderer := WebGLFallback.init;
     ui := page |}.

(** The handler of [click] and [touchend]. *)
Definition onClick (a : t) : t :=
  if StateMachine.canClick (stateMachine a)
  then mk (lastTime a) (totalTime a) (StateMachine.click (stateMachine a))
          (entropy a) (camera a) (renderer a) (ui a)
  else a.

(** The handler of [mousemove], at the normalised pointer position. *)
Definition onMouseMove (nx ny : F) (a : t) : t :=
  mk (lastTime a) (totalTime a) (stateMachine a) (entropy a)
     (Camera.onMouseMove nx ny (camera a)) (renderer a) (ui a).

(** [frame(now)]. *)
Definition frame (now : F) (a : t) : t :=
  let dtRaw := (now -! lastTime a) /! ofZ 1000 in
  let dt := fmin dtRaw (ofZ 1 /! ofZ 20) in
  let totalTime' := totalTime a +! dt in
  let stateMachine' := StateMachine.update dt (stateMachine a) in
  let camera' := Camera.update dt (camera a) in
  let renderer' :=
    WebGLFallback.updatePhysics dt (StateMachine.tOrder stateMachine') totalTime'
      (renderer a) in
  let entropy1 :=
    match WebGLFallback.getHistogram renderer' with
    | Some hist => fst (EntropyCalculator.compute hist (entropy a))
    | None => entropy a
    end in
  let entropy' := EntropyCalculator.updateDisplay dt entropy1 in
  {| lastTime := now;
     totalTime := totalTime';
     stateMachine := stateMachine';
     entropy := entropy';
     camera := camera';
     renderer := renderer';
     ui := UI.update entropy' stateMachine' (ui a) |}.

(** The frames at the times [nows], in turn. *)
Definition frames (nows : list F) (a : t) : t :=
  fold_left (fun a now => frame now a) nows a.
End WithArith.
Arguments t F : clear implicits.
End Main.

(** * The state machine *)

Section StateMachineFacts.
Import StateMachine.

(** C8. While the machine is SHATTERING or REASSEMBLING, [click()]
    changes no field: the state, [tOrder], [transitionProgress],
    [transitionDuration] and [elapsed] are what they were, so the click is
    dropped, not queued, and the [canClick] gate is closed. *)
Theorem click_during_transition_is_noop
    {F : Type} `{Arith F} (m : StateMachine.t F) :
  state m = SHATTERING \/ state m = REASSEMBLING ->
  click m = m /\ canClick m = false.
Proof.
  unfold click, canClick.
  intros [-> | ->]; split; reflexivity.
Qed.

Lemma click_during_transition_is_noop_witness :
  state (click (@constructor float _)) = SHATTERING
  /\ click (click (@constructor float _)) = click (@constructor float _)
  /\ canClick (click (@constructor float _)) = false.
Proof.
  split; [reflexivity |].
  apply (click_during_transition_is_noop (click (@constructor float _))).
  left; reflexivity.
Defined.

(** A click is only taken in the two stable states. *)
Lemma click_taken_when_stable {F : Type} `{Arith F} (m : StateMachine.t F) :
  canClick m = true ->
  state (click m) = SHATTERING \/ state (click m) = REASSEMBLING.
Proof.
  unfold click, canClick.
  destruct (state m); intros Hc; try discriminate; cbn; auto.
Qed.

(** C5. In binary64 arithmetic, whatever [Math.pow] computes: a machine
    created ORDERED, clicked once and updated fifteen times with
    [dt = 0.1] is in CHAOS with [tOrder] the number [0]; its accumulated
    [elapsed] has reached 1.5 s, and after fourteen updates it had not
    (the machine was still SHATTERING, [elapsed] below 1.5 s). *)
Theorem shatter_reaches_chaos_after_15_updates (M : MathLib float) :
  state (updates 15 (dec 1 10) (click (constructor (F := float)))) = CHAOS
  /\ tOrder (updates 15 (dec 1 10) (click (constructor (F := float)))) = ofZ 0
  /\ fleb (dec 15 10) (elapsed (updates 15 (dec 1 10) (click (constructor (F := float))))) = true
  /\ state (updates 14 (dec 1 10) (click (constructor (F := float)))) = SHATTERING
  /\ fltb (elapsed (updates 14 (dec 1 10) (click (constructor (F := float))))) (dec 15 10) = true.
Proof.
  vm_compute. repeat split; reflexivity.
Qed.
End StateMachineFacts.

(** * The entropy meter *)

Section EntropyFacts.
Import EntropyCalculator.

Lemma total_zero_histogram (n : nat) :
  total (F := float) (replicate n 0%Z) = ofZ 0.
Proof.
  unfold total.
  induction n as [| n IH]; [reflexivity |].
  cbn [replicate fold_left].
  replace (ofZ 0 +! ofZ 0) with (ofZ 0 : float) by (vm_compute; reflexivity).
  exact IH.
Qed.

(** C7. On a histogram whose bins are all zero, of any length,
    [compute] returns [{ entropy: 0, normalized: 0 }] and stores 0 in
    [currentEntropy] and [normalizedEntropy] (binary64 arithmetic,
    whatever [Math.log2] computes); the two numbers are not NaN. *)
Theorem compute_zero_histogram (M : MathLib float)
    (e : EntropyCalculator.t float) (n : nat) :
  snd (compute (replicate n 0%Z) e) = (ofZ 0, ofZ 0)
  /\ currentEntropy (fst (compute (replicate n 0%Z) e)) = ofZ 0
  /\ normalizedEntropy (fst (compute (replicate n 0%Z) e)) = ofZ 0
  /\ feqb (currentEntropy (fst (compute (replicate n 0%Z) e)))
          (normalizedEntropy (fst (compute (replicate n 0%Z) e))) = true.
Proof.
  unfold compute.
  rewrite total_zero_histogram.
  replace (feqb (ofZ 0 : float) (ofZ 0)) with true by (vm_compute; reflexivity).
  cbn [fst snd currentEntropy normalizedEntropy].
  repeat split; vm_compute; reflexivity.
Qed.

(** The other fields are left as they were. *)
Lemma compute_zero_histogram_frame (M : MathLib float)
    (e : EntropyCalculator.t float) (n : nat) :
  let e' := fst (compute (replicate n 0%Z) e) in
  numBins e' = numBins e /\ maxEntropy e' = maxEntropy e
  /\ displayEntropy e' = displayEntropy e /\ smoothing e' = smoothing e.
Proof.
  unfold compute.
  rewrite total_zero_histogram.
  replace (feqb (ofZ 0 : float) (ofZ 0)) with true by (vm_compute; reflexivity).
  cbn. repeat split; reflexivity.
Qed.
End EntropyFacts.

(** * The lattice of the fallback renderer *)

Section LatticeFacts.
Import WebGLFallback.




End LatticeFacts.

(** * The integrators, evaluated *)

Section SpeedCache.

(** The compute shader caches the speed last: it is the length of the
    velocity it stores, boundary correction included. *)
Lemma shader_speed_is_stored_velocity {F : Type} `{Arith F} `{MathLib F}
    (u : PhysicsShader.Uniforms F) (idx : Z) (p : Particle F) :
  speed (PhysicsShader.stepParticle u idx p)
  = vlength (velocity (PhysicsShader.stepParticle u idx p)).
Proof. reflexivity. Qed.


(** C1, on the fallback.  One [updatePhysics(0.016, 1, 1.234)] on the
    renderer whose particle 0 rests at [(-4, -4, -4)], outside the soft
    boundary: the particle is still outside the boundary after the
    position update, the correction is applied, and the [speed] stored
    for it is smaller than the length of the velocity stored for it. *)
Theorem fallback_speed_misses_boundary_correction :
  exists p : Particle float,
    WebGLFallback.particles (Scenario.tick (Scenario.renderer_with Scenario.stray))
      !! 0%nat = Some p
    /\ fgtb (vlength (position p)) (dec 45 10) = true
    /\ fltb (speed p) (vlength (velocity p)) = true.
Proof.
  eexists. split; [vm_compute; reflexivity |].
  split; vm_compute; reflexivity.
Qed.

End SpeedCache.

(** * Vectors over the reals *)

Ltac unfold_arith :=
  unfold fgtb, fgeb, dec, fneg, clamp, mix in *;
  cbn [fadd fsub fmul fdiv fsqrt ffloor fmin fmax fltb fleb feqb ofZ toZ fround
       R_arith fexp flog flog2 fcos fpow R_mathlib] in *.

Ltac unfold_vec :=
  unfold vlength, vadd, vsub, vscale, vquot, vdiv, normalize, vzero, norm2, dot in *;
  cbn [vx vy vz] in *;
  unfold_arith.

Section RealVectors.
Local Open Scope R_scope.


Lemma vlength_sqrt (a : vec3 R) : vlength a = sqrt (norm2 a).
Proof. reflexivity. Qed.

Lemma vlength_nonneg (a : vec3 R) : 0 <= vlength a.
Proof. rewrite vlength_sqrt. apply sqrt_pos. Qed.


(** A nonnegative number whose square bounds the squared length bounds
    the length. *)
Lemma vlength_le_of_sq (a : vec3 R) (b : R) :
  0 <= b -> norm2 a <= b * b -> vlength a <= b.
Proof.
  intros Hb Hab.
  rewrite vlength_sqrt, <- (sqrt_square b Hb).
  apply sqrt_le_1_alt. exact Hab.
Qed.


Lemma norm2_vscale (a : vec3 R) (s : R) : norm2 (vscale a s) = s * s * norm2 a.
Proof. destruct a as [x y z]. unfold_vec. ring. Qed.

Lemma vlength_vscale (a : vec3 R) (s : R) :
  0 <= s -> vlength (vscale a s) = s * vlength a.
Proof.
  intros Hs.
  rewrite !vlength_sqrt, norm2_vscale.
  rewrite sqrt_mult_alt by nra.
  rewrite sqrt_square by exact Hs. reflexivity.
Qed.


End RealVectors.

(** * The bound on the velocity *)

Section VelocityBound.
Local Open Scope R_scope.

Lemma fgtb_R (a b : R) : fgtb a b = true <-> b < a.
Proof.
  unfold_arith. destruct (Rlt_dec b a); split; intros; try lra; try discriminate; auto.
Qed.

Lemma fgtb_R_false (a b : R) : fgtb a b = false <-> a <= b.
Proof.
  unfold_arith. destruct (Rlt_dec b a); split; intros; try lra; try discriminate; auto.
Qed.

(** The clamp: rescaled to length 8 when longer. *)
Lemma clamp_rescale (w : vec3 R) :
  8 < vlength w -> vlength (vscale w (8 / vlength w)) = 8.
Proof.
  intros Hw.
  rewrite vlength_vscale.
  - field. lra.
  - apply Rlt_le, Rdiv_lt_0_compat; lra.
Qed.






End VelocityBound.

(** * The speed histogram *)

Section Binning.
Local Open Scope R_scope.

Lemma R_toZ_nonneg (x : R) : 0 <= x -> R_toZ x = Zfloor x.
Proof. intros Hx. unfold R_toZ. destruct (Rle_dec 0 x); [reflexivity | contradiction]. Qed.

Lemma Zfloor_of_IZR (k : Z) : Zfloor (IZR k) = k.
Proof. apply Zfloor_eq. lra. Qed.

Lemma R_toZ_IZR (k : Z) : R_toZ (IZR k) = k.
Proof.
  unfold R_toZ. destruct (Rle_dec 0 (IZR k)).
  - apply Zfloor_of_IZR.
  - rewrite <- opp_IZR, Zfloor_of_IZR. lia.
Qed.

Lemma array_index_IZR (k : Z) : array_index (IZR k) = Some k.
Proof.
  unfold array_index. cbn [feqb ofZ toZ R_arith].
  rewrite R_toZ_IZR.
  destruct (Req_dec_T (IZR k) (IZR k)); [reflexivity | contradiction].
Qed.

(** The bin the fallback selects, for a speed that is not negative. *)
Lemma fallback_bin (s : R) :
  0 <= s ->
  array_index (WebGLFallback.binOf s) = Some (Z.min (Zfloor (s / 8 * 64)) 63).
Proof.
  intros Hs.
  unfold WebGLFallback.binOf, WebGLFallback.HIST_BINS.
  cbn [fmin ffloor fdiv fmul ofZ R_arith].
  replace (64 - 1)%Z with 63%Z by reflexivity.
  destruct (Z_le_gt_dec (Zfloor (s / 8 * 64)) 63) as [Hle | Hgt].
  - rewrite Rmin_left by (apply IZR_le; exact Hle).
    rewrite Z.min_l by exact Hle. apply array_index_IZR.
  - rewrite Rmin_right by (apply IZR_le; lia).
    rewrite Z.min_r by lia. apply array_index_IZR.
Qed.

Lemma fallback_bin_range (s : R) :
  0 <= s -> (0 <= Z.min (Zfloor (s / 8 * 64)) 63 <= 63)%Z.
Proof.
  intros Hs.
  assert (0 <= Zfloor (s / 8 * 64))%Z by (apply Zfloor_lub; cbn; lra).
  lia.
Qed.

(** The bin the histogram shader selects. *)
Lemma shader_bin (n : Z) (s : R) :
  0 <= s ->
  HistogramShader.binOf (HistogramShader.uniforms n) s
  = Z.min (Zfloor (s / 8 * 64)) 63.
Proof.
  intros Hs.
  unfold HistogramShader.binOf, HistogramShader.uniforms, u32_of, clamp, dec.
  cbn [HistogramShader.max_speed HistogramShader.num_bins
       fmin fmax fdiv fmul ofZ toZ fround R_arith].
  rewrite Rmax_left by lra.
  destruct (Rle_dec (s / 8) (9999 / 10000)) as [Hlo | Hhi].
  - rewrite Rmin_left by exact Hlo.
    rewrite R_toZ_nonneg by lra.
    assert (H0 : (0 <= Zfloor (s / 8 * 64))%Z) by (apply Zfloor_lub; cbn; lra).
    assert (H1 : (Zfloor (s / 8 * 64) <= 63)%Z).
    { pose proof (Zfloor_bound (s / 8 * 64)) as [Hb _].
      assert (IZR (Zfloor (s / 8 * 64)) < 64) by lra.
      apply lt_IZR in H. lia. }
    lia.
  - apply Rnot_le_lt in Hhi.
    rewrite Rmin_right by lra.
    rewrite R_toZ_nonneg by lra.
    replace (Zfloor (9999 / 10000 * 64)) with 63%Z
      by (symmetry; apply Zfloor_eq; lra).
    assert (H1 : (63 <= Zfloor (s / 8 * 64))%Z) by (apply Zfloor_lub; lra).
    lia.
Qed.

(** C6 (exact arithmetic).  For every speed [s >= 0], the bin computed
    by the histogram shader, [u32(clamp(s / 8.0, 0.0, 0.9999) * 64)], is the
    element of the histogram that the fallback's
    [min(floor((s / 8.0) * 64), 63)] selects; it is one of the 64 bins. *)
Theorem backends_select_same_bin (n : Z) (s : R) :
  0 <= s ->
  array_index (WebGLFallback.binOf s)
  = Some (HistogramShader.binOf (HistogramShader.uniforms n) s)
  /\ (0 <= HistogramShader.binOf (HistogramShader.uniforms n) s < 64)%Z.
Proof.
  intros Hs.
  rewrite shader_bin by exact Hs.
  split; [apply fallback_bin; exact Hs |].
  pose proof (fallback_bin_range s Hs). lia.
Qed.

Lemma backends_select_same_bin_witness :
  array_index (WebGLFallback.binOf 8%R)
  = Some (HistogramShader.binOf (HistogramShader.uniforms 2048) 8%R)
  /\ (0 <= HistogramShader.binOf (HistogramShader.uniforms 2048) 8%R < 64)%Z.
Proof.
  apply (backends_select_same_bin 2048 8%R). lra.
Defined.
End Binning.

Section HistogramTotal.
Local Open Scope Z_scope.

Lemma sumZ_cons (a : Z) (l : list Z) : sumZ (a :: l) = a + sumZ l.
Proof. reflexivity. Qed.

Lemma sumZ_nonneg (l : list Z) : Forall (fun x => 0 <= x) l -> 0 <= sumZ l.
Proof.
  induction 1 as [| a l Ha Hl IH]; [cbn; lia |].
  rewrite sumZ_cons. lia.
Qed.

Lemma sumZ_alter (f : Z -> Z) (l : list Z) (k : nat) (v : Z) :
  l !! k = Some v -> sumZ (alter f k l) = sumZ l - v + f v.
Proof.
  revert k. induction l as [| a l IH]; intros k Hk; [discriminate |].
  destruct k as [| k].
  - injection Hk as ->.
    change (alter f 0%nat (v :: l)) with (f v :: l).
    rewrite !sumZ_cons. lia.
  - change (alter f (S k) (a :: l)) with (a :: alter f k l).
    rewrite !sumZ_cons, (IH k Hk). lia.
Qed.

Lemma sumZ_bounds_entry (l : list Z) (k : nat) (v : Z) :
  Forall (fun x => 0 <= x) l -> l !! k = Some v -> 0 <= v <= sumZ l.
Proof.
  intros Hl. revert k. induction Hl as [| a l Ha Hl IH]; intros k Hk; [discriminate |].
  pose proof (sumZ_nonneg l Hl) as Hs.
  rewrite sumZ_cons.
  destruct k as [| k].
  - injection Hk as ->. lia.
  - specialize (IH k Hk). lia.
Qed.


Lemma sumZ_replicate_0 (n : nat) : sumZ (replicate n 0) = 0.
Proof. induction n; cbn; [reflexivity | exact IHn]. Qed.


Lemma stepParticles_length {F : Type} `{Arith F} (dt tOrder damping : F)
    (seed : Z) (ps : list (Particle F)) :
  length (WebGLFallback.stepParticles dt tOrder damping seed ps) = length ps.
Proof.
  revert seed. induction ps as [| p ps IH]; intros seed; [reflexivity |].
  cbn [WebGLFallback.stepParticles].
  destruct (WebGLFallback.stepParticle dt tOrder damping seed p) as [seed' p'].
  cbn [length]. rewrite IH. reflexivity.
Qed.



Lemma for_while_invariant {S : Type} (P : S -> Prop) (n : Z) (cond : S -> bool)
    (body : Z -> S -> S) (s : S) :
  (forall i s, P s -> P (body i s)) -> P s ->
  P (WebGLFallback.for_while n cond body s).
Proof.
  intros Hbody. unfold WebGLFallback.for_while.
  generalize (range 0 (n - 1)). intros l. revert s.
  induction l as [| i l IH]; intros s Hs; [exact Hs |].
  cbn [fold_left]. apply IH.
  destruct (cond s); [apply Hbody; exact Hs | exact Hs].
Qed.

Lemma place_length {F : Type} `{Arith F} (side : Z) (spacing off : F) (x y z : Z)
    (s : nat * list (Particle F)) :
  length (snd (WebGLFallback.place side spacing off x y z s)) = length (snd s).
Proof.
  unfold WebGLFallback.place. destruct s as [idx ps].
  destruct (Z.of_nat idx <? WebGLFallback.PARTICLE_COUNT); [| reflexivity].
  cbn [snd]. apply length_insert.
Qed.

(** The array keeps its 512 records. *)
Lemma initParticles_length {F : Type} `{Arith F} :
  length (WebGLFallback.initParticles (F := F))
  = Z.to_nat WebGLFallback.PARTICLE_COUNT.
Proof.
  unfold WebGLFallback.initParticles, WebGLFallback.initLoop.
  apply (for_while_invariant
           (fun s : nat * list (Particle F) =>
              length (snd s) = Z.to_nat WebGLFallback.PARTICLE_COUNT));
    [| apply length_replicate].
  intros z s Hs. apply for_while_invariant; [| exact Hs].
  intros y s1 Hs1. apply for_while_invariant; [| exact Hs1].
  intros x s2 Hs2. rewrite !place_length. exact Hs2.
Qed.

End HistogramTotal.

(** ** The histogram, evaluated in binary64 *)

Section HistogramEvaluated.

(** The two binning rules on speeds around the last bin: below and above
    [0.9999 * 8], at 8 and beyond. *)
Lemma bins_agree_binary64 :
  Forall (fun s : float =>
            array_index (WebGLFallback.binOf s)
            = Some (HistogramShader.binOf (HistogramShader.uniforms 2048) s))
    [ofZ 0; dec 1249 10000; dec 125 1000; dec 79991 10000; dec 79993 10000;
     dec 799999 100000; ofZ 8; ofZ 100].
Proof. repeat constructor. Qed.

(** One frame of the fallback renderer counts its 512 particles. *)
Lemma fallback_histogram_total_binary64 :
  exists hist : list Z,
    WebGLFallback.getHistogram (Scenario.tick (Scenario.renderer_with Scenario.stray))
    = Some hist
    /\ length hist = 64%nat /\ sumZ hist = 512%Z.
Proof.
  eexists. split; [vm_compute; reflexivity |]. split; reflexivity.
Qed.
End HistogramEvaluated.

(** * The density splat *)

Section AtomicAdds.

Lemma valueAt_app (k : nat) (ws1 ws2 : list (Z * Z)) (v : Z) :
  valueAt k (ws1 ++ ws2) v = valueAt k ws2 (valueAt k ws1 v).
Proof. unfold valueAt. apply fold_left_app. Qed.

Lemma valueAt_untouched (k : nat) (ws : list (Z * Z)) (v : Z) :
  (forall w, In w ws -> Z.to_nat (fst w) <> k) -> valueAt k ws v = v.
Proof.
  unfold valueAt. induction ws as [| w ws IH]; intros Hws; [reflexivity |].
  cbn [fold_left].
  destruct (Nat.eqb_spec (Z.to_nat (fst w)) k) as [Heq | _].
  - exfalso. apply (Hws w); [left; reflexivity | exact Heq].
  - apply IH. intros w' Hw'. apply Hws. right. exact Hw'.
Qed.

(** The cell [k] after the [atomicAdd]s is what they make of its value. *)
Lemma lookup_fold_atomicAdd (ws : list (Z * Z)) (d : list Z) (k : nat) :
  fold_left DensitySplat.atomicAdd ws d !! k = valueAt k ws <$> (d !! k).
Proof.
  revert d. induction ws as [| w ws IH]; intros d.
  - cbn. destruct (d !! k); reflexivity.
  - cbn [fold_left]. rewrite IH. unfold DensitySplat.atomicAdd.
    unfold valueAt at 2. cbn [fold_left]. fold (valueAt k ws).
    destruct (Nat.eqb_spec (Z.to_nat (fst w)) k) as [-> | Hne].
    + rewrite list_lookup_alter_eq. destruct (d !! k); reflexivity.
    + rewrite list_lookup_alter_ne by exact Hne. reflexivity.
Qed.

(** When one element of the loop range alone reaches cell [k], the loop
    does to the cell what the round of that element does. *)
Lemma valueAt_flat_map_one {A : Type} (f : A -> list (Z * Z)) (l : list A)
    (a0 : A) (k : nat) (v : Z) :
  List.NoDup l -> In a0 l ->
  (forall a, In a l -> a <> a0 -> forall w, In w (f a) -> Z.to_nat (fst w) <> k) ->
  valueAt k (flat_map f l) v = valueAt k (f a0) v.
Proof.
  intros Hnd. revert v. induction Hnd as [| a l Hnotin Hnd IH]; intros v Hin Hother.
  - destruct Hin.
  - cbn [flat_map]. rewrite valueAt_app.
    destruct Hin as [-> | Hin].
    + apply valueAt_untouched.
      intros w Hw. apply in_flat_map in Hw as (a & Ha & Hw).
      apply (Hother a); [right; exact Ha | | exact Hw].
      intros ->. contradiction.
    + rewrite (valueAt_untouched k (f a)).
      * apply IH; [exact Hin |].
        intros a' Ha' Hne. apply Hother; [right; exact Ha' | exact Hne].
      * apply Hother; [left; reflexivity |].
        intros ->. contradiction.
Qed.

Lemma valueAt_flat_map_none {A : Type} (f : A -> list (Z * Z)) (l : list A)
    (k : nat) (v : Z) :
  (forall a, In a l -> forall w, In w (f a) -> Z.to_nat (fst w) <> k) ->
  valueAt k (flat_map f l) v = v.
Proof.
  intros Hnone. apply valueAt_untouched.
  intros w Hw. apply in_flat_map in Hw as (a & Ha & Hw). exact (Hnone a Ha w Hw).
Qed.

Lemma in_range (lo hi a : Z) : In a (range lo hi) <-> (lo <= a <= hi)%Z.
Proof.
  unfold range. rewrite in_map_iff. split.
  - intros (k & <- & Hk). apply in_seq in Hk. lia.
  - intros Ha. exists (Z.to_nat (a - lo)). split; [lia |].
    apply in_seq. lia.
Qed.

Lemma NoDup_range (lo hi : Z) : List.NoDup (range lo hi).
Proof.
  unfold range. apply Finite.Injective_map_NoDup; [| apply seq_NoDup].
  intros a b Hab. lia.
Qed.
End AtomicAdds.

Section SplatOneParticle.
Local Open Scope Z_scope.

Lemma wrap32_small (z : Z) : - 2 ^ 31 <= z < 2 ^ 31 -> wrap32 z = z.
Proof. intros Hz. unfold wrap32. rewrite Z.mod_small; lia. Qed.

Lemma wrap32_range (z : Z) : - 2 ^ 31 <= wrap32 z < 2 ^ 31.
Proof.
  unfold wrap32.
  pose proof (Z.mod_pos_bound (z + 2 ^ 31) (2 ^ 32) ltac:(lia)). lia.
Qed.

(** A wrapped sum that lands in the grid did not wrap. *)
Lemma wrap32_in_grid (c d : Z) :
  - 2 ^ 31 <= c < 2 ^ 31 -> -2 <= d <= 2 ->
  0 <= wrap32 (c + d) < 64 -> wrap32 (c + d) = c + d.
Proof.
  intros Hc Hd Hw. unfold wrap32 in *.
  destruct (Z_lt_ge_dec (c + d) (- 2 ^ 31)) as [Hlo | Hlo].
  - exfalso.
    replace (c + d + 2 ^ 31) with (c + d + 2 ^ 31 + 2 ^ 32 + (-1) * 2 ^ 32) in Hw by lia.
    rewrite Z.mod_add in Hw by lia.
    rewrite Z.mod_small in Hw; lia.
  - destruct (Z_lt_ge_dec (c + d) (2 ^ 31)) as [Hhi | Hhi].
    + rewrite Z.mod_small; lia.
    + exfalso.
      replace (c + d + 2 ^ 31) with (c + d + 2 ^ 31 - 2 ^ 32 + 1 * 2 ^ 32) in Hw by lia.
      rewrite Z.mod_add in Hw by lia.
      rewrite Z.mod_small in Hw; lia.
Qed.

Lemma i32_of_range {F : Type} `{Arith F} (a : F) : - 2 ^ 31 <= i32_of a < 2 ^ 31.
Proof. unfold i32_of. lia. Qed.

Lemma u32_of_range {F : Type} `{Arith F} (a : F) : 0 <= u32_of a < 2 ^ 32.
Proof. unfold u32_of. lia. Qed.

Lemma gridIndex_in_grid (n x y z : Z) :
  0 <= x < 64 -> 0 <= y < 64 -> 0 <= z < 64 ->
  DensitySplat.gridIndex (DensitySplat.uniforms (F := R) n) (u32 x) (u32 y) (u32 z)
  = x + 64 * y + 4096 * z.
Proof.
  intros Hx Hy Hz.
  unfold DensitySplat.gridIndex, DensitySplat.uniforms, u32.
  cbn [DensitySplat.grid_res].
  rewrite (Z.mod_small x), (Z.mod_small y), (Z.mod_small z) by lia.
  rewrite (Z.mod_small (y * 64)), (Z.mod_small (z * 64)) by lia.
  rewrite (Z.mod_small (z * 64 * 64)) by lia.
  rewrite Z.mod_small by lia. lia.
Qed.

Lemma gridIndex_plain (n x y z : Z) :
  0 <= x < 64 -> 0 <= y < 64 -> 0 <= z < 64 ->
  DensitySplat.gridIndex (DensitySplat.uniforms (F := R) n) x y z
  = x + 64 * y + 4096 * z.
Proof.
  intros Hx Hy Hz.
  rewrite <- (gridIndex_in_grid n x y z Hx Hy Hz).
  unfold u32. rewrite !Z.mod_small by lia. reflexivity.
Qed.

(** The splat radius of the uniforms is 2 cells. *)
Lemma splat_radius_cells (n : Z) :
  i32_of (fceil (DensitySplat.splat_radius (DensitySplat.uniforms (F := R) n))) = 2.
Proof.
  unfold DensitySplat.uniforms, fceil, fneg, i32_of.
  cbn [DensitySplat.splat_radius fround ffloor fsub ofZ toZ R_arith].
  replace (Zfloor (0 - 2)%R) with (-2) by (symmetry; apply Zfloor_eq; lra).
  replace (0 - IZR (-2))%R with (IZR 2) by lra.
  rewrite R_toZ_IZR. reflexivity.
Qed.

(** What one round of the innermost loop writes. *)
Lemma in_splatCell (M : MathLib R) (n : Z) (p : Particle R) (g : vec3 R)
    (cx cy cz dx dy dz : Z) (w : Z * Z) :
  - 2 ^ 31 <= cx < 2 ^ 31 -> - 2 ^ 31 <= cy < 2 ^ 31 -> - 2 ^ 31 <= cz < 2 ^ 31 ->
  -2 <= dx <= 2 -> -2 <= dy <= 2 -> -2 <= dz <= 2 ->
  In w (DensitySplat.splatCell (DensitySplat.uniforms n) p g cx cy cz dx dy dz) ->
  0 <= cx + dx < 64 /\ 0 <= cy + dy < 64 /\ 0 <= cz + dz < 64
  /\ fst w = (cx + dx) + 64 * (cy + dy) + 4096 * (cz + dz).
Proof.
  intros Hcx Hcy Hcz Hdx Hdy Hdz.
  unfold DensitySplat.splatCell.
  change (wrap32 (DensitySplat.grid_res (DensitySplat.uniforms (F := R) n))) with 64.
  destruct (_ || _) eqn:Hb; [intros [] |].
  repeat (apply orb_false_iff in Hb as [Hb ?]).
  assert (Hx : 0 <= wrap32 (cx + dx) < 64) by lia.
  assert (Hy : 0 <= wrap32 (cy + dy) < 64) by lia.
  assert (Hz : 0 <= wrap32 (cz + dz) < 64) by lia.
  rewrite (wrap32_in_grid cx dx Hcx Hdx Hx) in *.
  rewrite (wrap32_in_grid cy dy Hcy Hdy Hy) in *.
  rewrite (wrap32_in_grid cz dz Hcz Hdz Hz) in *.
  cbv zeta.
  destruct (0 <? _); [| intros []].
  intros [<- | []].
  cbn [fst].
  assert (Hx' : 0 <= cx + dx < 64) by lia.
  assert (Hy' : 0 <= cy + dy < 64) by lia.
  assert (Hz' : 0 <= cz + dz < 64) by lia.
  rewrite (gridIndex_in_grid n _ _ _ Hx' Hy' Hz').
  repeat split; lia.
Qed.

(** What the round of an in-grid cell does to that cell. *)
Lemma valueAt_splatCell (M : MathLib R) (n : Z) (p : Particle R) (g : vec3 R)
    (cx cy cz dx dy dz : Z) :
  0 <= cx + dx < 64 -> 0 <= cy + dy < 64 -> 0 <= cz + dz < 64 ->
  valueAt (Z.to_nat ((cx + dx) + 64 * (cy + dy) + 4096 * (cz + dz)))
    (DensitySplat.splatCell (DensitySplat.uniforms n) p g cx cy cz dx dy dz) 0
  = DensitySplat.contribution (DensitySplat.uniforms n) p g (cx + dx) (cy + dy) (cz + dz).
Proof.
  intros Hx Hy Hz.
  unfold DensitySplat.splatCell.
  change (wrap32 (DensitySplat.grid_res (DensitySplat.uniforms (F := R) n))) with 64.
  rewrite !wrap32_small by lia.
  destruct (_ || _) eqn:Hb.
  { exfalso. repeat (apply orb_true_iff in Hb as [Hb | Hb]); lia. }
  cbv zeta.
  pose proof (u32_of_range (F := R)) as Hu.
  unfold DensitySplat.contribution at 1. cbv zeta.
  unfold DensitySplat.contribution. cbv zeta.
  match goal with
  | |- context [0 <? u32_of ?e] => specialize (Hu e); set (c := u32_of e) in *
  end.
  destruct (Z.ltb_spec 0 c) as [Hpos | Hzero].
  - unfold valueAt. cbn [fold_left fst snd].
    rewrite gridIndex_in_grid by assumption.
    rewrite Nat.eqb_refl. unfold add_u32. rewrite Z.add_0_l. apply Z.mod_small. lia.
  - cbn. lia.
Qed.
End SplatOneParticle.

Section SplatDensity.
Local Open Scope Z_scope.

Lemma cell_index_inj (x y z x' y' z' : Z) :
  0 <= x < 64 -> 0 <= y < 64 -> 0 <= z < 64 ->
  0 <= x' < 64 -> 0 <= y' < 64 -> 0 <= z' < 64 ->
  Z.to_nat (x + 64 * y + 4096 * z) = Z.to_nat (x' + 64 * y' + 4096 * z') ->
  x = x' /\ y = y' /\ z = z'.
Proof. lia. Qed.

(** The density volume after the splat of one particle into the cleared
    volume, cell by cell: its contribution in the block of its cell, zero
    elsewhere. *)
Lemma splat_density_at (M : MathLib R) (n : Z) (p : Particle R) (x y z : Z) :
  0 <= x < 64 -> 0 <= y < 64 -> 0 <= z < 64 ->
  fold_left DensitySplat.atomicAdd
    (DensitySplat.splatWrites (DensitySplat.uniforms n) p) DensitySplat.cleared
    !! Z.to_nat (x + 64 * y + 4096 * z)
  = Some
      (if in_block
            (i32_of (ffloor (vx (DensitySplat.worldToGrid (DensitySplat.uniforms n) (position p)))))
            (i32_of (ffloor (vy (DensitySplat.worldToGrid (DensitySplat.uniforms n) (position p)))))
            (i32_of (ffloor (vz (DensitySplat.worldToGrid (DensitySplat.uniforms n) (position p)))))
            x y z
       then DensitySplat.contribution (DensitySplat.uniforms n) p
              (DensitySplat.worldToGrid (DensitySplat.uniforms n) (position p)) x y z
       else 0).
Proof.
  intros Hx Hy Hz.
  rewrite lookup_fold_atomicAdd.
  unfold DensitySplat.cleared.
  rewrite lookup_replicate_2 by lia.
  cbn [fmap option_fmap option_map]. f_equal.
  unfold DensitySplat.splatWrites. cbv zeta.
  rewrite splat_radius_cells.
  set (g := DensitySplat.worldToGrid (DensitySplat.uniforms n) (position p)).
  set (cx := i32_of (ffloor (vx g))).
  set (cy := i32_of (ffloor (vy g))).
  set (cz := i32_of (ffloor (vz g))).
  pose proof (i32_of_range (ffloor (vx g))) as Hcx. fold cx in Hcx.
  pose proof (i32_of_range (ffloor (vy g))) as Hcy. fold cy in Hcy.
  pose proof (i32_of_range (ffloor (vz g))) as Hcz. fold cz in Hcz.
  assert (Hcell : forall dx dy dz w,
             In dx (range (-2) 2) -> In dy (range (-2) 2) -> In dz (range (-2) 2) ->
             In w (DensitySplat.splatCell (DensitySplat.uniforms n) p g cx cy cz dx dy dz) ->
             Z.to_nat (fst w) = Z.to_nat (x + 64 * y + 4096 * z) ->
             dx = x - cx /\ dy = y - cy /\ dz = z - cz).
  { intros dx dy dz w Hdx Hdy Hdz Hw Hk.
    apply in_range in Hdx, Hdy, Hdz.
    pose proof (in_splatCell M n p g cx cy cz dx dy dz w Hcx Hcy Hcz
                  ltac:(lia) ltac:(lia) ltac:(lia) Hw) as (Hx' & Hy' & Hz' & Hidx).
    rewrite Hidx in Hk.
    destruct (cell_index_inj _ _ _ _ _ _ Hx' Hy' Hz' Hx Hy Hz Hk) as (? & ? & ?).
    lia. }
  unfold in_block.
  destruct (Z.leb_spec (Z.abs (x - cx)) 2) as [Hbx | Hbx];
    [destruct (Z.leb_spec (Z.abs (y - cy)) 2) as [Hby | Hby];
     [destruct (Z.leb_spec (Z.abs (z - cz)) 2) as [Hbz | Hbz] |] |];
    cbn [andb].
  - rewrite (valueAt_flat_map_one _ _ (z - cz));
      [| apply NoDup_range | apply in_range; lia |].
    2:{ intros dz Hdz Hne w Hw Hk.
        apply in_flat_map in Hw as (dy & Hdy & Hw).
        apply in_flat_map in Hw as (dx & Hdx & Hw).
        destruct (Hcell dx dy dz w Hdx Hdy Hdz Hw Hk) as (_ & _ & ?). contradiction. }
    rewrite (valueAt_flat_map_one _ _ (y - cy));
      [| apply NoDup_range | apply in_range; lia |].
    2:{ intros dy Hdy Hne w Hw Hk.
        apply in_flat_map in Hw as (dx & Hdx & Hw).
        assert (Hdz : In (z - cz) (range (-2) 2)) by (apply in_range; lia).
        destruct (Hcell dx dy (z - cz) w Hdx Hdy Hdz Hw Hk) as (_ & ? & _).
        contradiction. }
    rewrite (valueAt_flat_map_one _ _ (x - cx));
      [| apply NoDup_range | apply in_range; lia |].
    2:{ intros dx Hdx Hne w Hw Hk.
        assert (Hdz : In (z - cz) (range (-2) 2)) by (apply in_range; lia).
        assert (Hdy : In (y - cy) (range (-2) 2)) by (apply in_range; lia).
        destruct (Hcell dx (y - cy) (z - cz) w Hdx Hdy Hdz Hw Hk) as (? & _ & _).
        contradiction. }
    pose proof (valueAt_splatCell M n p g cx cy cz (x - cx) (y - cy) (z - cz)) as Hv.
    replace (cx + (x - cx)) with x in Hv by lia.
    replace (cy + (y - cy)) with y in Hv by lia.
    replace (cz + (z - cz)) with z in Hv by lia.
    apply Hv; assumption.
  - apply valueAt_flat_map_none. intros dz Hdz w Hw Hk.
    apply in_flat_map in Hw as (dy & Hdy & Hw).
    apply in_flat_map in Hw as (dx & Hdx & Hw).
    destruct (Hcell dx dy dz w Hdx Hdy Hdz Hw Hk) as (_ & _ & ?).
    apply in_range in Hdz. lia.
  - apply valueAt_flat_map_none. intros dz Hdz w Hw Hk.
    apply in_flat_map in Hw as (dy & Hdy & Hw).
    apply in_flat_map in Hw as (dx & Hdx & Hw).
    destruct (Hcell dx dy dz w Hdx Hdy Hdz Hw Hk) as (_ & ? & _).
    apply in_range in Hdy. lia.
  - apply valueAt_flat_map_none. intros dz Hdz w Hw Hk.
    apply in_flat_map in Hw as (dy & Hdy & Hw).
    apply in_flat_map in Hw as (dx & Hdx & Hw).
    destruct (Hcell dx dy dz w Hdx Hdy Hdz Hw Hk) as (? & _ & _).
    apply in_range in Hdx. lia.
Qed.
End SplatDensity.

Section SplatClaims.
Local Open Scope Z_scope.

Lemma splat_main_single (M : MathLib R) (n idx : Z) (ps : list (Particle R))
    (p : Particle R) (d : list Z) :
  0 <= idx < n -> ps !! Z.to_nat idx = Some p ->
  DensitySplat.main (DensitySplat.uniforms n) idx ps d
  = fold_left DensitySplat.atomicAdd
      (DensitySplat.splatWrites (DensitySplat.uniforms n) p) d.
Proof.
  intros Hidx Hp. unfold DensitySplat.main.
  change (DensitySplat.particle_count (DensitySplat.uniforms (F := R) n)) with n.
  destruct (Z.leb_spec n idx); [lia |].
  rewrite Hp. reflexivity.
Qed.

(** C3, as the code has it (exact arithmetic).  The invocation that
    splats one particle into the cleared volume leaves at zero every grid
    cell that is more than [ceil(splat_radius) = 2] cells away, along some
    axis, from the cell the particle is in: all the density lies in the
    block of 5 x 5 x 5 cells around that cell, where each cell holds the
    particle's contribution to it. *)
Theorem splat_zero_outside_block (M : MathLib R) (n idx : Z)
    (ps : list (Particle R)) (p : Particle R) (x y z : Z) :
  0 <= idx < n -> ps !! Z.to_nat idx = Some p ->
  0 <= x < 64 -> 0 <= y < 64 -> 0 <= z < 64 ->
  DensitySplat.main (DensitySplat.uniforms n) idx ps DensitySplat.cleared
    !! Z.to_nat (DensitySplat.gridIndex (DensitySplat.uniforms (F := R) n) x y z)
  = Some
      (if in_block
            (i32_of (ffloor (vx (DensitySplat.worldToGrid (DensitySplat.uniforms n) (position p)))))
            (i32_of (ffloor (vy (DensitySplat.worldToGrid (DensitySplat.uniforms n) (position p)))))
            (i32_of (ffloor (vz (DensitySplat.worldToGrid (DensitySplat.uniforms n) (position p)))))
            x y z
       then DensitySplat.contribution (DensitySplat.uniforms n) p
              (DensitySplat.worldToGrid (DensitySplat.uniforms n) (position p)) x y z
       else 0).
Proof.
  intros Hidx Hp Hx Hy Hz.
  rewrite (splat_main_single M n idx ps p _ Hidx Hp).
  rewrite gridIndex_plain by assumption.
  apply splat_density_at; assumption.
Qed.

(** The particle at the centre of cell [(32, 32, 32)]. *)
Lemma centred_grid_position (n : Z) :
  DensitySplat.worldToGrid (DensitySplat.uniforms n) (position centred_particle)
  = V3 (65 / 2)%R (65 / 2)%R (65 / 2)%R.
Proof.
  unfold DensitySplat.worldToGrid, DensitySplat.uniforms, centred_particle.
  cbn [DensitySplat.grid_min DensitySplat.grid_max DensitySplat.grid_res position].
  unfold_vec. f_equal; lra.
Qed.

Lemma centred_cell : i32_of (ffloor (65 / 2)%R) = 32.
Proof.
  unfold i32_of. cbn [ffloor toZ R_arith].
  rewrite R_toZ_IZR.
  replace (Zfloor (65 / 2)) with 32 by (symmetry; apply Zfloor_eq; lra).
  reflexivity.
Qed.

Lemma splat_zero_outside_block_witness :
  DensitySplat.main (DensitySplat.uniforms 1) 0 [centred_particle]
    DensitySplat.cleared
    !! Z.to_nat (DensitySplat.gridIndex (DensitySplat.uniforms (F := R) 1) 35 32 32)
  = Some 0.
Proof.
  rewrite (splat_zero_outside_block R_mathlib 1 0 [centred_particle]
             centred_particle 35 32 32);
    [| lia | reflexivity | lia | lia | lia].
  rewrite centred_grid_position. cbn [vx vy vz].
  rewrite centred_cell. reflexivity.
Defined.

Lemma exp_6_le_729 : (exp 6 <= 729)%R.
Proof.
  pose proof exp_le_3 as H3.
  pose proof (exp_pos 1) as Hp.
  replace 6%R with (1 + 1 + 1 + 1 + 1 + 1)%R by lra.
  rewrite !exp_plus.
  assert (H2 : (exp 1 * exp 1 <= 9)%R) by nra.
  assert (H4 : (exp 1 * exp 1 * exp 1 <= 27)%R) by nra.
  assert (H5 : (exp 1 * exp 1 * exp 1 * exp 1 <= 81)%R) by nra.
  assert (H6 : (exp 1 * exp 1 * exp 1 * exp 1 * exp 1 <= 243)%R) by nra.
  nra.
Qed.

(** C3, as stated.  The particle rests at the centre of cell
    [(32, 32, 32)].  The centre of cell [(34, 34, 34)] is at distance
    [sqrt 12 > 2 = splat_radius] from it, and the cell receives a
    contribution that is not zero: the three loops cover the block of
    5 x 5 x 5 cells with no test on the distance, and the Gaussian weight
    [exp (-6)] times 1500 does not truncate to zero. *)
Lemma splat_nonzero_beyond_radius :
  exists v : Z,
    DensitySplat.main (DensitySplat.uniforms 1) 0 [centred_particle]
      DensitySplat.cleared
      !! Z.to_nat (DensitySplat.gridIndex (DensitySplat.uniforms (F := R) 1) 34 34 34)
    = Some v
    /\ 0 < v
    /\ (DensitySplat.splat_radius (DensitySplat.uniforms (F := R) 1)
        < vlength (vsub (DensitySplat.worldToGrid (DensitySplat.uniforms 1)
                           (position centred_particle))
                        (V3 (34 + 1 / 2) (34 + 1 / 2) (34 + 1 / 2))))%R.
Proof.
  eexists. split; [| split].
  - rewrite (splat_main_single R_mathlib 1 0 [centred_particle]
               centred_particle) by (lia || reflexivity).
    rewrite gridIndex_plain by lia.
    rewrite splat_density_at by lia.
    rewrite centred_grid_position. cbn [vx vy vz].
    rewrite centred_cell. reflexivity.
  - change (in_block 32 32 32 34 34 34) with true. cbv iota.
    unfold DensitySplat.contribution, DensitySplat.uniforms, centred_particle.
    cbn [DensitySplat.splat_radius DensitySplat.splat_strength speed].
    unfold_vec.
    set (d := sqrt _).
    assert (Hd : (d * d = 12)%R).
    { subst d. rewrite sqrt_sqrt by lra. lra. }
    replace ((0 - d) * d / (2 * (2 * (5 / 10)) * (2 * (5 / 10))))%R with (Ropp 6) by lra.
    rewrite exp_Ropp.
    pose proof exp_6_le_729 as H6. pose proof (exp_pos 6) as Hp.
    assert (Hw : (2 <= / exp 6 * (15 / 10) * (1 + 0 * (3 / 10)) * 1000)%R).
    { replace (/ exp 6 * (15 / 10) * (1 + 0 * (3 / 10)) * 1000)%R
        with (1500 / exp 6)%R by (field; lra).
      apply Rmult_le_reg_r with (exp 6); [exact Hp |].
      replace (1500 / exp 6 * exp 6)%R with 1500%R by (field; lra).
      lra. }
    unfold u32_of. cbn [toZ R_arith].
    rewrite R_toZ_nonneg by lra.
    assert (2 <= Zfloor (/ exp 6 * (15 / 10) * (1 + 0 * (3 / 10)) * 1000))
      by (apply Zfloor_lub; exact Hw).
    lia.
  - rewrite centred_grid_position.
    unfold DensitySplat.uniforms. cbn [DensitySplat.splat_radius].
    unfold_vec.
    rewrite <- (sqrt_square 2) at 1 by lra.
    apply sqrt_lt_1_alt. lra.
Qed.
End SplatClaims.

(** * Spring relaxation *)

Section RelaxAlgebra.
Import Relax.
Local Open Scope R_scope.

Lemma dot_comm (a b : vec3 R) : dot a b = dot b a.
Proof. destruct a, b. unfold_vec. ring. Qed.



Lemma dot_vscale_r (a b : vec3 R) (s : R) : dot a (vscale b s) = s * dot a b.
Proof. destruct a, b. unfold_vec. ring. Qed.




Lemma dot_vadd_r (a b c : vec3 R) : dot c (vadd a b) = dot c a + dot c b.
Proof. destruct a, b, c. unfold_vec. ring. Qed.



Lemma norm2_zero : norm2 (V3 0 0 0) = 0.
Proof. unfold_vec. ring. Qed.




(** The clamp. *)
Lemma clamp8_length (a : vec3 R) : vlength (clamp8 a) <= 8.
Proof.
  unfold clamp8. destruct (Rlt_dec 8 (vlength a)) as [Hc | Hc].
  - rewrite clamp_rescale by exact Hc. lra.
  - lra.
Qed.


End RelaxAlgebra.

Section WallPotential.
Import Relax.
Local Open Scope R_scope.






End WallPotential.

Section EnergyDescent.
Import Relax.
Local Open Scope R_scope.








End EnergyDescent.

Section Convergence.
Import Relax.
Local Open Scope R_scope.







End Convergence.

(** * The backends in the ordered state *)

Section OrderedStep.
Import Relax.
Local Open Scope R_scope.

Lemma vec3_eq (a b : vec3 R) :
  vx a = vx b -> vy a = vy b -> vz a = vz b -> a = b.
Proof. destruct a, b. cbn. intros -> -> ->. reflexivity. Qed.




End OrderedStep.

Section OrderedShaderStep.
Import Relax.
Local Open Scope R_scope.

(** With [t_order = 1] the noise force is zero, whatever the hash and
    the library functions give. *)
Lemma shader_noise_ordered (M : MathLib R) (u : PhysicsShader.Uniforms R) (idx : Z) :
  PhysicsShader.t_order u = 1 ->
  PhysicsShader.noise_force u idx = V3 0 0 0.
Proof.
  intros Ht. unfold PhysicsShader.noise_force. rewrite Ht.
  cbv zeta. cbn [fmul fsub ofZ R_arith].
  f_equal; ring.
Qed.



End OrderedShaderStep.

Section OrderedFrames.
Import Relax.
Local Open Scope R_scope.







(** One invocation of [main] changes the record of its index. *)
Lemma main_lookup (M : MathLib R) (u : PhysicsShader.Uniforms R) (j : nat)
    (ps : list (Particle R)) (i : nat) :
  PhysicsShader.main u (Z.of_nat j) ps !! i
  = if (Nat.eqb j i && (Z.of_nat j <? PhysicsShader.particle_count u)%Z)%bool
    then PhysicsShader.stepParticle u (Z.of_nat j) <$> ps !! i
    else ps !! i.
Proof.
  unfold PhysicsShader.main. rewrite Nat2Z.id.
  destruct (Z.leb_spec (PhysicsShader.particle_count u) (Z.of_nat j)) as [Hge | Hlt].
  - destruct (Z.ltb_spec (Z.of_nat j) (PhysicsShader.particle_count u)); [lia |].
    rewrite andb_false_r. reflexivity.
  - destruct (Z.ltb_spec (Z.of_nat j) (PhysicsShader.particle_count u)); [| lia].
    rewrite andb_true_r.
    destruct (Nat.eqb_spec j i) as [-> | Hne].
    + destruct (ps !! i) as [p |] eqn:Hp; [| rewrite Hp; reflexivity].
      rewrite list_lookup_insert_eq by (apply lookup_lt_Some in Hp; exact Hp).
      reflexivity.
    + destruct (ps !! j) as [p |] eqn:Hp; [| reflexivity].
      apply list_lookup_insert_ne. exact Hne.
Qed.

(** The invocations [0 .. k-1], in order. *)
Lemma dispatch_prefix_lookup (M : MathLib R) (u : PhysicsShader.Uniforms R) (k : nat)
    (ps : list (Particle R)) (i : nat) :
  fold_left (fun ps idx => PhysicsShader.main u idx ps)
    (map (fun j => (0 + Z.of_nat j)%Z) (seq 0 k)) ps !! i
  = if ((i <? k)%nat && (Z.of_nat i <? PhysicsShader.particle_count u)%Z)%bool
    then PhysicsShader.stepParticle u (Z.of_nat i) <$> ps !! i
    else ps !! i.
Proof.
  induction k as [| k IH].
  - reflexivity.
  - rewrite seq_S, map_app, fold_left_app. cbn [map fold_left Nat.add].
    rewrite Z.add_0_l, main_lookup, IH.
    destruct (Nat.eqb_spec k i) as [-> | Hne]; cbn [andb].
    + rewrite Nat.ltb_irrefl. cbn [andb].
      destruct (Nat.ltb_spec i (S i)); [| lia]. cbn [andb]. reflexivity.
    + destruct (Nat.ltb_spec i k), (Nat.ltb_spec i (S k)); try lia; reflexivity.
Qed.



End OrderedFrames.

Section LatticeInside.
Import Relax.
Local Open Scope R_scope.

Lemma for_while_invariant_in {S : Type} (P : S -> Prop) (n : Z) (cond : S -> bool)
    (body : Z -> S -> S) (s : S) :
  (forall i s, (0 <= i <= n - 1)%Z -> P s -> P (body i s)) -> P s ->
  P (WebGLFallback.for_while n cond body s).
Proof.
  intros Hbody. unfold WebGLFallback.for_while.
  assert (Hl : forall i, In i (range 0 (n - 1)) -> (0 <= i <= n - 1)%Z)
    by (intros i Hi; apply in_range in Hi; exact Hi).
  revert Hl. generalize (range 0 (n - 1)). intros l. revert s.
  induction l as [| i l IH]; intros s Hl Hs; [exact Hs |].
  cbn [fold_left]. apply IH.
  - intros j Hj. apply Hl. right. exact Hj.
  - destruct (cond s); [| exact Hs].
    apply Hbody; [apply Hl; left; reflexivity | exact Hs].
Qed.

(** A lattice coordinate is within 2.5 of zero. *)
Lemma lattice_coordinate (c : Z) (off : R) :
  (0 <= c <= 6)%Z -> 1 / 2 <= off <= 1 ->
  let x := (IZR c - 7 / 2 + off) * (5 / 7) in x * x <= 25 / 4.
Proof.
  intros Hc Hoff x.
  assert (0 <= IZR c <= 6) by (split; apply IZR_le; lia).
  assert (- (5 / 2) <= x <= 5 / 2) by (subst x; lra).
  nra.
Qed.

Lemma place_home_inside (off : R) (x y z : Z) (s : nat * list (Particle R)) :
  (0 <= x <= 6)%Z -> (0 <= y <= 6)%Z -> (0 <= z <= 6)%Z -> 1 / 2 <= off <= 1 ->
  Forall (fun p => vlength (home_position p) <= radius) (snd s) ->
  Forall (fun p => vlength (home_position p) <= radius)
    (snd (WebGLFallback.place 7 (5 / 7) off x y z s)).
Proof.
  intros Hx Hy Hz Hoff Hs.
  unfold WebGLFallback.place. destruct s as [idx ps].
  destruct (Z.of_nat idx <? WebGLFallback.PARTICLE_COUNT)%Z; [| exact Hs].
  cbn [snd] in *. apply Forall_insert; [exact Hs |].
  cbn [home_position fround fsub fadd fmul fdiv ofZ R_arith].
  pose proof (lattice_coordinate x off Hx Hoff) as Hcx.
  pose proof (lattice_coordinate y off Hy Hoff) as Hcy.
  pose proof (lattice_coordinate z off Hz Hoff) as Hcz.
  cbv zeta in Hcx, Hcy, Hcz.
  apply vlength_le_of_sq; [unfold radius; lra |].
  unfold norm2, dot, radius. cbn [vx vy vz]. lra.
Qed.

(** Every home position of the fallback's lattice lies within the soft
    boundary. *)
Lemma lattice_homes_inside :
  Forall (fun p : Particle R => vlength (home_position p) <= radius)
    WebGLFallback.initParticles.
Proof.
  unfold WebGLFallback.initParticles, WebGLFallback.initLoop.
  change (WebGLFallback.cbrt_ceil (WebGLFallback.PARTICLE_COUNT / 2)) with 7%Z.
  cbv zeta. cbn [fdiv ofZ R_arith].
  apply (for_while_invariant_in
           (fun s : nat * list (Particle R) =>
              Forall (fun p => vlength (home_position p) <= radius) (snd s))).
  - intros z s Hz Hs. apply for_while_invariant_in; [| exact Hs].
    intros y s1 Hy Hs1. apply for_while_invariant_in; [| exact Hs1].
    intros x s2 Hx Hs2.
    unfold dec. cbn [fdiv ofZ R_arith].
    apply place_home_inside; try lia; try lra.
    apply place_home_inside; try lia; try lra.
    exact Hs2.
  - cbn [snd]. apply Forall_replicate.
    cbn [home_position]. unfold vzero. cbn [ofZ R_arith].
    apply vlength_le_of_sq; [unfold radius; lra |].
    unfold norm2, dot, radius. cbn [vx vy vz]. lra.
Qed.
End LatticeInside.

Section RelaxationClaim.
Import Relax.
Local Open Scope R_scope.


End RelaxationClaim.

(** * js/state-machine.js: easing, invariant and timing *)

Section StateMachineMore.
Import StateMachine StateMachineView.
Local Open Scope R_scope.

Lemma R_pow_Z (x : R) (z : Z) : (0 <= z)%Z -> R_pow x (IZR z) = x ^ Z.to_nat z.
Proof.
  intros Hz. unfold R_pow.
  rewrite Zfloor_of_IZR.
  destruct (Req_dec_T (IZR z) (IZR z)); [| contradiction].
  destruct (Rle_dec 0 (IZR z)) as [_ | Hn]; [reflexivity |].
  exfalso. apply Hn. apply IZR_le. exact Hz.
Qed.

Lemma easeOutCubic_R (p : R) :
  easeOutCubic (F := R) p = 1 - (1 - p) * (1 - p) * (1 - p).
Proof.
  unfold easeOutCubic. cbn [fsub ofZ fpow R_arith R_mathlib].
  rewrite R_pow_Z by lia. simpl. ring.
Qed.

Lemma easeInOutQuad_R (p : R) :
  easeInOutQuad (F := R) p
  = if Rlt_dec p (1 / 2) then 2 * p * p else 1 - (2 - 2 * p) * (2 - 2 * p) / 2.
Proof.
  unfold easeInOutQuad, dec. cbn [fsub fadd fmul fdiv fltb ofZ fpow R_arith R_mathlib].
  destruct (Rlt_dec p (5 / 10)), (Rlt_dec p (1 / 2)); try lra.
  rewrite R_pow_Z by lia. simpl. lra.
Qed.

Lemma sq_mono (a b : R) : 0 <= a -> a <= b -> a * a <= b * b.
Proof. intros Ha Hab. apply Rmult_le_compat; lra. Qed.

Lemma cube_mono (a b : R) : 0 <= a -> a <= b -> a * a * a <= b * b * b.
Proof.
  intros Ha Hab. pose proof (sq_mono a b Ha Hab).
  apply Rmult_le_compat; try lra. apply Rmult_le_pos; lra.
Qed.

Lemma easing_facts (p q : R) :
  0 <= p -> p <= q -> q <= 1 ->
  (easeOutCubic (F := R) 0 = 0 /\ easeOutCubic (F := R) 1 = 1
   /\ 0 <= easeOutCubic p /\ easeOutCubic p <= easeOutCubic q /\ easeOutCubic q <= 1)
  /\ (easeInOutQuad (F := R) 0 = 0 /\ easeInOutQuad (F := R) (1 / 2) = 1 / 2
      /\ easeInOutQuad (F := R) 1 = 1
      /\ 0 <= easeInOutQuad p /\ easeInOutQuad p <= easeInOutQuad q
      /\ easeInOutQuad q <= 1).
Proof.
  intros Hp Hpq Hq.
  split.
  - rewrite !easeOutCubic_R.
    pose proof (cube_mono (1 - q) (1 - p) ltac:(lra) ltac:(lra)) as H1.
    pose proof (cube_mono (1 - p) 1 ltac:(lra) ltac:(lra)) as H2.
    pose proof (cube_mono 0 (1 - q) ltac:(lra) ltac:(lra)) as H3.
    repeat split; lra.
  - rewrite !easeInOutQuad_R.
    destruct (Rlt_dec 0 (1 / 2)); [| lra].
    destruct (Rlt_dec (1 / 2) (1 / 2)); [lra |].
    destruct (Rlt_dec 1 (1 / 2)); [lra |].
    pose proof (sq_mono p q Hp Hpq) as Hs1.
    pose proof (sq_mono 0 p ltac:(lra) Hp) as Hs2.
    pose proof (sq_mono (2 - 2 * q) (2 - 2 * p) ltac:(lra) ltac:(lra)) as Hs3.
    pose proof (sq_mono 0 (2 - 2 * q) ltac:(lra) ltac:(lra)) as Hs4.
    destruct (Rlt_dec p (1 / 2)) as [Hp2 | Hp2], (Rlt_dec q (1 / 2)) as [Hq2 | Hq2];
      try (pose proof (sq_mono p (1 / 2) Hp ltac:(lra)));
      try (pose proof (sq_mono q (1 / 2) ltac:(lra) ltac:(lra)));
      try (pose proof (sq_mono (2 - 2 * q) 1 ltac:(lra) ltac:(lra)));
      try (pose proof (sq_mono (2 - 2 * p) 1 ltac:(lra) ltac:(lra)));
      repeat split; lra.
Qed.

(** X1. Both easing curves fix 0 and 1, the quadratic one also 1/2; in
    exact arithmetic they map [[0, 1]] into [[0, 1]] and never decrease on
    it. *)
Theorem easing_curves (p q : R) :
  0 <= p -> p <= q -> q <= 1 ->
  (easeOutCubic (F := R) 0 = 0 /\ easeOutCubic (F := R) 1 = 1
   /\ 0 <= easeOutCubic p /\ easeOutCubic p <= easeOutCubic q /\ easeOutCubic q <= 1)
  /\ (easeInOutQuad (F := R) 0 = 0 /\ easeInOutQuad (F := R) (1 / 2) = 1 / 2
      /\ easeInOutQuad (F := R) 1 = 1
      /\ 0 <= easeInOutQuad p /\ easeInOutQuad p <= easeInOutQuad q
      /\ easeInOutQuad q <= 1).
Proof. exact (easing_facts p q). Qed.

Lemma easing_curves_witness :
  (easeOutCubic (F := R) 0 = 0 /\ easeOutCubic (F := R) 1 = 1
   /\ 0 <= easeOutCubic (1 / 4) /\ easeOutCubic (1 / 4) <= easeOutCubic (3 / 4)
   /\ easeOutCubic (3 / 4) <= 1)
  /\ (easeInOutQuad (F := R) 0 = 0 /\ easeInOutQuad (F := R) (1 / 2) = 1 / 2
      /\ easeInOutQuad (F := R) 1 = 1
      /\ 0 <= easeInOutQuad (1 / 4) /\ easeInOutQuad (1 / 4) <= easeInOutQuad (3 / 4)
      /\ easeInOutQuad (3 / 4) <= 1).
Proof. apply (easing_curves (1 / 4) (3 / 4)); lra. Defined.

Lemma fleb_R (a b : R) : fleb a b = true <-> a <= b.
Proof.
  cbn [fleb R_arith]. destruct (Rle_dec a b); split; intros; try lra; try discriminate; auto.
Qed.

(** One frame during a transition, in exact arithmetic. *)
Lemma update_shattering (dt : R) (m : StateMachine.t R) :
  state m = SHATTERING -> 0 < transitionDuration m ->
  update dt m
  = if Rle_dec (transitionDuration m) (elapsed m + dt)
    then mk CHAOS 0 1 (transitionDuration m) (elapsed m + dt)
    else mk SHATTERING
           (1 - easeOutCubic ((elapsed m + dt) / transitionDuration m))
           ((elapsed m + dt) / transitionDuration m)
           (transitionDuration m) (elapsed m + dt).
Proof.
  intros Hs Hd. unfold update. rewrite Hs. unfold fgeb.
  cbn [fadd fdiv fmin fleb fsub ofZ R_arith].
  set (e := elapsed m + dt). set (d := transitionDuration m) in *.
  destruct (Rle_dec d e) as [Hle | Hlt].
  - assert (1 <= e / d).
    { apply Rmult_le_reg_r with d; [lra |].
      replace (e / d * d) with e by (field; lra). lra. }
    rewrite Rmin_right by lra.
    destruct (Rle_dec 1 1); [reflexivity | lra].
  - assert (e / d < 1).
    { apply Rmult_lt_reg_r with d; [lra |].
      replace (e / d * d) with e by (field; lra). lra. }
    rewrite Rmin_left by lra.
    destruct (Rle_dec 1 (e / d)); [lra | reflexivity].
Qed.

Lemma update_reassembling (dt : R) (m : StateMachine.t R) :
  state m = REASSEMBLING -> 0 < transitionDuration m ->
  update dt m
  = if Rle_dec (transitionDuration m) (elapsed m + dt)
    then mk ORDERED 1 1 (transitionDuration m) (elapsed m + dt)
    else mk REASSEMBLING
           (easeInOutQuad ((elapsed m + dt) / transitionDuration m))
           ((elapsed m + dt) / transitionDuration m)
           (transitionDuration m) (elapsed m + dt).
Proof.
  intros Hs Hd. unfold update. rewrite Hs. unfold fgeb.
  cbn [fadd fdiv fmin fleb fsub ofZ R_arith].
  set (e := elapsed m + dt). set (d := transitionDuration m) in *.
  destruct (Rle_dec d e) as [Hle | Hlt].
  - assert (1 <= e / d).
    { apply Rmult_le_reg_r with d; [lra |].
      replace (e / d * d) with e by (field; lra). lra. }
    rewrite Rmin_right by lra.
    destruct (Rle_dec 1 1); [reflexivity | lra].
  - assert (e / d < 1).
    { apply Rmult_lt_reg_r with d; [lra |].
      replace (e / d * d) with e by (field; lra). lra. }
    rewrite Rmin_left by lra.
    destruct (Rle_dec 1 (e / d)); [lra | reflexivity].
Qed.

Lemma ratio_unit (e d : R) : 0 <= e -> e < d -> 0 <= e / d <= 1.
Proof.
  intros He Hd. split.
  - apply Rmult_le_reg_r with d; [lra |].
    replace (e / d * d) with e by (field; lra). lra.
  - apply Rmult_le_reg_r with d; [lra |].
    replace (e / d * d) with e by (field; lra). lra.
Qed.

Lemma consistent_step (m : StateMachine.t R) (e : event R) :
  forward e -> StateMachine_consistent m -> StateMachine_consistent (apply_event m e).
Proof.
  intros He Hm. destruct e as [| dt]; cbn [apply_event].
  - unfold StateMachine_consistent in Hm.
    destruct (state m) eqn:Hs; unfold click, StateMachine_consistent; rewrite Hs;
      cbn [state tOrder elapsed transitionDuration]; rewrite ?Hs;
      unfold dec; cbn [ofZ fdiv R_arith]; repeat split; lra.
  - cbn [forward] in He. apply fleb_R in He. cbn [ofZ R_arith] in He.
    unfold StateMachine_consistent in Hm.
    destruct (state m) eqn:Hs.
    + unfold update. rewrite Hs. unfold StateMachine_consistent. rewrite Hs. exact Hm.
    + destruct Hm as (Ht & Hel & Hd).
      rewrite (update_shattering dt m Hs Hd).
      destruct (Rle_dec _ _) as [Hle | Hlt]; unfold StateMachine_consistent;
        cbn [state tOrder elapsed transitionDuration]; [reflexivity |].
      pose proof (ratio_unit (elapsed m + dt) (transitionDuration m)
                    ltac:(lra) ltac:(lra)) as Hr.
      pose proof (easing_facts _ _ (proj1 Hr) (Rle_refl _) (proj2 Hr))
        as ((_ & _ & H0 & _ & H1) & _).
      repeat split; lra.
    + unfold update. rewrite Hs. unfold StateMachine_consistent. rewrite Hs. exact Hm.
    + destruct Hm as (Ht & Hel & Hd).
      rewrite (update_reassembling dt m Hs Hd).
      destruct (Rle_dec _ _) as [Hle | Hlt]; unfold StateMachine_consistent;
        cbn [state tOrder elapsed transitionDuration]; [reflexivity |].
      pose proof (ratio_unit (elapsed m + dt) (transitionDuration m)
                    ltac:(lra) ltac:(lra)) as Hr.
      pose proof (easing_facts _ _ (proj1 Hr) (Rle_refl _) (proj2 Hr))
        as (_ & (_ & _ & _ & H0 & _ & H1)).
      repeat split; lra.
Qed.

(** X2. Whatever clicks and frames of non-negative duration the machine
    receives after its construction, in exact arithmetic: [tOrder] stays in
    [[0, 1]], it is 1 whenever the state is ORDERED and 0 whenever the state
    is CHAOS. *)
Theorem tOrder_stays_in_unit_interval (es : list (event R)) :
  Forall forward es ->
  0 <= tOrder (run es constructor) <= 1
  /\ (state (run es constructor) = ORDERED -> tOrder (run es constructor) = 1)
  /\ (state (run es constructor) = CHAOS -> tOrder (run es constructor) = 0).
Proof.
  intros Hes.
  assert (Hc : StateMachine_consistent (run es constructor)).
  { unfold run.
    assert (H0 : StateMachine_consistent (constructor (F := R)))
      by (unfold StateMachine_consistent; reflexivity).
    revert H0. generalize (constructor (F := R)).
    induction Hes as [| e es He Hes IH]; intros m Hm; [exact Hm |].
    cbn [fold_left]. apply IH. apply consistent_step; assumption. }
  unfold StateMachine_consistent in Hc.
  destruct (state (run es constructor)); repeat split; try lra; try discriminate;
    try (intros _; exact Hc).
Qed.

Lemma tOrder_stays_in_unit_interval_witness :
  0 <= tOrder (run [Click; Update (1 / 2); Click; Update 1; Update 1] constructor) <= 1
  /\ (state (run [Click; Update (1 / 2); Click; Update 1; Update 1] constructor) = ORDERED ->
      tOrder (run [Click; Update (1 / 2); Click; Update 1; Update 1] constructor) = 1)
  /\ (state (run [Click; Update (1 / 2); Click; Update 1; Update 1] constructor) = CHAOS ->
      tOrder (run [Click; Update (1 / 2); Click; Update 1; Update 1] constructor) = 0).
Proof.
  apply (tOrder_stays_in_unit_interval
           [Click; Update (1 / 2); Click; Update 1; Update 1]).
  repeat constructor; cbn [forward]; apply fleb_R; cbn; lra.
Defined.




End StateMachineMore.
(** * js/entropy-calculator.js: bounds, extremes and smoothing *)

Section EntropyMore.
Import EntropyCalculator.
Local Open Scope R_scope.

(** The summand of the entropy loop. *)
Lemma total_R_from (l : list Z) (a : R) :
  fold_left (fun t h => t + IZR h) l a = a + IZR (sumZ l).
Proof.
  revert a. induction l as [| h l IH]; intros a; cbn [fold_left].
  - cbn. lra.
  - rewrite IH, sumZ_cons, plus_IZR. lra.
Qed.

Lemma total_R (l : list Z) : total (F := R) l = IZR (sumZ l).
Proof.
  unfold total. cbn [fadd ofZ R_arith].
  rewrite total_R_from. lra.
Qed.

Lemma shannon_R_from (T : R) (l : list Z) (a : R) :
  fold_left
    (fun H h => if (0 <? h)%Z then H - IZR h / T * (ln (IZR h / T) / ln 2) else H) l a
  = a - fold_right Rplus 0
          (map (fun h => if (0 <? h)%Z then IZR h / T * (ln (IZR h / T) / ln 2) else 0) l).
Proof.
  revert a. induction l as [| h l IH]; intros a; cbn [fold_left map fold_right].
  - lra.
  - rewrite IH. destruct (0 <? h)%Z; lra.
Qed.

Lemma shannon_R (T : R) (l : list Z) :
  shannon (F := R) T l
  = - fold_right Rplus 0
        (map (fun h => if (0 <? h)%Z then IZR h / T * (ln (IZR h / T) / ln 2) else 0) l).
Proof.
  unfold shannon. cbn [fadd fsub fmul fdiv ofZ flog2 R_arith R_mathlib].
  rewrite shannon_R_from. lra.
Qed.

Lemma div_nonneg (a b : R) : 0 <= a -> 0 < b -> 0 <= a / b.
Proof.
  intros Ha Hb. apply Rmult_le_pos; [exact Ha |].
  left. apply Rinv_0_lt_compat. exact Hb.
Qed.

Lemma ln_le_pred (y : R) : 0 < y -> ln y <= y - 1.
Proof.
  intros Hy. destruct (Rle_dec (ln y) (y - 1)) as [H | H]; [exact H |].
  exfalso. apply Rnot_le_lt in H.
  apply exp_increasing in H. rewrite exp_ln in H by exact Hy.
  pose proof (exp_ineq1_le (y - 1)). lra.
Qed.

Lemma ln_nonpos (y : R) : 0 < y -> y <= 1 -> ln y <= 0.
Proof. intros H0 H1. pose proof (ln_le_pred y H0). lra. Qed.

Lemma ln_2_pos : 0 < ln 2.
Proof. rewrite <- ln_1. apply ln_increasing; lra. Qed.

(** Gibbs' inequality, one bin at a time. *)
Lemma bin_term_le (p N : R) :
  0 < p -> 0 < N -> - (p * ln p) <= p * ln N + / N - p.
Proof.
  intros Hp HN.
  assert (Hq : 0 < / (N * p)) by (apply Rinv_0_lt_compat, Rmult_lt_0_compat; lra).
  pose proof (ln_le_pred _ Hq) as H.
  rewrite ln_Rinv in H by (apply Rmult_lt_0_compat; lra).
  rewrite ln_mult in H by lra.
  assert (Hm : p * (- (ln N + ln p)) <= p * (/ (N * p) - 1))
    by (apply Rmult_le_compat_l; lra).
  replace (p * (/ (N * p) - 1)) with (/ N - p) in Hm by (field; lra).
  lra.
Qed.

Lemma plogp_upper (T N : R) (l : list Z) :
  0 < T -> 0 < N -> Forall (fun h => (0 <= h)%Z) l ->
  - fold_right Rplus 0
      (map (fun h => if (0 <? h)%Z then IZR h / T * ln (IZR h / T) else 0) l)
  <= IZR (sumZ l) / T * ln N + INR (List.length l) / N - IZR (sumZ l) / T.
Proof.
  intros HT HN Hl. induction Hl as [| h l Hh Hl IH].
  - cbn. lra.
  - cbn [map fold_right]. rewrite sumZ_cons, plus_IZR.
    change (List.length (h :: l)) with (S (List.length l)). rewrite S_INR.
    assert (HiN : 0 < / N) by (apply Rinv_0_lt_compat; lra).
    destruct (0 <? h)%Z eqn:Hpos.
    + apply Z.ltb_lt in Hpos. apply IZR_lt in Hpos.
      assert (Hp : 0 < IZR h / T) by (apply Rdiv_lt_0_compat; lra).
      pose proof (bin_term_le _ N Hp HN).
      unfold Rdiv in *. lra.
    + apply Z.ltb_ge in Hpos. assert (h = 0%Z) by lia. subst h.
      unfold Rdiv in *. lra.
Qed.

Lemma plogp_lower (T : R) (l : list Z) :
  0 < T -> Forall (fun h => (0 <= h)%Z /\ IZR h <= T) l ->
  0 <= - fold_right Rplus 0
           (map (fun h => if (0 <? h)%Z then IZR h / T * ln (IZR h / T) else 0) l).
Proof.
  intros HT Hl. induction Hl as [| h l [Hh HhT] Hl IH].
  - cbn. lra.
  - cbn [map fold_right].
    destruct (0 <? h)%Z eqn:Hpos; [| lra].
    apply Z.ltb_lt in Hpos. apply IZR_lt in Hpos.
    assert (Hp : 0 < IZR h / T) by (apply Rdiv_lt_0_compat; lra).
    assert (Hp1 : IZR h / T <= 1).
    { apply Rmult_le_reg_r with T; [lra |].
      replace (IZR h / T * T) with (IZR h) by (field; lra). lra. }
    pose proof (ln_nonpos _ Hp Hp1) as Hln.
    assert (0 <= IZR h / T * - ln (IZR h / T)) by (apply Rmult_le_pos; lra).
    lra.
Qed.

Lemma entries_le_sumZ (l : list Z) :
  Forall (fun h => (0 <= h)%Z) l -> Forall (fun h => (0 <= h)%Z /\ (h <= sumZ l)%Z) l.
Proof.
  induction 1 as [| h l Hh Hl IH]; constructor.
  - cbv beta. rewrite sumZ_cons. pose proof (sumZ_nonneg l Hl). lia.
  - eapply Forall_impl; [exact IH |]. cbv beta. intros a [H0 H1].
    rewrite sumZ_cons. lia.
Qed.

Lemma scale_terms (T : R) (l : list Z) :
  fold_right Rplus 0
    (map (fun h => if (0 <? h)%Z then IZR h / T * (ln (IZR h / T) / ln 2) else 0) l)
  = fold_right Rplus 0
      (map (fun h => if (0 <? h)%Z then IZR h / T * ln (IZR h / T) else 0) l) / ln 2.
Proof.
  pose proof ln_2_pos.
  induction l as [| h l IH]; cbn [map fold_right].
  - unfold Rdiv. ring.
  - rewrite IH. destruct (0 <? h)%Z; unfold Rdiv; ring.
Qed.

(** The entropy of a histogram with a particle in it. *)
Lemma shannon_bounds (hist : list Z) (N : R) :
  Forall (fun h => (0 <= h)%Z) hist -> (0 < sumZ hist)%Z ->
  1 <= N -> INR (List.length hist) <= N ->
  0 <= shannon (F := R) (IZR (sumZ hist)) hist <= ln N / ln 2.
Proof.
  intros Hl HT HN Hlen. pose proof ln_2_pos as H2.
  apply IZR_lt in HT.
  rewrite shannon_R, scale_terms.
  set (S := fold_right Rplus 0 _).
  assert (Hup : - S <= ln N).
  { pose proof (plogp_upper (IZR (sumZ hist)) N hist HT ltac:(lra) Hl) as Hu.
    fold S in Hu.
    replace (IZR (sumZ hist) / IZR (sumZ hist)) with 1 in Hu by (field; lra).
    assert (INR (List.length hist) / N <= 1).
    { apply Rmult_le_reg_r with N; [lra |].
      replace (INR (List.length hist) / N * N) with (INR (List.length hist))
        by (field; lra). lra. }
    lra. }
  assert (Hlo : 0 <= - S).
  { apply plogp_lower; [exact HT |].
    eapply Forall_impl; [apply entries_le_sumZ; exact Hl |].
    cbn. intros a [H0 H1]. split; [exact H0 | apply IZR_le; exact H1]. }
  replace (- (S / ln 2)) with (- S / ln 2) by (field; lra).
  split.
  - apply div_nonneg; lra.
  - apply Rmult_le_reg_r with (ln 2); [lra |].
    replace (- S / ln 2 * ln 2) with (- S) by (field; lra).
    replace (ln N / ln 2 * ln 2) with (ln N) by (field; lra). exact Hup.
Qed.

Lemma compute_R (hist : list Z) (e : EntropyCalculator.t R) :
  snd (compute hist e)
  = if Z.eq_dec (sumZ hist) 0%Z then (0, 0)
    else (shannon (IZR (sumZ hist)) hist,
          shannon (IZR (sumZ hist)) hist / maxEntropy e).
Proof.
  unfold compute. rewrite total_R. cbn [feqb fdiv ofZ R_arith].
  destruct (Req_dec_T (IZR (sumZ hist)) 0) as [H0 | H0], (Z.eq_dec (sumZ hist) 0%Z) as [Hz | Hz];
    try reflexivity.
  - apply eq_IZR in H0. contradiction.
  - rewrite Hz in H0. contradiction.
Qed.

(** X4. In exact arithmetic, for a histogram of counts that has no more
    bins than the calculator was built for (at least two), [compute]
    returns an entropy between 0 and [maxEntropy = log2 numBins], and a
    normalized entropy between 0 and 1. *)
Theorem entropy_within_bounds (hist : list Z) (n : Z) :
  (2 <= n)%Z -> (Z.of_nat (List.length hist) <= n)%Z ->
  Forall (fun h => (0 <= h)%Z) hist ->
  0 <= fst (snd (compute hist (constructor n))) <= maxEntropy (constructor (F := R) n)
  /\ 0 <= snd (snd (compute hist (constructor n))) <= 1.
Proof.
  intros Hn Hlen Hl. rewrite compute_R.
  cbn [maxEntropy constructor flog2 ofZ R_arith R_mathlib].
  pose proof ln_2_pos as H2.
  assert (HN : 2 <= IZR n) by (apply IZR_le; exact Hn).
  assert (Hln : ln 2 <= ln (IZR n)).
  { destruct (Req_dec_T (IZR n) 2) as [-> | Hne]; [lra |].
    left. apply ln_increasing; lra. }
  assert (Hmax : 1 <= ln (IZR n) / ln 2).
  { apply Rmult_le_reg_r with (ln 2); [lra |].
    replace (ln (IZR n) / ln 2 * ln 2) with (ln (IZR n)) by (field; lra). lra. }
  destruct (Z.eq_dec (sumZ hist) 0%Z) as [Hz | Hz]; cbn [fst snd].
  - lra.
  - pose proof (sumZ_nonneg hist Hl) as Hs.
    assert (Hlen' : INR (List.length hist) <= IZR n).
    { rewrite INR_IZR_INZ. apply IZR_le. exact Hlen. }
    pose proof (shannon_bounds hist (IZR n) Hl ltac:(lia) ltac:(lra) Hlen') as [Ha Hb].
    split; [split; assumption |].
    split.
    + apply div_nonneg; lra.
    + apply Rmult_le_reg_r with (ln (IZR n) / ln 2); [lra |].
      replace (shannon (IZR (sumZ hist)) hist / (ln (IZR n) / ln 2) * (ln (IZR n) / ln 2))
        with (shannon (IZR (sumZ hist)) hist) by (field; lra).
      lra.
Qed.

Lemma entropy_within_bounds_witness :
  0 <= fst (snd (compute [3; 0; 1; 4]%Z (constructor 4)))
    <= maxEntropy (constructor (F := R) 4)
  /\ 0 <= snd (snd (compute [3; 0; 1; 4]%Z (constructor 4))) <= 1.
Proof.
  apply (entropy_within_bounds [3; 0; 1; 4]%Z 4).
  - lia.
  - cbn. lia.
  - repeat constructor; lia.
Defined.

Lemma sumZ_replicate (k : nat) (c : Z) : sumZ (replicate k c) = (Z.of_nat k * c)%Z.
Proof.
  induction k as [| k IH]; [reflexivity |].
  cbn [replicate]. rewrite sumZ_cons, IH. lia.
Qed.

Lemma sumZ_app (l1 l2 : list Z) : sumZ (l1 ++ l2) = (sumZ l1 + sumZ l2)%Z.
Proof.
  induction l1 as [| a l1 IH]; [reflexivity |].
  cbn [app]. rewrite !sumZ_cons, IH. lia.
Qed.

Lemma fold_terms_replicate (k : nat) (x : R) (f : Z -> R) (c : Z) :
  f c = x -> fold_right Rplus 0 (map f (replicate k c)) = INR k * x.
Proof.
  intros <-. induction k as [| k IH].
  - cbn. lra.
  - cbn [replicate map fold_right]. rewrite IH, S_INR. lra.
Qed.

Lemma fold_terms_app (f : Z -> R) (l1 l2 : list Z) :
  fold_right Rplus 0 (map f (l1 ++ l2))
  = fold_right Rplus 0 (map f l1) + fold_right Rplus 0 (map f l2).
Proof.
  induction l1 as [| a l1 IH]; cbn [app map fold_right]; [lra |].
  rewrite IH. lra.
Qed.

Lemma single_bin_entropy (e : EntropyCalculator.t R) (c : Z) (before after : nat) :
  (0 < c)%Z ->
  snd (compute (replicate before 0%Z ++ c :: replicate after 0%Z) e) = (0, 0).
Proof.
  intros Hc. pose proof ln_2_pos as H2.
  assert (HcR : 0 < IZR c) by (apply IZR_lt; exact Hc).
  rewrite compute_R.
  rewrite sumZ_app, sumZ_cons, !sumZ_replicate_0.
  replace (0 + (c + 0))%Z with c by lia.
  destruct (Z.eq_dec c 0%Z) as [Hz | _]; [lia |].
  assert (Hsh : shannon (F := R) (IZR c)
                  (replicate before 0%Z ++ c :: replicate after 0%Z) = 0).
  { rewrite shannon_R, fold_terms_app. cbn [map fold_right].
    rewrite !(fold_terms_replicate _ 0) by reflexivity.
    destruct (0 <? c)%Z eqn:Hpos; [| apply Z.ltb_ge in Hpos; lia].
    replace (IZR c / IZR c) with 1 by (field; lra).
    rewrite ln_1. unfold Rdiv. ring. }
  rewrite Hsh. f_equal. unfold Rdiv. ring.
Qed.

(** X5. The two extremes of the entropy, in exact arithmetic: a histogram
    whose particles all fall in one bin has entropy 0 and normalized entropy
    0; a histogram with the same positive count in each of the [numBins]
    bins has entropy [log2 numBins] and normalized entropy 1. *)
Theorem entropy_extremes (n c : Z) (before after : nat) :
  (2 <= n)%Z -> (0 < c)%Z ->
  snd (compute (replicate before 0%Z ++ c :: replicate after 0%Z) (constructor n))
  = (0, 0)
  /\ snd (compute (replicate (Z.to_nat n) c) (constructor n))
     = (maxEntropy (constructor (F := R) n), 1).
Proof.
  intros Hn Hc. pose proof ln_2_pos as H2.
  assert (HcR : 0 < IZR c) by (apply IZR_lt; exact Hc).
  assert (HN : 2 <= IZR n) by (apply IZR_le; exact Hn).
  split; [apply single_bin_entropy; exact Hc |].
  rewrite compute_R.
  rewrite sumZ_replicate, Z2Nat.id by lia.
  destruct (Z.eq_dec (n * c)%Z 0%Z) as [Hz | _]; [nia |].
  cbn [maxEntropy constructor flog2 ofZ R_arith R_mathlib].
  assert (Hln : 0 < ln (IZR n)).
  { rewrite <- ln_1. apply ln_increasing; lra. }
  assert (Hsh : shannon (F := R) (IZR (n * c)%Z) (replicate (Z.to_nat n) c)
                = ln (IZR n) / ln 2).
  { rewrite shannon_R.
    rewrite (fold_terms_replicate _ (/ IZR n * (- ln (IZR n) / ln 2))).
    - rewrite INR_IZR_INZ, Z2Nat.id by lia. field. lra.
    - destruct (0 <? c)%Z eqn:Hpos; [| apply Z.ltb_ge in Hpos; lia].
      rewrite mult_IZR.
      replace (IZR c / (IZR n * IZR c)) with (/ IZR n) by (field; lra).
      rewrite ln_Rinv by lra. reflexivity. }
  rewrite Hsh. f_equal. field. lra.
Qed.

Lemma entropy_extremes_witness :
  snd (compute (replicate 2 0%Z ++ 7%Z :: replicate 1 0%Z) (constructor 4))
  = (0, 0)
  /\ snd (compute (replicate (Z.to_nat 4) 7%Z) (constructor 4))
     = (maxEntropy (constructor (F := R) 4), 1).
Proof. apply (entropy_extremes 4 7 2 1); lia. Defined.

Lemma updateDisplay_gap (dts : list R) (e : EntropyCalculator.t R) :
  let e' := fold_left (fun e dt => updateDisplay dt e) dts e in
  normalizedEntropy e' = normalizedEntropy e
  /\ smoothing e' = smoothing e
  /\ displayEntropy e' - normalizedEntropy e
     = (1 - smoothing e) ^ List.length dts * (displayEntropy e - normalizedEntropy e).
Proof.
  cbv zeta. revert e. induction dts as [| dt dts IH]; intros e.
  - cbn. repeat split; lra.
  - cbn [fold_left]. destruct (IH (updateDisplay dt e)) as (Hn & Hs & Hd).
    rewrite Hn, Hs. change (List.length (dt :: dts)) with (S (List.length dts)).
    cbn [pow].
    unfold updateDisplay in Hd |- *.
    cbn [normalizedEntropy smoothing displayEntropy fadd fsub fmul R_arith] in Hd |- *.
    repeat split. lra.
Qed.

Lemma compute_keeps (hist : list Z) (e : EntropyCalculator.t R) :
  normalizedEntropy (fst (compute hist e)) = snd (snd (compute hist e))
  /\ displayEntropy (fst (compute hist e)) = displayEntropy e
  /\ smoothing (fst (compute hist e)) = smoothing e.
Proof.
  unfold compute. destruct (feqb _ _); cbn; repeat split.
Qed.

(** X6. The displayed entropy is an exponential smoothing that ignores the
    frame time: in exact arithmetic, after [compute] on a fresh calculator
    and then any [k] calls of [updateDisplay], whatever their [dt], it is
    the normalized entropy times [1 - 0.88^k]. *)
Theorem display_after_frames (hist : list Z) (n : Z) (dts : list R) :
  displayEntropy
    (fold_left (fun e dt => updateDisplay dt e) dts (fst (compute hist (constructor n))))
  = snd (snd (compute hist (constructor n))) * (1 - (88 / 100) ^ List.length dts).
Proof.
  pose proof (updateDisplay_gap dts (fst (compute hist (constructor n)))) as H.
  cbv zeta in H. destruct H as (_ & _ & Hd).
  destruct (compute_keeps hist (constructor (F := R) n)) as (Hn & Hd0 & Hs).
  rewrite Hn, Hd0, Hs in Hd.
  cbn [displayEntropy smoothing constructor] in Hd.
  unfold dec in Hd. cbn [ofZ fdiv R_arith] in Hd.
  replace (1 - 12 / 100) with (88 / 100) in Hd by lra.
  lra.
Qed.
End EntropyMore.
(** * js/webgl-fallback.js: what a physics step keeps *)

Section FallbackGeneric.
Context {F : Type} `{Arith F}.
Import WebGLFallback.

Lemma stepParticle_home (dt tOrder damping : F) (seed : Z) (p : Particle F) :
  home_position (snd (stepParticle dt tOrder damping seed p)) = home_position p.
Proof.
  unfold stepParticle, integrateVelocity.
  destruct (rand seed) as [s1 r1]. destruct (rand s1) as [s2 r2].
  destruct (rand s2) as [s3 r3]. cbn [snd].
  unfold softBoundary, integratePosition. cbn [position velocity home_position].
  destruct (fgtb _ _); reflexivity.
Qed.

Lemma stepParticles_homes (dt tOrder damping : F) (seed : Z) (ps : list (Particle F)) :
  map home_position (stepParticles dt tOrder damping seed ps) = map home_position ps.
Proof.
  revert seed. induction ps as [| p ps IH]; intros seed; [reflexivity |].
  cbn [stepParticles].
  pose proof (stepParticle_home dt tOrder damping seed p) as Hh.
  destruct (stepParticle dt tOrder damping seed p) as [seed' p'].
  cbn [map snd] in *. rewrite Hh, IH. reflexivity.
Qed.

Lemma updatePhysics_frame (dt tOrder time : F) (r : WebGLFallback.t F) :
  map home_position (particles (updatePhysics dt tOrder time r))
  = map home_position (particles r).
Proof. unfold updatePhysics. cbn [particles]. apply stepParticles_homes. Qed.

(** X7. In any arithmetic, the frames of the fallback leave the number of
    particles and every particle's home position as they were, whatever
    the time steps, the order parameters and the clock readings. *)
Theorem fallback_keeps_homes (frames : list (F * F * F)) (r : WebGLFallback.t F) :
  map home_position
    (particles
       (fold_left (fun r f => updatePhysics (fst (fst f)) (snd (fst f)) (snd f) r)
          frames r))
  = map home_position (particles r)
  /\ List.length
       (particles
          (fold_left (fun r f => updatePhysics (fst (fst f)) (snd (fst f)) (snd f) r)
             frames r))
     = List.length (particles r).
Proof.
  assert (Hm : map home_position
                 (particles
                    (fold_left
                       (fun r f => updatePhysics (fst (fst f)) (snd (fst f)) (snd f) r)
                       frames r))
               = map home_position (particles r)).
  { revert r. induction frames as [| f frames IH]; intros r; [reflexivity |].
    cbn [fold_left]. rewrite IH. apply updatePhysics_frame. }
  split; [exact Hm |].
  rewrite <- (length_map home_position), Hm. apply length_map.
Qed.

Lemma sumZ_alter_le (l : list Z) (k : nat) :
  Forall (fun x => (0 <= x)%Z) l ->
  Forall (fun x => (0 <= x)%Z) (alter (add_u32 1) k l)
  /\ (sumZ (alter (add_u32 1) k l) <= sumZ l + 1)%Z.
Proof.
  intros Hl. revert k. induction Hl as [| a l Ha Hl IH]; intros k.
  - change (alter (add_u32 1) k []) with (@nil Z).
    split; [constructor | cbn; lia].
  - destruct k as [| k].
    + change (alter (add_u32 1) 0%nat (a :: l)) with (add_u32 1 a :: l).
      assert (Hb : (0 <= add_u32 1 a <= a + 1)%Z).
      { unfold add_u32. split; [apply Z.mod_pos_bound; lia |].
        apply Z.mod_le; lia. }
      split; [constructor; [lia | exact Hl] |].
      rewrite !sumZ_cons. lia.
    + change (alter (add_u32 1) (S k) (a :: l)) with (a :: alter (add_u32 1) k l).
      destruct (IH k) as [IH1 IH2].
      split; [constructor; assumption |].
      rewrite !sumZ_cons. lia.
Qed.

Lemma incr_never_overcounts (bin : F) (hist : list Z) :
  Forall (fun x => (0 <= x)%Z) hist ->
  List.length (incr bin hist) = List.length hist
  /\ Forall (fun x => (0 <= x)%Z) (incr bin hist)
  /\ (sumZ (incr bin hist) <= sumZ hist + 1)%Z.
Proof.
  intros Hl. unfold incr.
  destruct (array_index bin) as [k |]; [| repeat split; [exact Hl | lia]].
  destruct (0 <=? k)%Z; [| repeat split; [exact Hl | lia]].
  destruct (sumZ_alter_le hist (Z.to_nat k) Hl) as [H1 H2].
  repeat split; [apply length_alter | exact H1 | exact H2].
Qed.

Lemma buildHistogram_from (ps : list (Particle F)) (hist : list Z) :
  Forall (fun x => (0 <= x)%Z) hist ->
  let hist' := fold_left (fun hist p => incr (binOf (speed p)) hist) ps hist in
  List.length hist' = List.length hist
  /\ Forall (fun x => (0 <= x)%Z) hist'
  /\ (sumZ hist' <= sumZ hist + Z.of_nat (List.length ps))%Z.
Proof.
  cbv zeta. revert hist. induction ps as [| p ps IH]; intros hist Hl.
  - cbn [fold_left]. repeat split; [exact Hl | cbn [List.length]; lia].
  - cbn [fold_left].
    destruct (incr_never_overcounts (binOf (speed p)) hist Hl) as (H1 & H2 & H3).
    destruct (IH _ H2) as (I1 & I2 & I3).
    change (List.length (p :: ps)) with (S (List.length ps)).
    repeat split; [congruence | exact I2 | lia].
Qed.

(** X8. In any arithmetic, the histogram that [updatePhysics] leaves for
    [getHistogram] has 64 bins, no negative count, and a total that is at
    most the number of particles: no particle is counted twice. *)
Theorem fallback_histogram_never_overcounts (dt tOrder time : F)
    (r : WebGLFallback.t F) :
  exists hist,
    getHistogram (updatePhysics dt tOrder time r) = Some hist
    /\ Z.of_nat (List.length hist) = HIST_BINS
    /\ Forall (fun x => (0 <= x)%Z) hist
    /\ (sumZ hist <= Z.of_nat (List.length (particles r)))%Z.
Proof.
  unfold getHistogram, updatePhysics. cbn [pendingHistogram].
  eexists. split; [reflexivity |].
  unfold buildHistogram.
  set (ps := stepParticles _ _ _ _ _).
  assert (H0 : Forall (fun x => (0 <= x)%Z) (replicate (Z.to_nat HIST_BINS) 0%Z)).
  { apply Forall_replicate. lia. }
  destruct (buildHistogram_from ps _ H0) as (H1 & H2 & H3).
  rewrite sumZ_replicate_0 in H3. rewrite length_replicate in H1.
  subst ps. rewrite stepParticles_length in H3.
  repeat split; [rewrite H1; reflexivity | exact H2 | lia].
Qed.
End FallbackGeneric.

Section FallbackReal.
Import WebGLFallback.
Local Open Scope R_scope.

Lemma land_mask31 (a : Z) : (0 <= Z.land a 2147483647 <= 2147483647)%Z.
Proof.
  change 2147483647%Z with (Z.ones 31).
  rewrite Z.land_ones by lia.
  pose proof (Z.mod_pos_bound a (2 ^ 31) ltac:(lia)) as Hb.
  change (Z.ones 31) with (2 ^ 31 - 1)%Z. lia.
Qed.

(** X9. Whatever the seed, [rand] leaves a seed of 31 bits and returns, in
    exact arithmetic, a number between -1 and 1. *)
Theorem rand_in_range (seed : Z) :
  (0 <= fst (rand (F := R) seed) <= 2147483647)%Z
  /\ -1 <= snd (rand (F := R) seed) <= 1.
Proof.
  unfold rand. cbv zeta. cbn [fst snd].
  set (s := Z.land _ _).
  assert (Hs : (0 <= s <= 2147483647)%Z) by apply land_mask31.
  split; [exact Hs |].
  cbn [fadd fsub fmul fdiv ofZ R_arith].
  destruct Hs as [H0 H1]. apply IZR_le in H0, H1.
  assert (Hq : 0 <= IZR s / 2147483647 <= 1).
  { split.
    - apply div_nonneg; lra.
    - apply Rmult_le_reg_r with 2147483647; [lra |].
      replace (IZR s / 2147483647 * 2147483647) with (IZR s) by (field; lra). lra. }
  lra.
Qed.

(** A particle that sits on its home inside the soft boundary, with no
    velocity. *)
Lemma stepParticle_at_rest (dt damping : R) (seed : Z) (p : Particle R) :
  position p = home_position p -> velocity p = V3 0 0 0 -> speed p = 0 ->
  vlength (position p) <= 45 / 10 ->
  snd (stepParticle dt 1 damping seed p) = p.
Proof.
  destruct p as [[x1 x2 x3] [a1 a2 a3] s [h1 h2 h3]].
  cbn [position velocity speed home_position].
  intros Hx Hv Hs Hr. injection Hx as <- <- <-. injection Hv as -> -> ->. subst s.
  unfold stepParticle, integrateVelocity.
  destruct (rand seed) as [s1 r1]. destruct (rand s1) as [s2 r2].
  destruct (rand s2) as [s3 r3].
  cbn [position velocity speed home_position vx vy vz fround R_arith].
  unfold springK, noiseStr. cbn [fadd fsub fmul fdiv ofZ R_arith].
  replace (0 * damping + ((x1 - x1) * 12 * 1 + r1 * 4 * (1 - 1)) * dt) with 0 by ring.
  replace (0 * damping + ((x2 - x2) * 12 * 1 + r2 * 4 * (1 - 1)) * dt) with 0 by ring.
  replace (0 * damping + ((x3 - x3) * 12 * 1 + r3 * 4 * (1 - 1)) * dt) with 0 by ring.
  assert (H0 : vlength (V3 0 0 0 : vec3 R) = 0).
  { unfold vlength. cbn [vx vy vz fadd fmul fsqrt R_arith].
    replace (0 * 0 + 0 * 0 + 0 * 0) with 0 by ring. apply sqrt_0. }
  rewrite H0.
  assert (Hc : fgtb (0 : R) 8 = false) by (apply fgtb_R_false; lra).
  rewrite Hc. cbn [snd].
  unfold softBoundary, integratePosition.
  cbn [position velocity speed home_position vx vy vz fround R_arith
       fadd fmul].
  rewrite H0.
  replace (x1 + 0 * dt) with x1 by ring.
  replace (x2 + 0 * dt) with x2 by ring.
  replace (x3 + 0 * dt) with x3 by ring.
  assert (Hb : fgtb (vlength (V3 x1 x2 x3)) (dec 45 10) = false).
  { apply fgtb_R_false. unfold dec. cbn [fdiv ofZ R_arith]. exact Hr. }
  rewrite Hb. reflexivity.
Qed.

Lemma stepParticles_at_rest (dt damping : R) (seed : Z) (ps : list (Particle R)) :
  Forall (fun p => position p = home_position p /\ velocity p = V3 0 0 0
                   /\ speed p = 0 /\ vlength (position p) <= 45 / 10) ps ->
  stepParticles dt 1 damping seed ps = ps.
Proof.
  intros Hps. revert seed. induction Hps as [| p ps (Hx & Hv & Hs & Hr) Hps IH];
    intros seed; [reflexivity |].
  cbn [stepParticles].
  pose proof (stepParticle_at_rest dt damping seed p Hx Hv Hs Hr) as Hp.
  destruct (stepParticle dt 1 damping seed p) as [seed' p'].
  cbn [snd] in Hp. rewrite Hp, IH. reflexivity.
Qed.

Lemma place_at_rest (side : Z) (spacing off : R) (x y z : Z)
    (s : nat * list (Particle R)) :
  Forall (fun p => position p = home_position p /\ velocity p = V3 0 0 0
                   /\ speed p = 0) (snd s) ->
  Forall (fun p => position p = home_position p /\ velocity p = V3 0 0 0
                   /\ speed p = 0) (snd (place side spacing off x y z s)).
Proof.
  intros Hs. unfold place. destruct s as [idx ps].
  destruct (Z.of_nat idx <? PARTICLE_COUNT)%Z; [| exact Hs].
  cbn [snd] in *. apply Forall_insert; [exact Hs |].
  cbn [position velocity speed home_position fround ofZ R_arith].
  repeat split.
Qed.

Lemma initParticles_at_rest :
  Forall (fun p : Particle R =>
            position p = home_position p /\ velocity p = V3 0 0 0
            /\ speed p = 0 /\ vlength (position p) <= 45 / 10)
    initParticles.
Proof.
  assert (H1 : Forall (fun p : Particle R =>
                         position p = home_position p /\ velocity p = V3 0 0 0
                         /\ speed p = 0) initParticles).
  { unfold initParticles, initLoop. cbv zeta.
    apply (for_while_invariant
             (fun s : nat * list (Particle R) =>
                Forall (fun p => position p = home_position p /\ velocity p = V3 0 0 0
                                 /\ speed p = 0) (snd s))).
    - intros z s Hs. apply for_while_invariant; [| exact Hs].
      intros y s1 Hs1. apply for_while_invariant; [| exact Hs1].
      intros x s2 Hs2. apply place_at_rest, place_at_rest. exact Hs2.
    - cbn [snd]. apply Forall_replicate.
      cbn [position velocity speed home_position]. repeat split. }
  pose proof lattice_homes_inside as H2.
  apply Forall_lookup. intros i p Hp.
  pose proof (proj1 (Forall_lookup _ _) H1 i p Hp) as (Hx & Hv & Hs).
  pose proof (proj1 (Forall_lookup _ _) H2 i p Hp) as Hh.
  cbv beta in Hh. unfold Relax.radius in Hh. rewrite <- Hx in Hh.
  repeat split; assumption.
Qed.

Lemma histogram_at_rest (ps : list (Particle R)) (c : Z) (rest : list Z) :
  Forall (fun p => speed p = 0) ps ->
  (0 <= c)%Z -> (c + Z.of_nat (List.length ps) < 2 ^ 32)%Z ->
  fold_left (fun hist p => incr (binOf (speed p)) hist) ps (c :: rest)
  = (c + Z.of_nat (List.length ps))%Z :: rest.
Proof.
  intros Hps. revert c. induction Hps as [| p ps Hp Hps IH]; intros c Hc Hlt.
  - cbn [fold_left List.length]. f_equal. lia.
  - cbn [fold_left]. change (List.length (p :: ps)) with (S (List.length ps)) in *.
    rewrite Hp.
    assert (Hi : incr (binOf (0 : R)) (c :: rest) = (c + 1)%Z :: rest).
    { unfold incr. rewrite (fallback_bin 0) by lra.
      replace (0 / 8 * 64) with (IZR 0) by (cbn; field).
      rewrite Zfloor_of_IZR. change (Z.min 0 63) with 0%Z.
      change (0 <=? 0)%Z with true. change (Z.to_nat 0) with 0%nat. cbv iota.
      change (alter (add_u32 1) 0%nat (c :: rest)) with (add_u32 1 c :: rest).
      unfold add_u32. rewrite Z.mod_small by lia. reflexivity. }
    rewrite Hi, IH by lia. f_equal. lia.
Qed.

Lemma updatePhysics_at_rest (dt time : R) (r : WebGLFallback.t R) :
  particles r = initParticles ->
  updatePhysics dt 1 time r
  = {| particles := initParticles (F := R);
       pendingHistogram := Some (512%Z :: replicate 63 0%Z) |}.
Proof.
  intros Hr. unfold updatePhysics. rewrite Hr.
  rewrite stepParticles_at_rest by exact initParticles_at_rest.
  f_equal. f_equal. unfold buildHistogram.
  change (replicate (Z.to_nat HIST_BINS) 0%Z) with (0%Z :: replicate 63 0%Z).
  rewrite histogram_at_rest.
  - rewrite (initParticles_length (F := R)). reflexivity.
  - eapply Forall_impl; [exact initParticles_at_rest |].
    cbv beta. tauto.
  - lia.
  - rewrite (initParticles_length (F := R)). unfold PARTICLE_COUNT. lia.
Qed.

(** X10. The ordered lattice is at rest: in exact arithmetic a frame of
    the fallback at [tOrder = 1], whatever its time step and clock reading,
    returns the freshly initialised particles unchanged, counts all 512 of
    them in the first bin of the histogram, and the entropy of that
    histogram is 0. *)
Theorem ordered_lattice_at_rest (dt time : R) :
  updatePhysics dt 1 time init
  = {| particles := initParticles (F := R);
       pendingHistogram := Some (512%Z :: replicate 63 0%Z) |}
  /\ snd (EntropyCalculator.compute (512%Z :: replicate 63 0%Z)
            (EntropyCalculator.constructor 64))
     = (0, 0).
Proof.
  split.
  - apply updatePhysics_at_rest. reflexivity.
  - exact (single_bin_entropy (EntropyCalculator.constructor 64) 512 0 63 ltac:(lia)).
Qed.
End FallbackReal.
(** * js/webgpu-renderer.js and the compute shaders: the passes of a frame *)

Section GpuGeneric.
Context {F : Type} `{Arith F} `{MathLib F}.
Import WebGPURenderer.

Lemma map_insert_same {A B : Type} (f : A -> B) (l : list A) (i : nat) (x y : A) :
  l !! i = Some y -> f x = f y -> map f (<[i := x]> l) = map f l.
Proof.
  revert i. induction l as [| a l IH]; intros i Hi Hxy; [discriminate |].
  destruct i as [| i].
  - cbn in Hi. injection Hi as ->.
    change (<[0%nat := x]> (y :: l)) with (x :: l).
    cbn [map]. rewrite Hxy. reflexivity.
  - cbn in Hi. change (<[S i := x]> (a :: l)) with (a :: <[i := x]> l).
    cbn [map]. rewrite (IH i Hi Hxy). reflexivity.
Qed.

Lemma shader_step_home (u : PhysicsShader.Uniforms F) (idx : Z) (p : Particle F) :
  home_position (PhysicsShader.stepParticle u idx p) = home_position p.
Proof.
  unfold PhysicsShader.stepParticle, PhysicsShader.cacheSpeed.
  cbn [home_position]. unfold PhysicsShader.softBoundary.
  destruct (fgtb _ _); reflexivity.
Qed.

Lemma physics_main_homes (u : PhysicsShader.Uniforms F) (idx : Z)
    (ps : list (Particle F)) :
  map home_position (PhysicsShader.main u idx ps) = map home_position ps.
Proof.
  unfold PhysicsShader.main.
  destruct (PhysicsShader.particle_count u <=? idx)%Z; [reflexivity |].
  destruct (ps !! Z.to_nat idx) as [p |] eqn:Hp; [| reflexivity].
  apply (map_insert_same _ _ _ _ p Hp). apply shader_step_home.
Qed.

Lemma physicsPass_in_homes (order : list Z) (dt tOrder time : F)
    (ps : list (Particle F)) :
  map home_position (physicsPass_in order dt tOrder time ps) = map home_position ps.
Proof.
  unfold physicsPass_in. revert ps.
  induction order as [| idx order IH]; intros ps; [reflexivity |].
  cbn [fold_left]. rewrite IH. apply physics_main_homes.
Qed.

Lemma physicsPass_is_in_order (dt tOrder time : F) (ps : list (Particle F)) :
  physicsPass dt tOrder time ps = physicsPass_in (range 0 (8 * 256 - 1)) dt tOrder time ps.
Proof. unfold physicsPass, physicsPass_in, PhysicsShader.dispatch. reflexivity. Qed.

Lemma clear_main_length (size idx : Z) (b : list Z) :
  List.length (ClearShader.main size idx b) = List.length b.
Proof.
  unfold ClearShader.main. destruct (size <=? idx)%Z; [reflexivity |].
  apply length_insert.
Qed.

Lemma clear_dispatch_in_length (size : Z) (order : list Z) (b : list Z) :
  List.length (ClearShader.dispatch_in size order b) = List.length b.
Proof.
  unfold ClearShader.dispatch_in. revert b.
  induction order as [| idx order IH]; intros b; [reflexivity |].
  cbn [fold_left]. rewrite IH. apply clear_main_length.
Qed.

Lemma fold_atomicAdd_length (ws : list (Z * Z)) (d : list Z) :
  List.length (fold_left DensitySplat.atomicAdd ws d) = List.length d.
Proof.
  revert d. induction ws as [| w ws IH]; intros d; [reflexivity |].
  cbn [fold_left]. rewrite IH. apply length_alter.
Qed.

Lemma splatPass_in_length (order : list Z) (ps : list (Particle F)) (d : list Z) :
  List.length (splatPass_in order ps d) = List.length d.
Proof.
  unfold splatPass_in. revert d.
  induction order as [| idx order IH]; intros d; [reflexivity |].
  cbn [fold_left]. rewrite IH. unfold DensitySplat.main.
  destruct (_ <=? idx)%Z; [reflexivity |].
  destruct (ps !! Z.to_nat idx); [apply fold_atomicAdd_length | reflexivity].
Qed.

Lemma histogramPass_in_length (order : list Z) (ps : list (Particle F)) (h : list Z) :
  List.length (histogramPass_in order ps h) = List.length h.
Proof.
  unfold histogramPass_in. revert h.
  induction order as [| idx order IH]; intros h; [reflexivity |].
  cbn [fold_left]. rewrite IH. unfold HistogramShader.main.
  destruct (_ <=? idx)%Z; [reflexivity |].
  destruct (ps !! Z.to_nat idx); [apply length_alter | reflexivity].
Qed.

Lemma frame_keeps (dt tOrder time : F) (r : WebGPURenderer.t F) :
  map home_position (particles (frame dt tOrder time r))
  = map home_position (particles r)
  /\ List.length (density (frame dt tOrder time r)) = List.length (density r)
  /\ List.length (histogram (frame dt tOrder time r)) = List.length (histogram r).
Proof.
  unfold frame. cbn [particles density histogram].
  split; [rewrite physicsPass_is_in_order; apply physicsPass_in_homes |].
  split.
  - rewrite splatPass_in_length. apply clear_dispatch_in_length.
  - rewrite histogramPass_in_length. apply clear_dispatch_in_length.
Qed.

(** X11. In any arithmetic, the compute passes of the frames of the WebGPU
    renderer leave every particle's home position, the number of
    particles, and the sizes of the density volume and of the histogram as
    they were. *)
Theorem gpu_frames_keep_homes (frames : list (F * F * F)) (r : WebGPURenderer.t F) :
  let r' := fold_left (fun r f => frame (fst (fst f)) (snd (fst f)) (snd f) r) frames r in
  map home_position (particles r') = map home_position (particles r)
  /\ List.length (particles r') = List.length (particles r)
  /\ List.length (density r') = List.length (density r)
  /\ List.length (histogram r') = List.length (histogram r).
Proof.
  cbv zeta.
  assert (Hk : map home_position
                 (particles
                    (fold_left (fun r f => frame (fst (fst f)) (snd (fst f)) (snd f) r)
                       frames r))
               = map home_position (particles r)
               /\ List.length
                    (density
                       (fold_left (fun r f => frame (fst (fst f)) (snd (fst f)) (snd f) r)
                          frames r))
                  = List.length (density r)
               /\ List.length
                    (histogram
                       (fold_left (fun r f => frame (fst (fst f)) (snd (fst f)) (snd f) r)
                          frames r))
                  = List.length (histogram r)).
  { revert r. induction frames as [| f frames IH]; intros r; [repeat split |].
    cbn [fold_left].
    destruct (IH (frame (fst (fst f)) (snd (fst f)) (snd f) r)) as (I1 & I2 & I3).
    destruct (frame_keeps (fst (fst f)) (snd (fst f)) (snd f) r) as (K1 & K2 & K3).
    repeat split; congruence. }
  destruct Hk as (K1 & K2 & K3).
  repeat split; try assumption.
  rewrite <- (length_map home_position), K1. apply length_map.
Qed.

(** ** The order of the invocations *)

Lemma fold_left_commute {A S : Type} (f : S -> A -> S) (l l' : list A) :
  Permutation l l' ->
  (forall a b s, f (f s a) b = f (f s b) a) ->
  forall s, fold_left f l s = fold_left f l' s.
Proof.
  intros Hp Hc. induction Hp as [| x l l' Hp IH | x y l | l l' l'' H1 IH1 H2 IH2];
    intros s.
  - reflexivity.
  - cbn [fold_left]. apply IH.
  - cbn [fold_left]. rewrite Hc. reflexivity.
  - rewrite IH1. apply IH2.
Qed.

Lemma fold_left_commute_distinct {A S : Type} (f : S -> A -> S) (P : A -> Prop)
    (l l' : list A) :
  Permutation l l' -> List.NoDup l -> Forall P l ->
  (forall a b s, P a -> P b -> a <> b -> f (f s a) b = f (f s b) a) ->
  forall s, fold_left f l s = fold_left f l' s.
Proof.
  intros Hp. induction Hp as [| x l l' Hp IH | x y l | l l' l'' H1 IH1 H2 IH2];
    intros Hnd HP Hc s.
  - reflexivity.
  - cbn [fold_left]. apply IH; [| | exact Hc].
    + apply List.NoDup_cons_iff in Hnd. tauto.
    + apply Forall_cons in HP. tauto.
  - cbn [fold_left]. apply List.NoDup_cons_iff in Hnd as [Hy Hnd].
    apply Forall_cons in HP as [Py HP]. apply Forall_cons in HP as [Px HP].
    rewrite (Hc y x s Py Px); [reflexivity |].
    intros ->. apply Hy. left. reflexivity.
  - rewrite IH1 by assumption. apply IH2; [| | exact Hc].
    + eapply Permutation_NoDup; eassumption.
    + apply List.Forall_forall. intros a Ha.
      rewrite List.Forall_forall in HP. apply HP.
      eapply Permutation_in; [symmetry; exact H1 | exact Ha].
Qed.

Lemma add_u32_comm (x y v : Z) : add_u32 x (add_u32 y v) = add_u32 y (add_u32 x v).
Proof.
  unfold add_u32. rewrite !Z.add_mod_idemp_l by lia. f_equal. lia.
Qed.

Lemma alter_add_comm (x y : Z) (i j : nat) (l : list Z) :
  alter (add_u32 x) i (alter (add_u32 y) j l)
  = alter (add_u32 y) j (alter (add_u32 x) i l).
Proof.
  apply list_eq. intros k.
  destruct (Nat.eq_dec i k) as [-> | Hik], (Nat.eq_dec j k) as [-> | Hjk].
  - rewrite !list_lookup_alter_eq. destruct (l !! k) as [v |]; [| reflexivity].
    cbn. rewrite add_u32_comm. reflexivity.
  - rewrite list_lookup_alter_eq, !list_lookup_alter_ne by exact Hjk.
    rewrite list_lookup_alter_eq. reflexivity.
  - rewrite list_lookup_alter_ne by exact Hik.
    rewrite !list_lookup_alter_eq. rewrite list_lookup_alter_ne by exact Hik.
    reflexivity.
  - rewrite !list_lookup_alter_ne by assumption. reflexivity.
Qed.

Lemma atomicAdd_comm (d : list Z) (a b : Z * Z) :
  DensitySplat.atomicAdd (DensitySplat.atomicAdd d a) b
  = DensitySplat.atomicAdd (DensitySplat.atomicAdd d b) a.
Proof. unfold DensitySplat.atomicAdd. apply alter_add_comm. Qed.

Lemma histogram_main_comm (u : HistogramShader.HistUniforms F) (ps : list (Particle F))
    (a b : Z) (h : list Z) :
  HistogramShader.main u b ps (HistogramShader.main u a ps h)
  = HistogramShader.main u a ps (HistogramShader.main u b ps h).
Proof.
  unfold HistogramShader.main.
  destruct (_ <=? b)%Z, (_ <=? a)%Z; try reflexivity.
  destruct (ps !! Z.to_nat b), (ps !! Z.to_nat a); try reflexivity.
  apply alter_add_comm.
Qed.

Lemma physics_main_lookup_other (u : PhysicsShader.Uniforms F) (a : Z)
    (ps : list (Particle F)) (i : nat) :
  Z.to_nat a <> i -> PhysicsShader.main u a ps !! i = ps !! i.
Proof.
  intros Hne. unfold PhysicsShader.main.
  destruct (_ <=? a)%Z; [reflexivity |].
  destruct (ps !! Z.to_nat a); [| reflexivity].
  apply list_lookup_insert_ne. exact Hne.
Qed.

Lemma physics_main_eq (u : PhysicsShader.Uniforms F) (a : Z) (ps : list (Particle F)) :
  PhysicsShader.main u a ps
  = if (PhysicsShader.particle_count u <=? a)%Z then ps
    else match ps !! Z.to_nat a with
         | Some p => <[Z.to_nat a := PhysicsShader.stepParticle u a p]> ps
         | None => ps
         end.
Proof. reflexivity. Qed.

Lemma physics_main_comm (u : PhysicsShader.Uniforms F) (a b : Z)
    (ps : list (Particle F)) :
  (0 <= a)%Z -> (0 <= b)%Z -> a <> b ->
  PhysicsShader.main u b (PhysicsShader.main u a ps)
  = PhysicsShader.main u a (PhysicsShader.main u b ps).
Proof.
  intros Ha Hb Hab.
  assert (Hn : Z.to_nat a <> Z.to_nat b) by lia.
  assert (Hn' : Z.to_nat b <> Z.to_nat a) by lia.
  rewrite (physics_main_eq u b (PhysicsShader.main u a ps)).
  rewrite (physics_main_eq u a (PhysicsShader.main u b ps)).
  rewrite (physics_main_lookup_other u a ps _ Hn).
  rewrite (physics_main_lookup_other u b ps _ Hn').
  rewrite !physics_main_eq.
  destruct (_ <=? b)%Z, (_ <=? a)%Z; try reflexivity.
  destruct (ps !! Z.to_nat b), (ps !! Z.to_nat a); try reflexivity.
  apply list_insert_insert_ne. exact Hn'.
Qed.

Lemma fold_left_flat_map {A B S : Type} (f : S -> B -> S) (g : A -> list B)
    (l : list A) (s : S) :
  fold_left f (flat_map g l) s = fold_left (fun s a => fold_left f (g a) s) l s.
Proof.
  revert s. induction l as [| a l IH]; intros s; [reflexivity |].
  cbn [flat_map fold_left]. rewrite fold_left_app. apply IH.
Qed.

Lemma splatPass_as_writes (ps : list (Particle F)) (d : list Z) :
  splatPass_in (range 0 (8 * 256 - 1)) ps d
  = fold_left DensitySplat.atomicAdd (splatPass_writes ps) d.
Proof.
  unfold splatPass_writes. rewrite fold_left_flat_map. unfold splatPass_in.
  generalize (range 0 (8 * 256 - 1)). intros l. revert d.
  induction l as [| idx l IH]; intros d; [reflexivity |].
  cbn [fold_left]. rewrite IH. f_equal.
  unfold DensitySplat.main.
  destruct (_ <=? idx)%Z; [reflexivity |].
  destruct (ps !! Z.to_nat idx); reflexivity.
Qed.

Lemma splat_main_comm (u : DensitySplat.DensityUniforms F) (ps : list (Particle F))
    (a b : Z) (d : list Z) :
  DensitySplat.main u b ps (DensitySplat.main u a ps d)
  = DensitySplat.main u a ps (DensitySplat.main u b ps d).
Proof.
  unfold DensitySplat.main.
  destruct (_ <=? b)%Z, (_ <=? a)%Z; try reflexivity.
  destruct (ps !! Z.to_nat b) as [q |], (ps !! Z.to_nat a) as [p |]; try reflexivity.
  rewrite <- !fold_left_app.
  apply fold_left_commute; [apply Permutation_app_comm |].
  intros x y s. apply atomicAdd_comm.
Qed.

Lemma range_nonneg (hi : Z) : Forall (fun a => (0 <= a)%Z) (range 0 hi).
Proof.
  apply List.Forall_forall. intros a Ha. apply in_range in Ha. lia.
Qed.

(** X12. In any arithmetic, the outcome of the passes over the particles
    does not depend on the order in which the GPU runs their 2048
    invocations: the physics pass, where each invocation writes its own
    record, and the histogram and splat passes, whose [atomicAdd]s commute;
    for the splat pass not even on the order of the single [atomicAdd]s. *)
Theorem gpu_passes_order_independent (order : list Z) (ws : list (Z * Z))
    (dt tOrder time : F) (ps : list (Particle F)) (d h : list Z) :
  Permutation order (range 0 (8 * 256 - 1)) ->
  Permutation ws (splatPass_writes ps) ->
  physicsPass_in order dt tOrder time ps = physicsPass dt tOrder time ps
  /\ histogramPass_in order ps h = histogramPass_in (range 0 (8 * 256 - 1)) ps h
  /\ splatPass_in order ps d = splatPass_in (range 0 (8 * 256 - 1)) ps d
  /\ fold_left DensitySplat.atomicAdd ws d = splatPass_in (range 0 (8 * 256 - 1)) ps d.
Proof.
  intros Ho Hw. split; [| split; [| split]].
  - rewrite physicsPass_is_in_order. unfold physicsPass_in. symmetry.
    apply (fold_left_commute_distinct _ (fun a => (0 <= a)%Z));
      [symmetry; exact Ho | apply NoDup_range | apply range_nonneg |].
    intros a b s Ha Hb Hab. apply physics_main_comm; assumption.
  - unfold histogramPass_in. apply fold_left_commute; [exact Ho |].
    intros a b s. apply histogram_main_comm.
  - unfold splatPass_in. apply fold_left_commute; [exact Ho |].
    intros a b s. apply splat_main_comm.
  - rewrite splatPass_as_writes. apply fold_left_commute; [exact Hw |].
    intros a b s. apply atomicAdd_comm.
Qed.

(** ** The clear passes *)

Lemma clear_stays_zero (size : Z) (order : list Z) (b : list Z) (i : nat) :
  b !! i = Some 0%Z -> ClearShader.dispatch_in size order b !! i = Some 0%Z.
Proof.
  unfold ClearShader.dispatch_in. revert b.
  induction order as [| idx order IH]; intros b Hb; [exact Hb |].
  cbn [fold_left]. apply IH. unfold ClearShader.main.
  destruct (size <=? idx)%Z; [exact Hb |].
  destruct (Nat.eq_dec (Z.to_nat idx) i) as [-> | Hne].
  - apply list_lookup_insert_eq. eapply lookup_lt_Some. exact Hb.
  - rewrite list_lookup_insert_ne by exact Hne. exact Hb.
Qed.

Lemma clear_reaches (size : Z) (order : list Z) (b : list Z) (i : nat) :
  In (Z.of_nat i) order -> (Z.of_nat i < size)%Z -> (i < List.length b)%nat ->
  ClearShader.dispatch_in size order b !! i = Some 0%Z.
Proof.
  revert b. induction order as [| idx order IH]; intros b Hin Hsz Hlen; [destruct Hin |].
  change (ClearShader.dispatch_in size (idx :: order) b)
    with (ClearShader.dispatch_in size order (ClearShader.main size idx b)).
  destruct (Z.eq_dec idx (Z.of_nat i)) as [-> | Hne].
  - apply clear_stays_zero. unfold ClearShader.main.
    destruct (Z.leb_spec size (Z.of_nat i)); [lia |].
    rewrite Nat2Z.id. apply list_lookup_insert_eq. exact Hlen.
  - apply IH; [| exact Hsz | rewrite clear_main_length; exact Hlen].
    destruct Hin as [E | Hin]; [contradiction | exact Hin].
Qed.

Lemma clear_dispatch_zero (size groups : Z) (b : list Z) :
  (Z.of_nat (List.length b) <= size)%Z -> (Z.of_nat (List.length b) <= groups * 64)%Z ->
  ClearShader.dispatch size groups b = replicate (List.length b) 0%Z.
Proof.
  intros Hsz Hgr. apply list_eq. intros i.
  destruct (Nat.lt_ge_cases i (List.length b)) as [Hlt | Hge].
  - rewrite lookup_replicate_2 by exact Hlt.
    apply clear_reaches; [apply in_range | |]; lia.
  - rewrite !(proj2 (lookup_ge_None _ _)); [reflexivity | |].
    + rewrite length_replicate. exact Hge.
    + unfold ClearShader.dispatch. rewrite clear_dispatch_in_length. exact Hge.
Qed.

(** X13. In any arithmetic, a frame starts from cleared buffers: when the
    density volume has its [64^3] cells and the histogram its 64 bins, the
    frame's outcome is that of the same frame started with both buffers
    zeroed, whatever they held before. *)
Theorem gpu_frame_resets_buffers (dt tOrder time : F) (ps : list (Particle F))
    (d dr h : list Z) :
  List.length d = Z.to_nat GRID_VOXELS ->
  List.length h = Z.to_nat HIST_BINS ->
  frame dt tOrder time
    {| particles := ps; density := d; densityRead := dr; histogram := h |}
  = frame dt tOrder time
      {| particles := ps;
         density := replicate (Z.to_nat GRID_VOXELS) 0%Z;
         densityRead := replicate (Z.to_nat GRID_VOXELS) 0%Z;
         histogram := replicate (Z.to_nat HIST_BINS) 0%Z |}.
Proof.
  intros Hd Hh. unfold frame. cbn [particles density histogram].
  assert (Hv : Z.of_nat (Z.to_nat GRID_VOXELS) = 262144%Z)
    by (rewrite Z2Nat.id; [reflexivity | discriminate]).
  assert (Hb : Z.of_nat (Z.to_nat HIST_BINS) = 64%Z)
    by (rewrite Z2Nat.id; [reflexivity | discriminate]).
  rewrite !clear_dispatch_zero;
    rewrite ?length_replicate, ?Hd, ?Hh, ?Hv, ?Hb; try lia.
  reflexivity.
Qed.
End GpuGeneric.

Lemma gpu_passes_order_independent_witness :
  physicsPass_in (rev (range 0 (8 * 256 - 1))) (16 / 1000)%R 0%R 0%R
    (WebGPURenderer.generateBCCLattice (F := R))
  = physicsPass (16 / 1000)%R 0%R 0%R (WebGPURenderer.generateBCCLattice (F := R))
  /\ WebGPURenderer.histogramPass_in (rev (range 0 (8 * 256 - 1)))
       (WebGPURenderer.generateBCCLattice (F := R)) (replicate 64 0%Z)
     = WebGPURenderer.histogramPass_in (range 0 (8 * 256 - 1))
         (WebGPURenderer.generateBCCLattice (F := R)) (replicate 64 0%Z)
  /\ WebGPURenderer.splatPass_in (rev (range 0 (8 * 256 - 1)))
       (WebGPURenderer.generateBCCLattice (F := R)) (DensitySplat.cleared)
     = WebGPURenderer.splatPass_in (range 0 (8 * 256 - 1))
         (WebGPURenderer.generateBCCLattice (F := R)) (DensitySplat.cleared)
  /\ fold_left DensitySplat.atomicAdd
       (rev (splatPass_writes (WebGPURenderer.generateBCCLattice (F := R))))
       (DensitySplat.cleared)
     = WebGPURenderer.splatPass_in (range 0 (8 * 256 - 1))
         (WebGPURenderer.generateBCCLattice (F := R)) (DensitySplat.cleared).
Proof.
  apply (gpu_passes_order_independent (F := R)
           (rev (range 0 (8 * 256 - 1)))
           (rev (splatPass_writes (WebGPURenderer.generateBCCLattice (F := R)))));
    symmetry; apply Permutation_rev.
Defined.

Lemma gpu_frame_resets_buffers_witness :
  WebGPURenderer.frame (16 / 1000)%R 1%R 0%R
    {| WebGPURenderer.particles := WebGPURenderer.generateBCCLattice (F := R);
       WebGPURenderer.density := replicate (Z.to_nat WebGPURenderer.GRID_VOXELS) 7%Z;
       WebGPURenderer.densityRead := [];
       WebGPURenderer.histogram := replicate (Z.to_nat WebGPURenderer.HIST_BINS) 3%Z |}
  = WebGPURenderer.frame (16 / 1000)%R 1%R 0%R
      {| WebGPURenderer.particles := WebGPURenderer.generateBCCLattice (F := R);
         WebGPURenderer.density := replicate (Z.to_nat WebGPURenderer.GRID_VOXELS) 0%Z;
         WebGPURenderer.densityRead := replicate (Z.to_nat WebGPURenderer.GRID_VOXELS) 0%Z;
         WebGPURenderer.histogram := replicate (Z.to_nat WebGPURenderer.HIST_BINS) 0%Z |}.
Proof.
  exact (gpu_frame_resets_buffers (F := R) (16 / 1000)%R 1%R 0%R
           (WebGPURenderer.generateBCCLattice (F := R))
           (replicate (Z.to_nat WebGPURenderer.GRID_VOXELS) 7%Z) []
           (replicate (Z.to_nat WebGPURenderer.HIST_BINS) 3%Z)
           (length_replicate _ _) (length_replicate _ _)).
Defined.
(** * The WebGPU frame in exact arithmetic *)

Section GpuReal.
Import WebGPURenderer.
Local Open Scope R_scope.

Lemma physicsPass_lookup (dt tOrder time : R) (ps : list (Particle R)) (i : nat) :
  (List.length ps <= 2048)%nat ->
  physicsPass dt tOrder time ps !! i
  = PhysicsShader.stepParticle (PhysicsShader.updateUniforms 2048 dt tOrder time)
      (Z.of_nat i) <$> ps !! i.
Proof.
  intros Hlen. unfold physicsPass, PhysicsShader.dispatch, range.
  change (Z.to_nat (8 * 256 - 1 - 0 + 1)) with 2048%nat.
  rewrite (dispatch_prefix_lookup R_mathlib).
  change (PhysicsShader.particle_count (PhysicsShader.updateUniforms 2048 dt tOrder time))
    with 2048%Z.
  destruct (ps !! i) as [p |] eqn:Hp.
  - pose proof (lookup_lt_Some _ _ _ Hp) as Hi.
    destruct (Nat.ltb_spec i 2048); [| lia].
    destruct (Z.ltb_spec (Z.of_nat i) 2048); [| lia].
    reflexivity.
  - destruct (_ && _)%bool; reflexivity.
Qed.

Lemma physicsPass_speeds (dt tOrder time : R) (ps : list (Particle R)) :
  (List.length ps <= 2048)%nat ->
  Forall (fun p => 0 <= speed p) (physicsPass dt tOrder time ps).
Proof.
  intros Hlen. apply Forall_lookup. intros i q Hq.
  rewrite physicsPass_lookup in Hq by exact Hlen.
  destruct (ps !! i) as [p |]; [| discriminate].
  cbn in Hq. injection Hq as <-.
  rewrite shader_speed_is_stored_velocity. apply vlength_nonneg.
Qed.

Lemma physicsPass_length (dt tOrder time : R) (ps : list (Particle R)) :
  List.length (physicsPass dt tOrder time ps) = List.length ps.
Proof.
  rewrite <- (length_map home_position (physicsPass dt tOrder time ps)).
  rewrite physicsPass_is_in_order, physicsPass_in_homes. apply length_map.
Qed.

(** The histogram pass, invocation by invocation. *)
Lemma histogram_prefix (ps : list (Particle R)) (k : nat) (h : list Z) :
  Forall (fun p => 0 <= speed p) ps ->
  List.length h = 64%nat -> Forall (fun x => (0 <= x)%Z) h ->
  (k <= 2048)%nat -> (sumZ h + 2048 < 2 ^ 32)%Z ->
  let h' := histogramPass_in (map (fun j => (0 + Z.of_nat j)%Z) (seq 0 k)) ps h in
  List.length h' = 64%nat
  /\ Forall (fun x => (0 <= x)%Z) h'
  /\ sumZ h' = (sumZ h + Z.of_nat (Nat.min k (List.length ps)))%Z.
Proof.
  intros Hps Hlen Hnn Hk Hsum. cbv zeta. induction k as [| k IH].
  - cbn [seq map]. unfold histogramPass_in. cbn [fold_left].
    split; [exact Hlen | split; [exact Hnn |]]. rewrite Nat.min_0_l. lia.
  - destruct (IH ltac:(lia)) as (I1 & I2 & I3).
    rewrite seq_S, map_app. unfold histogramPass_in in *.
    rewrite fold_left_app. cbn [map fold_left Nat.add].
    set (h' := fold_left _ _ h) in *.
    rewrite Z.add_0_l. unfold HistogramShader.main.
    change (HistogramShader.particle_count (HistogramShader.uniforms PARTICLE_COUNT))
      with 2048%Z.
    destruct (Z.leb_spec 2048 (Z.of_nat k)); [lia |].
    rewrite Nat2Z.id.
    destruct (ps !! k) as [p |] eqn:Hp.
    + pose proof (lookup_lt_Some _ _ _ Hp) as Hkl.
      pose proof (Forall_lookup_1 _ _ _ _ Hps Hp) as Hsp. cbv beta in Hsp.
      rewrite (shader_bin _ _ Hsp).
      pose proof (fallback_bin_range _ Hsp) as Hb.
      set (b := Z.min _ 63) in *.
      destruct (lookup_lt_is_Some_2 h' (Z.to_nat b)) as [v Hv]; [lia |].
      pose proof (sumZ_bounds_entry h' _ v I2 Hv) as Hvb.
      assert (Hadd : add_u32 1 v = (v + 1)%Z).
      { unfold add_u32. apply Z.mod_small. lia. }
      split; [| split].
      * rewrite length_alter. exact I1.
      * apply Forall_alter; [exact I2 |]. intros x Hx Hx0.
        unfold add_u32.
        exact (proj1 (Z.mod_pos_bound (x + 1) (2 ^ 32) ltac:(lia))).
      * rewrite (sumZ_alter _ _ _ v Hv), Hadd, I3. lia.
    + apply lookup_ge_None in Hp.
      split; [exact I1 | split; [exact I2 |]]. rewrite I3. lia.
Qed.

(** X14. In exact arithmetic, after the compute passes of a frame the
    histogram has 64 bins whose counts add up to the number of particles
    (at most 2048, the renderer's count), whatever the histogram held
    before and whatever the time step, order parameter and clock. *)
Theorem gpu_histogram_counts_every_particle (dt tOrder time : R)
    (r : WebGPURenderer.t R) :
  List.length (histogram r) = Z.to_nat HIST_BINS ->
  (List.length (particles r) <= 2048)%nat ->
  List.length (histogram (frame dt tOrder time r)) = 64%nat
  /\ Forall (fun x => (0 <= x)%Z) (histogram (frame dt tOrder time r))
  /\ sumZ (histogram (frame dt tOrder time r)) = Z.of_nat (List.length (particles r)).
Proof.
  intros Hh Hp. unfold frame. cbn [histogram].
  rewrite clear_dispatch_zero by (rewrite Hh; unfold HIST_BINS; lia).
  rewrite Hh. change (Z.to_nat HIST_BINS) with 64%nat.
  pose proof (histogram_prefix (physicsPass dt tOrder time (particles r)) 2048
                (replicate 64 0%Z)
                (physicsPass_speeds dt tOrder time _ Hp)
                (length_replicate _ _)
                ltac:(apply Forall_replicate; lia) ltac:(lia)
                ltac:(rewrite sumZ_replicate_0; lia)) as Hx.
  cbv zeta in Hx. rewrite sumZ_replicate_0, physicsPass_length in Hx.
  unfold range. change (Z.to_nat (8 * 256 - 1 - 0 + 1)) with 2048%nat.
  destruct Hx as (H1 & H2 & H3).
  split; [exact H1 | split; [exact H2 |]]. rewrite H3. lia.
Qed.

(** ** The ordered lattice *)

Lemma shader_step_at_rest (u : PhysicsShader.Uniforms R) (idx : Z) (p : Particle R) :
  PhysicsShader.t_order u = 1 ->
  position p = home_position p -> velocity p = V3 0 0 0 -> speed p = 0 ->
  vlength (position p) <= 45 / 10 ->
  PhysicsShader.stepParticle u idx p = p.
Proof.
  intros Ht. destruct p as [[x1 x2 x3] [a1 a2 a3] s [h1 h2 h3]].
  cbn [position velocity speed home_position].
  intros Hx Hv Hs Hr. injection Hx as <- <- <-. injection Hv as -> -> ->. subst s.
  assert (H0 : vlength (V3 0 0 0 : vec3 R) = 0).
  { unfold vlength. cbn [vx vy vz fadd fmul fsqrt R_arith].
    replace (0 * 0 + 0 * 0 + 0 * 0) with 0 by ring. apply sqrt_0. }
  assert (Hiv : PhysicsShader.integrateVelocity u idx
                  (mkParticle (V3 x1 x2 x3) (V3 0 0 0) 0 (V3 x1 x2 x3))
                = mkParticle (V3 x1 x2 x3) (V3 0 0 0) 0 (V3 x1 x2 x3)).
  { unfold PhysicsShader.integrateVelocity. cbv zeta.
    rewrite (shader_noise_ordered R_mathlib u idx Ht), Ht.
    cbn [position velocity speed home_position].
    set (w := vadd _ _).
    assert (Hw : w = V3 0 0 0).
    { subst w. unfold vadd, vscale, vsub, mix.
      cbn [vx vy vz fadd fsub fmul ofZ R_arith]. f_equal; ring. }
    rewrite Hw, H0.
    assert (Hc : fgtb (0 : R) (ofZ 8) = false)
      by (apply fgtb_R_false; cbn [ofZ R_arith]; lra).
    rewrite Hc. reflexivity. }
  unfold PhysicsShader.stepParticle. rewrite Hiv.
  unfold PhysicsShader.integratePosition.
  cbn [position velocity speed home_position].
  assert (Hp : vadd (V3 x1 x2 x3) (vscale (V3 0 0 0) (PhysicsShader.dt u)) = V3 x1 x2 x3).
  { unfold vadd, vscale. cbn [vx vy vz fadd fmul R_arith]. f_equal; ring. }
  rewrite Hp. unfold PhysicsShader.softBoundary.
  cbn [position velocity speed home_position].
  assert (Hb : fgtb (vlength (V3 x1 x2 x3)) (dec 45 10) = false).
  { apply fgtb_R_false. unfold dec. cbn [fdiv ofZ R_arith]. exact Hr. }
  rewrite Hb. unfold PhysicsShader.cacheSpeed.
  cbn [position velocity speed home_position]. rewrite H0. reflexivity.
Qed.

Lemma gpu_coordinate (c : Z) (off : R) :
  (0 <= c <= 10)%Z -> 1 / 2 <= off <= 1 ->
  let x := (IZR c - 11 / 2 + off) * (5 / 11) in x * x <= 25 / 4.
Proof.
  intros Hc Hoff x.
  assert (0 <= IZR c <= 10) by (split; apply IZR_le; lia).
  assert (- (5 / 2) <= x <= 5 / 2) by (subst x; lra).
  nra.
Qed.

Lemma gpu_place_at_rest (off : R) (x y z : Z) (s : nat * list (Particle R)) :
  (0 <= x <= 10)%Z -> (0 <= y <= 10)%Z -> (0 <= z <= 10)%Z -> 1 / 2 <= off <= 1 ->
  Forall (fun p => position p = home_position p /\ velocity p = V3 0 0 0
                   /\ speed p = 0 /\ vlength (position p) <= 45 / 10) (snd s) ->
  Forall (fun p => position p = home_position p /\ velocity p = V3 0 0 0
                   /\ speed p = 0 /\ vlength (position p) <= 45 / 10)
    (snd (place 11 (5 / 11) off x y z s)).
Proof.
  intros Hx Hy Hz Hoff Hs. unfold place. destruct s as [idx ps].
  destruct (Z.of_nat idx <? PARTICLE_COUNT)%Z; [| exact Hs].
  cbn [snd] in *. apply Forall_insert; [exact Hs |].
  cbn [position velocity speed home_position fround fsub fadd fmul fdiv ofZ R_arith].
  split; [reflexivity | split; [reflexivity | split; [reflexivity |]]].
  pose proof (gpu_coordinate x off Hx Hoff) as Hcx.
  pose proof (gpu_coordinate y off Hy Hoff) as Hcy.
  pose proof (gpu_coordinate z off Hz Hoff) as Hcz.
  cbv zeta in Hcx, Hcy, Hcz.
  apply vlength_le_of_sq; [lra |].
  unfold norm2, dot. cbn [vx vy vz]. lra.
Qed.

Lemma gpu_lattice_at_rest :
  Forall (fun p : Particle R =>
            position p = home_position p /\ velocity p = V3 0 0 0
            /\ speed p = 0 /\ vlength (position p) <= 45 / 10)
    generateBCCLattice.
Proof.
  unfold generateBCCLattice, latticeLoop.
  change (WebGLFallback.cbrt_ceil (PARTICLE_COUNT / 2)) with 11%Z.
  cbv zeta. cbn [fdiv ofZ R_arith].
  apply (for_while_invariant_in
           (fun s : nat * list (Particle R) =>
              Forall (fun p => position p = home_position p /\ velocity p = V3 0 0 0
                               /\ speed p = 0 /\ vlength (position p) <= 45 / 10)
                (snd s))).
  - intros z s Hz Hs. apply for_while_invariant_in; [| exact Hs].
    intros y s1 Hy Hs1. apply for_while_invariant_in; [| exact Hs1].
    intros x s2 Hx Hs2.
    apply gpu_place_at_rest; try lia; [lra |].
    apply gpu_place_at_rest; try lia; [unfold dec; cbn [fdiv ofZ R_arith]; lra |].
    exact Hs2.
  - cbn [snd]. apply Forall_replicate.
    cbn [position velocity speed home_position].
    split; [reflexivity | split; [reflexivity | split; [reflexivity |]]].
    apply vlength_le_of_sq; [lra |].
    unfold norm2, dot, vzero. cbn [vx vy vz ofZ R_arith]. lra.
Qed.

Lemma gpu_place_length (side : Z) (spacing off : R) (x y z : Z)
    (s : nat * list (Particle R)) :
  List.length (snd (place side spacing off x y z s)) = List.length (snd s).
Proof.
  unfold place. destruct s as [idx ps].
  destruct (Z.of_nat idx <? PARTICLE_COUNT)%Z; [| reflexivity].
  cbn [snd]. apply length_insert.
Qed.

Lemma gpu_lattice_length :
  List.length (generateBCCLattice (F := R)) = 2048%nat.
Proof.
  unfold generateBCCLattice, latticeLoop.
  apply (for_while_invariant
           (fun s : nat * list (Particle R) => List.length (snd s) = 2048%nat)).
  - intros z s Hs. apply for_while_invariant; [| exact Hs].
    intros y s1 Hs1. apply for_while_invariant; [| exact Hs1].
    intros x s2 Hs2. rewrite !gpu_place_length. exact Hs2.
  - cbn [snd]. apply length_replicate.
Qed.

Lemma physicsPass_at_rest (dt time : R) (ps : list (Particle R)) :
  (List.length ps <= 2048)%nat ->
  Forall (fun p => position p = home_position p /\ velocity p = V3 0 0 0
                   /\ speed p = 0 /\ vlength (position p) <= 45 / 10) ps ->
  physicsPass dt 1 time ps = ps.
Proof.
  intros Hlen Hps. apply list_eq. intros i.
  rewrite physicsPass_lookup by exact Hlen.
  destruct (ps !! i) as [p |] eqn:Hp; [| reflexivity].
  destruct (Forall_lookup_1 _ _ _ _ Hps Hp) as (Hx & Hv & Hs & Hr).
  cbn. f_equal. apply shader_step_at_rest; try assumption. reflexivity.
Qed.

Lemma histogram_main_at_rest (ps : list (Particle R)) (j : nat) (c : Z) (rest : list Z) :
  Forall (fun p => speed p = 0) ps -> (c + 1 < 2 ^ 32)%Z -> (0 <= c)%Z ->
  HistogramShader.main (HistogramShader.uniforms PARTICLE_COUNT) (Z.of_nat j) ps (c :: rest)
  = (if (Z.of_nat j <? 2048)%Z && (j <? List.length ps)%nat then c + 1 else c)%Z :: rest.
Proof.
  intros Hps Hc H0. unfold HistogramShader.main.
  change (HistogramShader.particle_count (HistogramShader.uniforms PARTICLE_COUNT))
    with 2048%Z.
  rewrite Nat2Z.id.
  destruct (Z.leb_spec 2048 (Z.of_nat j)), (Z.ltb_spec (Z.of_nat j) 2048); try lia;
    cbn [andb]; [reflexivity |].
  destruct (ps !! j) as [p |] eqn:Hp.
  - pose proof (lookup_lt_Some _ _ _ Hp) as Hj.
    destruct (Nat.ltb_spec j (List.length ps)); [| lia].
    rewrite (Forall_lookup_1 _ _ _ _ Hps Hp).
    rewrite (shader_bin _ 0) by lra.
    replace (0 / 8 * 64) with (IZR 0) by (cbn; field).
    rewrite Zfloor_of_IZR. change (Z.to_nat (Z.min 0 63)) with 0%nat.
    change (alter (add_u32 1) 0%nat (c :: rest)) with (add_u32 1 c :: rest).
    unfold add_u32. rewrite Z.mod_small by lia. reflexivity.
  - apply lookup_ge_None in Hp.
    destruct (Nat.ltb_spec j (List.length ps)); [lia | reflexivity].
Qed.

Lemma histogram_pass_at_rest (ps : list (Particle R)) (k : nat) (rest : list Z) :
  Forall (fun p => speed p = 0) ps -> (k <= 2048)%nat ->
  histogramPass_in (map (fun j => (0 + Z.of_nat j)%Z) (seq 0 k)) ps (0%Z :: rest)
  = Z.of_nat (Nat.min k (List.length ps)) :: rest.
Proof.
  intros Hps Hk. induction k as [| k IH].
  - rewrite Nat.min_0_l. reflexivity.
  - rewrite seq_S, map_app. unfold histogramPass_in in *.
    rewrite fold_left_app, IH by lia. cbn [map fold_left Nat.add].
    rewrite Z.add_0_l, histogram_main_at_rest by (try exact Hps; lia).
    f_equal.
    destruct (Z.ltb_spec (Z.of_nat k) 2048); [| lia]. cbn [andb].
    destruct (Nat.ltb_spec k (List.length ps)); lia.
Qed.

(** X15. The ordered lattice of the WebGPU renderer is at rest: in exact
    arithmetic the compute passes of a frame at [tOrder = 1], whatever its
    time step and clock reading, return the freshly generated 2048
    particles unchanged and count all of them in the first bin of the
    histogram, whose entropy is 0. *)
Theorem gpu_ordered_lattice_at_rest (dt time : R) :
  particles (frame dt 1 time init) = generateBCCLattice
  /\ histogram (frame dt 1 time init) = 2048%Z :: replicate 63 0%Z
  /\ snd (EntropyCalculator.compute (histogram (frame dt 1 time init))
            (EntropyCalculator.constructor 64))
     = (0, 0).
Proof.
  assert (Hp : particles (frame dt 1 time init) = generateBCCLattice (F := R)).
  { unfold frame, init. cbn [particles].
    apply physicsPass_at_rest; [rewrite gpu_lattice_length; lia |].
    exact gpu_lattice_at_rest. }
  assert (Hh : histogram (frame dt 1 time init) = 2048%Z :: replicate 63 0%Z).
  { unfold frame, init. cbn [particles histogram].
    rewrite physicsPass_at_rest
      by (try exact gpu_lattice_at_rest; rewrite gpu_lattice_length; lia).
    rewrite clear_dispatch_zero
      by (rewrite length_replicate, Z2Nat.id; unfold HIST_BINS; lia).
    rewrite length_replicate.
    change (replicate (Z.to_nat HIST_BINS) 0%Z) with (0%Z :: replicate 63 0%Z).
    unfold range. change (Z.to_nat (8 * 256 - 1 - 0 + 1)) with 2048%nat.
    rewrite histogram_pass_at_rest.
    - rewrite gpu_lattice_length. reflexivity.
    - eapply Forall_impl; [exact gpu_lattice_at_rest |]. cbv beta. tauto.
    - lia. }
  split; [exact Hp | split; [exact Hh |]].
  rewrite Hh. exact (single_bin_entropy (EntropyCalculator.constructor 64) 2048 0 63 ltac:(lia)).
Qed.
End GpuReal.

Lemma gpu_histogram_counts_every_particle_witness :
  List.length
    (WebGPURenderer.histogram
       (WebGPURenderer.frame (16 / 1000)%R (1 / 2)%R 0%R (WebGPURenderer.init (F := R))))
  = 64%nat
  /\ Forall (fun x => (0 <= x)%Z)
       (WebGPURenderer.histogram
          (WebGPURenderer.frame (16 / 1000)%R (1 / 2)%R 0%R
             (WebGPURenderer.init (F := R))))
  /\ sumZ
       (WebGPURenderer.histogram
          (WebGPURenderer.frame (16 / 1000)%R (1 / 2)%R 0%R
             (WebGPURenderer.init (F := R))))
     = Z.of_nat (List.length (WebGPURenderer.particles (WebGPURenderer.init (F := R)))).
Proof.
  apply (gpu_histogram_counts_every_particle (16 / 1000)%R (1 / 2)%R 0%R
           (WebGPURenderer.init (F := R))).
  - apply length_replicate.
  - unfold WebGPURenderer.init. cbn [WebGPURenderer.particles].
    rewrite gpu_lattice_length. lia.
Defined.
(** * The lattice of the WebGPU renderer *)

Section GpuLatticeFacts.
Import WebGPURenderer.




End GpuLatticeFacts.
(** * shaders/physics.wgsl: the noise *)

Section ShaderHash.
Import PhysicsShader.
Local Open Scope Z_scope.

Lemma lxor_below (n a b : Z) :
  (0 <= n) -> (0 <= a < 2 ^ n) -> (0 <= b < 2 ^ n) -> (0 <= Z.lxor a b < 2 ^ n).
Proof.
  intros Hn Ha Hb.
  assert (H0 : (0 <= Z.lxor a b)) by (apply Z.lxor_nonneg; lia).
  split; [exact H0 |].
  destruct (Z.eq_dec (Z.lxor a b) 0) as [-> | Hne]; [apply Z.pow_pos_nonneg; lia |].
  apply Z.log2_lt_pow2; [lia |].
  pose proof (Z.log2_lxor a b ltac:(lia) ltac:(lia)) as Hl.
  assert (Hla : (Z.log2 a < n)).
  { destruct (Z.eq_dec a 0) as [-> | Ha0].
    - cbn. destruct (Z.eq_dec n 0) as [-> | Hn0]; [| lia].
      exfalso. apply Hne. assert (b = 0) by (cbn in Hb; lia). subst b. reflexivity.
    - apply Z.log2_lt_pow2; lia. }
  assert (Hlb : (Z.log2 b < n)).
  { destruct (Z.eq_dec b 0) as [-> | Hb0].
    - cbn. destruct (Z.eq_dec n 0) as [-> | Hn0]; [| lia].
      exfalso. apply Hne. assert (a = 0) by (cbn in Ha; lia). subst a. reflexivity.
    - apply Z.log2_lt_pow2; lia. }
  lia.
Qed.

Lemma u32_range (z : Z) : (0 <= u32 z < 2 ^ 32).
Proof. unfold u32. apply Z.mod_pos_bound. lia. Qed.

Lemma pcg_range (v : Z) : (0 <= pcg v < 2 ^ 32).
Proof.
  unfold pcg. cbv zeta.
  set (word := u32 (Z.lxor _ _ * 277803737)).
  pose proof (u32_range (Z.lxor (Z.shiftr (u32 (u32 (v * 747796405) + 2891336453))
                (u32 (Z.shiftr (u32 (u32 (v * 747796405) + 2891336453)) 28 + 4)))
                (u32 (u32 (v * 747796405) + 2891336453)) * 277803737)) as Hw.
  fold word in Hw.
  apply lxor_below; [lia | | exact Hw].
  rewrite Z.shiftr_div_pow2 by lia.
  split; [apply Z.div_pos; lia |].
  apply Z.div_lt_upper_bound; lia.
Qed.

End ShaderHash.

Section ShaderNoise.
Import PhysicsShader.
Local Open Scope R_scope.

Lemma rand01_range (seed : Z) : 0 <= rand01 (F := R) seed <= 1.
Proof.
  unfold rand01. cbn [fdiv ofZ R_arith].
  pose proof (pcg_range seed) as [H0 H1].
  apply IZR_le in H0.
  assert (H2 : IZR (pcg seed) <= 4294967295) by (apply IZR_le; lia).
  split.
  - apply div_nonneg; lra.
  - apply Rmult_le_reg_r with 4294967295; [lra |].
    replace (IZR (pcg seed) / 4294967295 * 4294967295) with (IZR (pcg seed))
      by (field; lra).
    lra.
Qed.

Lemma ln_monotone (x y : R) : 0 < x -> x <= y -> ln x <= ln y.
Proof.
  intros Hx [Hlt | ->]; [left; apply ln_increasing; assumption | right; reflexivity].
Qed.

Lemma randNormal_le (seed1 seed2 : Z) :
  Rabs (randNormal (F := R) seed1 seed2) <= sqrt (2 * ln 10000).
Proof.
  unfold randNormal. cbv zeta. unfold dec.
  cbn [fmax fsqrt fmul fdiv ofZ flog fcos R_arith R_mathlib].
  pose proof (rand01_range seed1) as [H0 H1].
  set (u1 := Rmax (rand01 seed1) (1 / 10000)).
  assert (Hu : 1 / 10000 <= u1 <= 1).
  { subst u1. split; [apply Rmax_r | apply Rmax_lub; lra]. }
  assert (Hln1 : ln u1 <= 0) by (apply ln_nonpos; lra).
  assert (Hln2 : - ln 10000 <= ln u1).
  { rewrite <- ln_Rinv by lra. apply ln_monotone; [| lra].
    apply Rinv_0_lt_compat. lra. }
  rewrite Rabs_mult.
  assert (Hs : Rabs (sqrt (-2 * ln u1)) <= sqrt (2 * ln 10000)).
  { rewrite Rabs_pos_eq by apply sqrt_pos. apply sqrt_le_1_alt. lra. }
  assert (Hc : Rabs (cos (62831853 / 10000000 * rand01 seed2)) <= 1).
  { apply Rabs_le. apply COS_bound. }
  pose proof (Rabs_pos (sqrt (-2 * ln u1))) as Hp1.
  pose proof (Rabs_pos (cos (62831853 / 10000000 * rand01 seed2))) as Hp2.
  replace (sqrt (2 * ln 10000)) with (sqrt (2 * ln 10000) * 1) by ring.
  apply Rmult_le_compat; assumption.
Qed.

(** X16. The hash [pcg] returns a 32-bit value, and in exact arithmetic no
    sample of [randNormal] exceeds [sqrt (2 ln 10000)] (about 4.29) in
    magnitude, so each component of the noise force is at most
    [noise_strength * |1 - t_order|] times that. *)
Theorem shader_noise_bounded (u : Uniforms R) (idx seed1 seed2 : Z) :
  (0 <= pcg idx < 2 ^ 32)%Z
  /\ Rabs (randNormal (F := R) seed1 seed2) <= sqrt (2 * ln 10000)
  /\ Rabs (vx (noise_force u idx))
     <= sqrt (2 * ln 10000) * Rabs (noise_strength u) * Rabs (1 - t_order u)
  /\ Rabs (vy (noise_force u idx))
     <= sqrt (2 * ln 10000) * Rabs (noise_strength u) * Rabs (1 - t_order u)
  /\ Rabs (vz (noise_force u idx))
     <= sqrt (2 * ln 10000) * Rabs (noise_strength u) * Rabs (1 - t_order u).
Proof.
  split; [apply pcg_range |]. split; [apply randNormal_le |].
  unfold noise_force. cbv zeta. cbn [vx vy vz fmul fsub ofZ R_arith].
  rewrite !Rabs_mult.
  pose proof (Rabs_pos (noise_strength u)) as Hn.
  pose proof (Rabs_pos (1 - t_order u)) as Ht.
  repeat split;
    (apply Rmult_le_compat_r; [exact Ht |]; apply Rmult_le_compat_r; [exact Hn |];
     apply randNormal_le).
Qed.
End ShaderNoise.
(** * js/math-utils.js in exact arithmetic *)

Section MathUtilsReal.
Import MathUtils.
Local Open Scope R_scope.

Lemma fabs_R (a : R) : fabs a = Rabs a.
Proof.
  unfold fabs, fopp. cbn [fmax fmul ofZ R_arith].
  unfold Rabs. destruct (Rcase_abs a).
  - rewrite Rmax_right by lra. lra.
  - rewrite Rmax_left by lra. reflexivity.
Qed.

Lemma fltb_R (a b : R) : fltb a b = true <-> a < b.
Proof.
  cbn [fltb R_arith]. destruct (Rlt_dec a b); split; intros; try lra; try discriminate; auto.
Qed.

(** X17. [vec3Normalize] returns the zero vector for a vector shorter than
    [1e-8] and a vector of length 1 otherwise (exact arithmetic). *)
Theorem vec3Normalize_unit_or_zero (v : vec3 R) :
  vec3Length (vec3Normalize v)
  = if Rlt_dec (vec3Length v) (1 / 100000000) then 0 else 1.
Proof.
  unfold vec3Normalize, vec3Length, dec.
  cbn [fltb fsqrt fadd fmul fdiv ofZ R_arith].
  destruct v as [a b c]. cbn [vx vy vz].
  set (n := a * a + b * b + c * c).
  destruct (Rlt_dec (sqrt n) (1 / 100000000)) as [Hs | Hs]; cbn [vx vy vz].
  - replace (0 * 0 + 0 * 0 + 0 * 0) with 0 by ring. apply sqrt_0.
  - assert (Hn : 0 <= n) by (subst n; nra).
    assert (Hp : 0 < sqrt n) by lra.
    replace (a / sqrt n * (a / sqrt n) + b / sqrt n * (b / sqrt n)
             + c / sqrt n * (c / sqrt n))
      with (n / (sqrt n * sqrt n)) by (subst n; field; lra).
    rewrite sqrt_sqrt by exact Hn.
    replace (n / n) with 1; [apply sqrt_1 |].
    field. intros E. rewrite E, sqrt_0 in Hp. lra.
Qed.

Lemma viewProj_R (a b : mat4 R) :
  viewProj a b
  = mkMat4
      (e0 a * e0 b + e4 a * e1 b + e8 a * e2 b + e12 a * e3 b)
      (e1 a * e0 b + e5 a * e1 b + e9 a * e2 b + e13 a * e3 b)
      (e2 a * e0 b + e6 a * e1 b + e10 a * e2 b + e14 a * e3 b)
      (e3 a * e0 b + e7 a * e1 b + e11 a * e2 b + e15 a * e3 b)
      (e0 a * e4 b + e4 a * e5 b + e8 a * e6 b + e12 a * e7 b)
      (e1 a * e4 b + e5 a * e5 b + e9 a * e6 b + e13 a * e7 b)
      (e2 a * e4 b + e6 a * e5 b + e10 a * e6 b + e14 a * e7 b)
      (e3 a * e4 b + e7 a * e5 b + e11 a * e6 b + e15 a * e7 b)
      (e0 a * e8 b + e4 a * e9 b + e8 a * e10 b + e12 a * e11 b)
      (e1 a * e8 b + e5 a * e9 b + e9 a * e10 b + e13 a * e11 b)
      (e2 a * e8 b + e6 a * e9 b + e10 a * e10 b + e14 a * e11 b)
      (e3 a * e8 b + e7 a * e9 b + e11 a * e10 b + e15 a * e11 b)
      (e0 a * e12 b + e4 a * e13 b + e8 a * e14 b + e12 a * e15 b)
      (e1 a * e12 b + e5 a * e13 b + e9 a * e14 b + e13 a * e15 b)
      (e2 a * e12 b + e6 a * e13 b + e10 a * e14 b + e14 a * e15 b)
      (e3 a * e12 b + e7 a * e13 b + e11 a * e14 b + e15 a * e15 b).
Proof.
  unfold viewProj, mat4_of.
  cbv -[Rplus Rmult Rminus Rdiv Rinv Ropp IZR e0 e1 e2 e3 e4 e5 e6 e7 e8 e9 e10 e11 e12 e13 e14 e15].
  f_equal;
    ring.
Qed.

Lemma mat4Identity_R :
  mat4Identity (F := R) = mkMat4 1 0 0 0 0 1 0 0 0 0 1 0 0 0 0 1.
Proof. reflexivity. Qed.

Lemma mat4Inverse_R (m : mat4 R) :
  mat4Inverse m
  = if Rlt_dec (Rabs (mat4Det m)) (1 / 100000000) then mat4Identity
    else
      mkMat4
        ((e5 m * (e10 m * e15 m - e11 m * e14 m) - e6 m * (e9 m * e15 m - e11 m * e13 m)
          + e7 m * (e9 m * e14 m - e10 m * e13 m)) * (1 / mat4Det m))
        ((e2 m * (e9 m * e15 m - e11 m * e13 m) - e1 m * (e10 m * e15 m - e11 m * e14 m)
          - e3 m * (e9 m * e14 m - e10 m * e13 m)) * (1 / mat4Det m))
        ((e13 m * (e2 m * e7 m - e3 m * e6 m) - e14 m * (e1 m * e7 m - e3 m * e5 m)
          + e15 m * (e1 m * e6 m - e2 m * e5 m)) * (1 / mat4Det m))
        ((e10 m * (e1 m * e7 m - e3 m * e5 m) - e9 m * (e2 m * e7 m - e3 m * e6 m)
          - e11 m * (e1 m * e6 m - e2 m * e5 m)) * (1 / mat4Det m))
        ((e6 m * (e8 m * e15 m - e11 m * e12 m) - e4 m * (e10 m * e15 m - e11 m * e14 m)
          - e7 m * (e8 m * e14 m - e10 m * e12 m)) * (1 / mat4Det m))
        ((e0 m * (e10 m * e15 m - e11 m * e14 m) - e2 m * (e8 m * e15 m - e11 m * e12 m)
          + e3 m * (e8 m * e14 m - e10 m * e12 m)) * (1 / mat4Det m))
        ((e14 m * (e0 m * e7 m - e3 m * e4 m) - e12 m * (e2 m * e7 m - e3 m * e6 m)
          - e15 m * (e0 m * e6 m - e2 m * e4 m)) * (1 / mat4Det m))
        ((e8 m * (e2 m * e7 m - e3 m * e6 m) - e10 m * (e0 m * e7 m - e3 m * e4 m)
          + e11 m * (e0 m * e6 m - e2 m * e4 m)) * (1 / mat4Det m))
        ((e4 m * (e9 m * e15 m - e11 m * e13 m) - e5 m * (e8 m * e15 m - e11 m * e12 m)
          + e7 m * (e8 m * e13 m - e9 m * e12 m)) * (1 / mat4Det m))
        ((e1 m * (e8 m * e15 m - e11 m * e12 m) - e0 m * (e9 m * e15 m - e11 m * e13 m)
          - e3 m * (e8 m * e13 m - e9 m * e12 m)) * (1 / mat4Det m))
        ((e12 m * (e1 m * e7 m - e3 m * e5 m) - e13 m * (e0 m * e7 m - e3 m * e4 m)
          + e15 m * (e0 m * e5 m - e1 m * e4 m)) * (1 / mat4Det m))
        ((e9 m * (e0 m * e7 m - e3 m * e4 m) - e8 m * (e1 m * e7 m - e3 m * e5 m)
          - e11 m * (e0 m * e5 m - e1 m * e4 m)) * (1 / mat4Det m))
        ((e5 m * (e8 m * e14 m - e10 m * e12 m) - e4 m * (e9 m * e14 m - e10 m * e13 m)
          - e6 m * (e8 m * e13 m - e9 m * e12 m)) * (1 / mat4Det m))
        ((e0 m * (e9 m * e14 m - e10 m * e13 m) - e1 m * (e8 m * e14 m - e10 m * e12 m)
          + e2 m * (e8 m * e13 m - e9 m * e12 m)) * (1 / mat4Det m))
        ((e13 m * (e0 m * e6 m - e2 m * e4 m) - e12 m * (e1 m * e6 m - e2 m * e5 m)
          - e14 m * (e0 m * e5 m - e1 m * e4 m)) * (1 / mat4Det m))
        ((e8 m * (e1 m * e6 m - e2 m * e5 m) - e9 m * (e0 m * e6 m - e2 m * e4 m)
          + e10 m * (e0 m * e5 m - e1 m * e4 m)) * (1 / mat4Det m)).
Proof.
  unfold mat4Inverse. cbv zeta. rewrite fabs_R. unfold dec.
  cbn [fltb fdiv fsub fadd fmul fround ofZ R_arith].
  destruct (Rlt_dec _ _); reflexivity.
Qed.

Lemma mat4Det_R (m : mat4 R) :
  mat4Det m
  = (e0 m * e5 m - e1 m * e4 m) * (e10 m * e15 m - e11 m * e14 m)
    - (e0 m * e6 m - e2 m * e4 m) * (e9 m * e15 m - e11 m * e13 m)
    + (e0 m * e7 m - e3 m * e4 m) * (e9 m * e14 m - e10 m * e13 m)
    + (e1 m * e6 m - e2 m * e5 m) * (e8 m * e15 m - e11 m * e12 m)
    - (e1 m * e7 m - e3 m * e5 m) * (e8 m * e14 m - e10 m * e12 m)
    + (e2 m * e7 m - e3 m * e6 m) * (e8 m * e13 m - e9 m * e12 m).
Proof. reflexivity. Qed.

Lemma mat4Inverse_products (m : mat4 R) :
  mat4Det m <> 0 -> Rabs (mat4Det m) >= 1 / 100000000 ->
  viewProj m (mat4Inverse m) = mat4Identity
  /\ viewProj (mat4Inverse m) m = mat4Identity.
Proof.
  intros Hd Ha. rewrite mat4Inverse_R.
  destruct (Rlt_dec _ _) as [Hlt | _]; [lra |].
  rewrite !viewProj_R, mat4Identity_R.
  cbn [e0 e1 e2 e3 e4 e5 e6 e7 e8 e9 e10 e11 e12 e13 e14 e15].
  set (D := mat4Det m) in *.
  assert (HD : D = mat4Det m) by reflexivity. rewrite mat4Det_R in HD.
  destruct m as [a0 a1 a2 a3 a4 a5 a6 a7 a8 a9 a10 a11 a12 a13 a14 a15].
  cbn [e0 e1 e2 e3 e4 e5 e6 e7 e8 e9 e10 e11 e12 e13 e14 e15] in *.
  assert (Hi : D * (1 / D) = 1) by (field; exact Hd).
  set (i := 1 / D) in *.
  split; f_equal;
    match goal with
    | |- ?l = 1 => transitivity (D * i); [rewrite HD; ring | exact Hi]
    | |- ?l = 0 => ring
    end.
Qed.

Lemma transform_viewProj (a b : mat4 R) (v : vec4 R) :
  transform (viewProj a b) v = transform a (transform b v).
Proof.
  rewrite viewProj_R. unfold transform.
  cbn [e0 e1 e2 e3 e4 e5 e6 e7 e8 e9 e10 e11 e12 e13 e14 e15 x4 y4 z4 w4
       fadd fmul R_arith].
  f_equal; ring.
Qed.

Lemma transform_identity (v : vec4 R) : transform mat4Identity v = v.
Proof.
  rewrite mat4Identity_R. destruct v as [x y z w]. unfold transform.
  cbn [e0 e1 e2 e3 e4 e5 e6 e7 e8 e9 e10 e11 e12 e13 e14 e15 x4 y4 z4 w4
       fadd fmul R_arith].
  f_equal; ring.
Qed.

(** X18. [mat4Inverse] in exact arithmetic: for a matrix whose determinant
    is below [1e-8] in magnitude it returns the identity; otherwise it
    returns the inverse, on both sides for the product of the renderers,
    and it undoes the transformation of every vector. *)
Theorem mat4Inverse_correct (m : mat4 R) (v : vec4 R) :
  if Rlt_dec (Rabs (mat4Det m)) (1 / 100000000)
  then mat4Inverse m = mat4Identity
  else viewProj m (mat4Inverse m) = mat4Identity
       /\ viewProj (mat4Inverse m) m = mat4Identity
       /\ transform (mat4Inverse m) (transform m v) = v
       /\ transform m (transform (mat4Inverse m) v) = v.
Proof.
  destruct (Rlt_dec _ _) as [Hlt | Hge].
  - rewrite mat4Inverse_R. destruct (Rlt_dec _ _); [reflexivity | contradiction].
  - assert (Hd : mat4Det m <> 0).
    { intros E. rewrite E, Rabs_R0 in Hge. lra. }
    destruct (mat4Inverse_products m Hd ltac:(lra)) as [H1 H2].
    split; [exact H1 | split; [exact H2 |]].
    rewrite <- !transform_viewProj, H1, H2, transform_identity. split; reflexivity.
Qed.

(** X19. The projection matrix in exact arithmetic: a point at depth
    [-near] lands on the near plane [z/w = -1] of clip space and a point at
    depth [-far] on the far plane [z/w = 1]; [w] is the distance in front
    of the camera, and [x] and [y] are scaled by [f / aspect] and [f =
    1 / tan (fovY / 2)]. *)
Theorem mat4Perspective_planes (fovY aspect near far x y z : R) :
  near <> far -> near <> 0 -> far <> 0 ->
  let P := mat4Perspective fovY aspect near far in
  w4 (transform P (V4 x y z 1)) = - z
  /\ x4 (transform P (V4 x y z 1)) = 1 / tan (fovY * (5 / 10)) / aspect * x
  /\ y4 (transform P (V4 x y z 1)) = 1 / tan (fovY * (5 / 10)) * y
  /\ z4 (transform P (V4 x y (- near) 1)) / w4 (transform P (V4 x y (- near) 1)) = -1
  /\ z4 (transform P (V4 x y (- far) 1)) / w4 (transform P (V4 x y (- far) 1)) = 1.
Proof.
  intros Hnf Hn Hf. cbv zeta.
  unfold mat4Perspective, transform, dec. cbv zeta.
  cbn [e0 e1 e2 e3 e4 e5 e6 e7 e8 e9 e10 e11 e12 e13 e14 e15 x4 y4 z4 w4
       fadd fsub fmul fdiv fround ofZ ftan R_arith R_trig].
  split; [ring | split; [ring | split; [ring |]]].
  split; field; split; lra.
Qed.

Lemma mat4Perspective_planes_witness :
  w4 (transform (mat4Perspective (PI / 4) (16 / 9) (1 / 10) 100) (V4 1 2 (-3) 1))
  = - (-3)
  /\ x4 (transform (mat4Perspective (PI / 4) (16 / 9) (1 / 10) 100) (V4 1 2 (-3) 1))
     = 1 / tan (PI / 4 * (5 / 10)) / (16 / 9) * 1
  /\ y4 (transform (mat4Perspective (PI / 4) (16 / 9) (1 / 10) 100) (V4 1 2 (-3) 1))
     = 1 / tan (PI / 4 * (5 / 10)) * 2
  /\ z4 (transform (mat4Perspective (PI / 4) (16 / 9) (1 / 10) 100)
           (V4 1 2 (- (1 / 10)) 1))
     / w4 (transform (mat4Perspective (PI / 4) (16 / 9) (1 / 10) 100)
             (V4 1 2 (- (1 / 10)) 1))
     = -1
  /\ z4 (transform (mat4Perspective (PI / 4) (16 / 9) (1 / 10) 100) (V4 1 2 (- 100) 1))
     / w4 (transform (mat4Perspective (PI / 4) (16 / 9) (1 / 10) 100)
             (V4 1 2 (- 100) 1))
     = 1.
Proof.
  apply (mat4Perspective_planes (PI / 4) (16 / 9) (1 / 10) 100 1 2 (-3)); lra.
Defined.

(** ** mat4LookAt *)

Lemma unit_scale (a : vec3 R) :
  0 < norm2 a -> norm2 (vscale a (1 / sqrt (norm2 a))) = 1.
Proof.
  intros Hn. destruct a as [x y z]. unfold norm2, dot, vscale in *.
  cbn [vx vy vz fmul R_arith] in *.
  set (n := x * x + y * y + z * z) in *.
  assert (Hs : 0 < sqrt n) by (apply sqrt_lt_R0; exact Hn).
  replace (x * (1 / sqrt n) * (x * (1 / sqrt n)) + y * (1 / sqrt n) * (y * (1 / sqrt n))
           + z * (1 / sqrt n) * (z * (1 / sqrt n)))
    with (n / (sqrt n * sqrt n)) by (subst n; field; lra).
  rewrite sqrt_sqrt by lra. field. lra.
Qed.

Lemma cross_orthogonal (a b : vec3 R) : dot (cross a b) a = 0 /\ dot (cross a b) b = 0.
Proof.
  destruct a as [a1 a2 a3], b as [b1 b2 b3]. unfold dot, cross. cbn [vx vy vz]. split; ring.
Qed.

Lemma lagrange (a b : vec3 R) :
  norm2 (cross a b) = norm2 a * norm2 b - dot a b * dot a b.
Proof. destruct a as [a1 a2 a3], b as [b1 b2 b3]. unfold norm2, dot, cross. cbn [vx vy vz]. ring. Qed.

Lemma gram (f r d : vec3 R) :
  dot (cross f r) d * dot (cross f r) d
  = norm2 f * norm2 r * norm2 d + 2 * dot f r * dot r d * dot f d
    - norm2 f * (dot r d * dot r d) - norm2 r * (dot f d * dot f d)
    - norm2 d * (dot f r * dot f r).
Proof. destruct f as [f1 f2 f3], r as [r1 r2 r3], d as [d1 d2 d3]. unfold norm2, dot, cross. cbn [vx vy vz]. ring. Qed.

(** The matrix of [mat4LookAt] is that of an orthonormal frame. *)
Lemma mat4LookAt_frame (eye center up : vec3 R) :
  0 < norm2 (vsub eye center) -> 0 < norm2 (cross up (vsub eye center)) ->
  exists f r : vec3 R,
    mat4LookAt eye center up = frame_matrix f r eye
    /\ norm2 f = 1 /\ norm2 r = 1 /\ dot f r = 0
    /\ vsub eye center = vscale f (vlength (vsub eye center)).
Proof.
  intros Hz Hc.
  set (z := vsub eye center) in *.
  set (f := vscale z (1 / sqrt (norm2 z))).
  assert (Hs : 0 < sqrt (norm2 z)) by (apply sqrt_lt_R0; exact Hz).
  assert (Hcf : cross up f = vscale (cross up z) (1 / sqrt (norm2 z))).
  { subst f. destruct up as [up1 up2 up3], z as [z1 z2 z3]. unfold cross, vscale. cbn [vx vy vz fmul R_arith].
    f_equal; ring. }
  assert (Hcn : 0 < norm2 (cross up f)).
  { rewrite Hcf, norm2_vscale.
    apply Rmult_lt_0_compat; [| exact Hc].
    apply Rmult_lt_0_compat; apply Rdiv_lt_0_compat; lra. }
  set (r := vscale (cross up f) (1 / sqrt (norm2 (cross up f)))).
  exists f, r.
  assert (Hf1 : norm2 f = 1) by (apply unit_scale; exact Hz).
  assert (Hr1 : norm2 r = 1) by (apply unit_scale; exact Hcn).
  assert (Hfr : dot f r = 0).
  { subst r. rewrite dot_vscale_r, dot_comm.
    rewrite (proj2 (cross_orthogonal up f)). ring. }
  split; [| split; [exact Hf1 | split; [exact Hr1 | split; [exact Hfr |]]]].
  - unfold mat4LookAt, frame_matrix. cbv zeta.
    unfold fopp. cbn [fround fmul fadd fsub fdiv fsqrt ofZ R_arith].
    subst r f z.
    destruct eye as [e1 e2 e3], center as [c1 c2 c3], up as [u1 u2 u3].
    unfold vsub, vscale, cross, norm2, dot. cbn [vx vy vz fsub fmul R_arith].
    f_equal; ring.
  - subst f. rewrite vlength_sqrt.
    destruct z as [a b c]. unfold vscale. cbn [vx vy vz fmul R_arith].
    f_equal; field; lra.
Qed.

Lemma frame_matrix_point (f r eye p : vec3 R) :
  transform (frame_matrix f r eye) (point4 p)
  = V4 (dot r (vsub p eye)) (dot (cross f r) (vsub p eye)) (dot f (vsub p eye)) 1.
Proof.
  destruct f as [f1 f2 f3], r as [r1 r2 r3], eye as [eye1 eye2 eye3], p as [p1 p2 p3]. unfold transform, frame_matrix, point4, dot, cross, vsub.
  cbn [e0 e1 e2 e3 e4 e5 e6 e7 e8 e9 e10 e11 e12 e13 e14 e15 x4 y4 z4 w4 vx vy vz
       fadd fsub fmul R_arith].
  f_equal; ring.
Qed.

Lemma frame_matrix_det (f r eye : vec3 R) :
  mat4Det (frame_matrix f r eye) = norm2 r * norm2 f - dot r f * dot r f.
Proof.
  rewrite mat4Det_R. destruct f as [f1 f2 f3], r as [r1 r2 r3], eye as [eye1 eye2 eye3]. unfold frame_matrix, norm2, dot, cross.
  cbn [e0 e1 e2 e3 e4 e5 e6 e7 e8 e9 e10 e11 e12 e13 e14 e15 vx vy vz].
  ring.
Qed.

Lemma frame_matrix_rigid (f r eye : vec3 R) :
  norm2 f = 1 -> norm2 r = 1 -> dot f r = 0 ->
  mat4Det (frame_matrix f r eye) = 1
  /\ transform (frame_matrix f r eye) (point4 eye) = V4 0 0 0 1
  /\ forall p q : vec3 R,
       norm2 (vsub (xyz (transform (frame_matrix f r eye) (point4 p)))
                   (xyz (transform (frame_matrix f r eye) (point4 q))))
       = norm2 (vsub p q).
Proof.
  intros Hf Hr Hfr. split; [| split].
  - rewrite frame_matrix_det, Hf, Hr, dot_comm, Hfr. ring.
  - rewrite frame_matrix_point. destruct f as [f1 f2 f3], r as [r1 r2 r3], eye as [eye1 eye2 eye3]. unfold dot, cross, vsub.
    cbn [vx vy vz fsub R_arith]. f_equal; ring.
  - intros p q. rewrite !frame_matrix_point. unfold xyz. cbn [x4 y4 z4].
    set (d := vsub p q).
    assert (Hd : forall a : vec3 R, dot a (vsub p eye) = dot a (vsub q eye) + dot a d).
    { intros a. subst d.
      destruct a as [a1 a2 a3], p as [p1 p2 p3], q as [q1 q2 q3], eye as [y1 y2 y3].
      unfold dot, vsub. cbn [vx vy vz fsub R_arith]. ring. }
    rewrite !(Hd r), !(Hd (cross f r)), !(Hd f).
    pose proof (gram f r d) as Hg. rewrite Hf, Hr, Hfr in Hg.
    remember (dot r d) as X eqn:EX.
    remember (dot (cross f r) d) as Y eqn:EY.
    remember (dot f d) as Z eqn:EZ.
    remember (norm2 d) as N eqn:EN.
    remember (dot r (vsub q eye)) as A eqn:EA.
    remember (dot (cross f r) (vsub q eye)) as B eqn:EB.
    remember (dot f (vsub q eye)) as C eqn:EC.
    unfold norm2, dot, vsub. cbn [vx vy vz fsub R_arith].
    replace ((A + X - A) * (A + X - A) + (B + Y - B) * (B + Y - B)
             + (C + Z - C) * (C + Z - C))
      with (X * X + Y * Y + Z * Z) by ring.
    rewrite Hg. ring.
Qed.

(** X20. The view matrix in exact arithmetic, for an eye away from the
    centre and an up vector not along the line of sight: it moves the eye
    to the origin and the centre onto the negative z axis at its distance
    from the eye, keeps the distance of any two points, and has determinant
    1 (so that [mat4Inverse] inverts it). *)
Theorem mat4LookAt_rigid (eye center up p q : vec3 R) :
  0 < norm2 (vsub eye center) -> 0 < norm2 (cross up (vsub eye center)) ->
  transform (mat4LookAt eye center up) (point4 eye) = V4 0 0 0 1
  /\ transform (mat4LookAt eye center up) (point4 center)
     = V4 0 0 (- vlength (vsub eye center)) 1
  /\ norm2 (vsub (xyz (transform (mat4LookAt eye center up) (point4 p)))
                 (xyz (transform (mat4LookAt eye center up) (point4 q))))
     = norm2 (vsub p q)
  /\ mat4Det (mat4LookAt eye center up) = 1.
Proof.
  intros Hz Hc.
  destruct (mat4LookAt_frame eye center up Hz Hc) as (f & r & -> & Hf & Hr & Hfr & Hzf).
  destruct (frame_matrix_rigid f r eye Hf Hr Hfr) as (Hdet & Heye & Hdist).
  split; [exact Heye | split; [| split; [apply Hdist | exact Hdet]]].
  rewrite frame_matrix_point.
  assert (Hce : vsub center eye = vscale f (- vlength (vsub eye center))).
  { transitivity (vscale (vsub eye center) (-1)).
    - destruct center as [center1 center2 center3], eye as [eye1 eye2 eye3]. unfold vsub, vscale. cbn [vx vy vz fsub fmul R_arith].
      f_equal; ring.
    - rewrite Hzf at 1. destruct f as [f1 f2 f3]. unfold vscale. cbn [vx vy vz fmul R_arith].
      f_equal; ring. }
  rewrite Hce, !dot_vscale_r.
  rewrite (dot_comm r f), Hfr.
  rewrite (proj1 (cross_orthogonal f r)).
  fold (norm2 f). rewrite Hf. f_equal; ring.
Qed.

Lemma mat4LookAt_rigid_witness :
  transform (mat4LookAt (V3 0 0 8) (V3 0 0 0) (V3 0 1 0)) (point4 (V3 0 0 8))
  = V4 0 0 0 1
  /\ transform (mat4LookAt (V3 0 0 8) (V3 0 0 0) (V3 0 1 0)) (point4 (V3 0 0 0))
     = V4 0 0 (- vlength (vsub (V3 0 0 8) (V3 0 0 0))) 1
  /\ norm2 (vsub (xyz (transform (mat4LookAt (V3 0 0 8) (V3 0 0 0) (V3 0 1 0))
                         (point4 (V3 1 2 3))))
                 (xyz (transform (mat4LookAt (V3 0 0 8) (V3 0 0 0) (V3 0 1 0))
                         (point4 (V3 0 0 0)))))
     = norm2 (vsub (V3 1 2 3) (V3 0 0 0))
  /\ mat4Det (mat4LookAt (V3 0 0 8) (V3 0 0 0) (V3 0 1 0)) = 1.
Proof.
  apply (mat4LookAt_rigid (V3 0 0 8) (V3 0 0 0) (V3 0 1 0) (V3 1 2 3) (V3 0 0 0));
    unfold norm2, dot, cross, vsub; cbn [vx vy vz fsub R_arith]; lra.
Defined.
End MathUtilsReal.
(** * js/camera.js in exact arithmetic *)

Section CameraReal.
Import MathUtils CameraView.
Local Open Scope R_scope.

Lemma steady_constructor (aspect : R) : steady (Camera.constructor aspect).
Proof.
  unfold steady, Camera.constructor, Camera.updateAspect, dec.
  cbn [Camera.center Camera.up Camera.phi Camera.maxParallax Camera.baseRadius
       Camera.radius Camera.mouseY fltb fadd fsub fmul fdiv ofZ R_arith].
  split; [reflexivity | split; [reflexivity | split; [reflexivity |]]].
  split; [reflexivity | split; [reflexivity |]].
  split; [| lra].
  destruct (Rlt_dec aspect 1); lra.
Qed.

Lemma steady_step (c : Camera.t R) (e : event R) :
  pointer_inside e -> steady c -> steady (apply_event c e).
Proof.
  intros He (Hc & Hu & Hp & Hm & Hb & Hr & Hy).
  destruct e as [a | nx ny | dt]; cbn [apply_event pointer_inside] in *.
  - unfold steady, Camera.updateAspect, dec.
    cbn [Camera.center Camera.up Camera.phi Camera.maxParallax Camera.baseRadius
         Camera.radius Camera.mouseY fltb fadd fsub fmul fdiv ofZ R_arith].
    rewrite Hb.
    split; [exact Hc | split; [exact Hu | split; [exact Hp |]]].
    split; [exact Hm | split; [reflexivity |]].
    split; [| exact Hy].
    destruct (Rlt_dec a 1); lra.
  - unfold steady, Camera.onMouseMove.
    cbn [Camera.center Camera.up Camera.phi Camera.maxParallax Camera.baseRadius
         Camera.radius Camera.mouseY].
    tauto.
  - unfold steady, Camera.update. cbv zeta.
    cbn [Camera.center Camera.up Camera.phi Camera.maxParallax Camera.baseRadius
         Camera.radius Camera.mouseY].
    tauto.
Qed.

Lemma steady_run (es : list (event R)) (c : Camera.t R) :
  Forall pointer_inside es -> steady c -> steady (run es c).
Proof.
  intros Hes. revert c. unfold run.
  induction Hes as [| e es He Hes IH]; intros c Hc; [exact Hc |].
  cbn [fold_left]. apply IH. apply steady_step; assumption.
Qed.

Lemma orbit_point (r t p : R) :
  norm2 (V3 (r * sin t * cos p) (r * sin p) (r * cos t * cos p)) = r * r.
Proof.
  unfold norm2, dot. cbn [vx vy vz].
  pose proof (sin2_cos2 t) as Ht. pose proof (sin2_cos2 p) as Hp.
  unfold Rsqr in Ht, Hp.
  replace (r * sin t * cos p * (r * sin t * cos p) + r * sin p * (r * sin p)
           + r * cos t * cos p * (r * cos t * cos p))
    with (r * r * ((sin t * sin t + cos t * cos t) * (cos p * cos p) + sin p * sin p))
    by ring.
  rewrite Ht. replace (1 * (cos p * cos p) + sin p * sin p)
    with (sin p * sin p + cos p * cos p) by ring.
  rewrite Hp. ring.
Qed.

(** X21. The camera orbits the lattice: after construction, any resizes,
    pointer moves inside the window and updates, an update leaves (in exact
    arithmetic) the eye at distance [radius >= 8] from the origin, hence
    outside the density volume, and a view matrix that moves the eye to the
    origin and the lattice centre to depth [-radius], with determinant 1. *)
Theorem camera_orbits (aspect dt : R) (es : list (event R)) :
  Forall pointer_inside es ->
  let c := Camera.update dt (run es (Camera.constructor aspect)) in
  vlength (Camera.eye c) = Camera.radius c
  /\ 8 <= Camera.radius c
  /\ transform (Camera.viewMatrix c) (point4 (Camera.eye c)) = V4 0 0 0 1
  /\ transform (Camera.viewMatrix c) (point4 (V3 0 0 0)) = V4 0 0 (- Camera.radius c) 1
  /\ mat4Det (Camera.viewMatrix c) = 1.
Proof.
  intros Hes. cbv zeta.
  pose proof (steady_run es _ Hes (steady_constructor aspect))
    as (Hc & Hu & Hp & Hm & Hb & Hr & Hy).
  set (c0 := run es (Camera.constructor aspect)) in *.
  unfold Camera.update. cbv zeta.
  cbn [Camera.eye Camera.radius Camera.viewMatrix fadd fmul fsin fcos
       R_arith R_mathlib R_trig].
  rewrite Hc, Hu, Hp, Hm.
  set (r := Camera.radius c0) in *.
  set (t := Camera.theta c0 + Camera.driftSpeed c0 * dt + Camera.mouseX c0 * (8 / 100)).
  set (p := 3 / 10 + Camera.mouseY c0 * (8 / 100)).
  set (eye := V3 (r * sin t * cos p) (r * sin p) (r * cos t * cos p)).
  assert (Hn : norm2 eye = r * r) by apply orbit_point.
  assert (Hl : vlength eye = r).
  { rewrite vlength_sqrt, Hn. apply sqrt_square. lra. }
  assert (Hcos : 0 < cos p).
  { pose proof PI2_3_2. apply cos_gt_0; subst p; lra. }
  assert (Hz : vsub eye (V3 0 0 0) = eye).
  { subst eye. unfold vsub. cbn [vx vy vz fsub R_arith]. f_equal; ring. }
  assert (H1 : 0 < norm2 (vsub eye (V3 0 0 0))) by (rewrite Hz, Hn; nra).
  assert (H2 : 0 < norm2 (cross (V3 0 1 0) (vsub eye (V3 0 0 0)))).
  { rewrite Hz. subst eye. unfold norm2, dot, cross. cbn [vx vy vz].
    pose proof (sin2_cos2 t) as Ht. unfold Rsqr in Ht.
    replace ((1 * (r * cos t * cos p) - 0 * (r * sin p))
             * (1 * (r * cos t * cos p) - 0 * (r * sin p))
             + (0 * (r * sin t * cos p) - 0 * (r * cos t * cos p))
               * (0 * (r * sin t * cos p) - 0 * (r * cos t * cos p))
             + (0 * (r * sin p) - 1 * (r * sin t * cos p))
               * (0 * (r * sin p) - 1 * (r * sin t * cos p)))
      with (r * r * (cos p * cos p) * (sin t * sin t + cos t * cos t)) by ring.
    rewrite Ht. assert (0 < r * r) by nra. assert (0 < cos p * cos p) by nra. nra. }
  destruct (mat4LookAt_frame eye (V3 0 0 0) (V3 0 1 0) H1 H2)
    as (f & q & -> & Hf & Hq & Hfq & Hzf).
  destruct (frame_matrix_rigid f q eye Hf Hq Hfq) as (Hdet & Heye & _).
  split; [exact Hl | split; [exact Hr | split; [exact Heye | split; [| exact Hdet]]]].
  rewrite frame_matrix_point.
  assert (Hce : vsub (V3 0 0 0) eye = vscale f (- r)).
  { rewrite Hz, Hl in Hzf. rewrite Hzf.
    destruct f as [f1 f2 f3]. unfold vsub, vscale. cbn [vx vy vz fsub fmul R_arith].
    f_equal; ring. }
  rewrite Hce, !dot_vscale_r, (dot_comm q f), Hfq.
  rewrite (proj1 (cross_orthogonal f q)).
  fold (norm2 f). rewrite Hf. f_equal; ring.
Qed.

Lemma camera_orbits_witness :
  vlength (Camera.eye (Camera.update (1 / 60)
             (run [Resize (3 / 4); MouseMove (1 / 2) (-1); Update (1 / 60)]
                (Camera.constructor (16 / 9)))))
  = Camera.radius (Camera.update (1 / 60)
      (run [Resize (3 / 4); MouseMove (1 / 2) (-1); Update (1 / 60)]
         (Camera.constructor (16 / 9))))
  /\ 8 <= Camera.radius (Camera.update (1 / 60)
            (run [Resize (3 / 4); MouseMove (1 / 2) (-1); Update (1 / 60)]
               (Camera.constructor (16 / 9))))
  /\ transform
       (Camera.viewMatrix (Camera.update (1 / 60)
          (run [Resize (3 / 4); MouseMove (1 / 2) (-1); Update (1 / 60)]
             (Camera.constructor (16 / 9)))))
       (point4 (Camera.eye (Camera.update (1 / 60)
          (run [Resize (3 / 4); MouseMove (1 / 2) (-1); Update (1 / 60)]
             (Camera.constructor (16 / 9))))))
     = V4 0 0 0 1
  /\ transform
       (Camera.viewMatrix (Camera.update (1 / 60)
          (run [Resize (3 / 4); MouseMove (1 / 2) (-1); Update (1 / 60)]
             (Camera.constructor (16 / 9)))))
       (point4 (V3 0 0 0))
     = V4 0 0
         (- Camera.radius (Camera.update (1 / 60)
              (run [Resize (3 / 4); MouseMove (1 / 2) (-1); Update (1 / 60)]
                 (Camera.constructor (16 / 9)))))
         1
  /\ mat4Det
       (Camera.viewMatrix (Camera.update (1 / 60)
          (run [Resize (3 / 4); MouseMove (1 / 2) (-1); Update (1 / 60)]
             (Camera.constructor (16 / 9)))))
     = 1.
Proof.
  apply (camera_orbits (16 / 9) (1 / 60)
           [Resize (3 / 4); MouseMove (1 / 2) (-1); Update (1 / 60)]).
  repeat constructor; cbn [pointer_inside]; lra.
Defined.
End CameraReal.
(** * shaders/fullscreen.wgsl and shaders/raymarch.wgsl in exact arithmetic *)

Section FullscreenReal.
Import MathUtils Fullscreen.
Local Open Scope R_scope.

Lemma vs_main_vertices :
  vs_main (F := R) 0 = mkVSOut (V4 (-1) (-1) 0 1) (0, 1)
  /\ vs_main (F := R) 1 = mkVSOut (V4 3 (-1) 0 1) (2, 1)
  /\ vs_main (F := R) 2 = mkVSOut (V4 (-1) 3 0 1) (0, -1).
Proof.
  unfold vs_main, dec. cbv zeta.
  replace (wrap32 (Z.land 0 1)) with 0%Z by reflexivity.
  replace (wrap32 (Z.shiftr 0 1)) with 0%Z by reflexivity.
  replace (wrap32 (Z.land 1 1)) with 1%Z by reflexivity.
  replace (wrap32 (Z.shiftr 1 1)) with 0%Z by reflexivity.
  replace (wrap32 (Z.land 2 1)) with 0%Z by reflexivity.
  replace (wrap32 (Z.shiftr 2 1)) with 1%Z by reflexivity.
  cbn [fadd fsub fmul fdiv ofZ R_arith].
  repeat split; f_equal; try f_equal; lra.
Qed.

(** X22. The three vertices of the fullscreen pass are (-1,-1), (3,-1) and
    (-1,3): every point of the screen square [[-1,1]^2] is a convex
    combination of them, and the texture coordinate interpolated there is
    [(x/2 + 1/2, 1 - (y/2 + 1/2))], inside [[0,1]^2]. *)
Theorem fullscreen_triangle_covers (x y : R) :
  -1 <= x <= 1 -> -1 <= y <= 1 ->
  exists a b c : R,
    0 <= a /\ 0 <= b /\ 0 <= c /\ a + b + c = 1
    /\ barycentric a b c (x4 (position (vs_main 0))) (x4 (position (vs_main 1)))
         (x4 (position (vs_main 2))) = x
    /\ barycentric a b c (y4 (position (vs_main 0))) (y4 (position (vs_main 1)))
         (y4 (position (vs_main 2))) = y
    /\ barycentric a b c (fst (uv (vs_main 0))) (fst (uv (vs_main 1)))
         (fst (uv (vs_main 2))) = x / 2 + 1 / 2
    /\ barycentric a b c (snd (uv (vs_main 0))) (snd (uv (vs_main 1)))
         (snd (uv (vs_main 2))) = 1 - (y / 2 + 1 / 2)
    /\ 0 <= x / 2 + 1 / 2 <= 1 /\ 0 <= 1 - (y / 2 + 1 / 2) <= 1.
Proof.
  intros Hx Hy.
  destruct vs_main_vertices as (-> & -> & ->).
  cbn [position uv x4 y4 fst snd]. unfold barycentric.
  exists (1 - (x + 1) / 4 - (y + 1) / 4), ((x + 1) / 4), ((y + 1) / 4).
  repeat split; lra.
Qed.

Lemma fullscreen_triangle_covers_witness :
  exists a b c : R,
    0 <= a /\ 0 <= b /\ 0 <= c /\ a + b + c = 1
    /\ barycentric a b c (x4 (position (vs_main 0))) (x4 (position (vs_main 1)))
         (x4 (position (vs_main 2))) = 1
    /\ barycentric a b c (y4 (position (vs_main 0))) (y4 (position (vs_main 1)))
         (y4 (position (vs_main 2))) = 1
    /\ barycentric a b c (fst (uv (vs_main 0))) (fst (uv (vs_main 1)))
         (fst (uv (vs_main 2))) = 1 / 2 + 1 / 2
    /\ barycentric a b c (snd (uv (vs_main 0))) (snd (uv (vs_main 1)))
         (snd (uv (vs_main 2))) = 1 - (1 / 2 + 1 / 2)
    /\ 0 <= 1 / 2 + 1 / 2 <= 1 /\ 0 <= 1 - (1 / 2 + 1 / 2) <= 1.
Proof. apply (fullscreen_triangle_covers 1 1); lra. Defined.
End FullscreenReal.

Section RaymarchReal.
Import MathUtils Raymarch.
Local Open Scope R_scope.

(** ** intersectBox *)

Lemma slab (lo hi o d t : R) :
  d <> 0 -> lo <= hi ->
  (Rmin ((lo - o) * (1 / d)) ((hi - o) * (1 / d)) <= t
   /\ t <= Rmax ((lo - o) * (1 / d)) ((hi - o) * (1 / d)))
  <-> lo <= o + d * t <= hi.
Proof.
  intros Hd Hlh.
  assert (Hlo : (lo - o) * (1 / d) * d = lo - o) by (field; exact Hd).
  assert (Hhi : (hi - o) * (1 / d) * d = hi - o) by (field; exact Hd).
  set (a := (lo - o) * (1 / d)) in *. set (b := (hi - o) * (1 / d)) in *.
  destruct (Rlt_dec 0 d) as [Hp | Hn].
  - assert (Hab : a <= b) by nra.
    rewrite Rmin_left, Rmax_right by exact Hab.
    split; intros [H1 H2]; split; nra.
  - assert (Hneg : d < 0) by lra.
    assert (Hab : b <= a) by nra.
    rewrite Rmin_right, Rmax_left by exact Hab.
    split; intros [H1 H2]; split; nra.
Qed.

Lemma Rmax3_le (a b c t : R) : Rmax (Rmax a b) c <= t <-> a <= t /\ b <= t /\ c <= t.
Proof.
  split.
  - intros Hm. pose proof (Rmax_l (Rmax a b) c). pose proof (Rmax_r (Rmax a b) c).
    pose proof (Rmax_l a b). pose proof (Rmax_r a b). repeat split; lra.
  - intros (Ha & Hb & Hc). apply Rmax_lub; [apply Rmax_lub |]; assumption.
Qed.

Lemma Rmin3_ge (a b c t : R) : t <= Rmin (Rmin a b) c <-> t <= a /\ t <= b /\ t <= c.
Proof.
  split.
  - intros Hm. pose proof (Rmin_l (Rmin a b) c). pose proof (Rmin_r (Rmin a b) c).
    pose proof (Rmin_l a b). pose proof (Rmin_r a b). repeat split; lra.
  - intros (Ha & Hb & Hc). apply Rmin_glb; [apply Rmin_glb |]; assumption.
Qed.

(** X23. The slab test of the ray marcher is exact: for a ray whose
    direction has no zero component and a box with [bmin <= bmax], the
    parameters [t] with [tNear <= t <= tFar] are those whose point
    [ro + t * rd] lies in the box (exact arithmetic). *)
Theorem intersectBox_exact (ro rd bmin bmax : vec3 R) (t : R) :
  vx rd <> 0 -> vy rd <> 0 -> vz rd <> 0 ->
  vx bmin <= vx bmax -> vy bmin <= vy bmax -> vz bmin <= vz bmax ->
  (fst (intersectBox ro rd bmin bmax) <= t <= snd (intersectBox ro rd bmin bmax))
  <-> in_box bmin bmax (vadd ro (vscale rd t)).
Proof.
  intros Hx Hy Hz Bx By Bz.
  unfold intersectBox, in_box, vadd, vscale. cbv zeta.
  cbn [fst snd vx vy vz fadd fsub fmul fdiv fmin fmax ofZ R_arith].
  rewrite Rmax3_le, Rmin3_ge.
  pose proof (slab (vx bmin) (vx bmax) (vx ro) (vx rd) t Hx Bx) as Sx.
  pose proof (slab (vy bmin) (vy bmax) (vy ro) (vy rd) t Hy By) as Sy.
  pose proof (slab (vz bmin) (vz bmax) (vz ro) (vz rd) t Hz Bz) as Sz.
  tauto.
Qed.

Lemma intersectBox_exact_witness :
  (fst (intersectBox (V3 0 0 8) (V3 (1 / 10) (1 / 10) (-1))
          (V3 (-36 / 10) (-36 / 10) (-36 / 10)) (V3 (36 / 10) (36 / 10) (36 / 10)))
   <= 5
   <= snd (intersectBox (V3 0 0 8) (V3 (1 / 10) (1 / 10) (-1))
             (V3 (-36 / 10) (-36 / 10) (-36 / 10)) (V3 (36 / 10) (36 / 10) (36 / 10))))
  <-> in_box (V3 (-36 / 10) (-36 / 10) (-36 / 10)) (V3 (36 / 10) (36 / 10) (36 / 10))
        (vadd (V3 0 0 8) (vscale (V3 (1 / 10) (1 / 10) (-1)) 5)).
Proof.
  apply (intersectBox_exact (V3 0 0 8) (V3 (1 / 10) (1 / 10) (-1))
           (V3 (-36 / 10) (-36 / 10) (-36 / 10)) (V3 (36 / 10) (36 / 10) (36 / 10)) 5);
    cbn [vx vy vz]; lra.
Defined.

(** ** sampleDensity *)

Lemma frac_unit (x : R) : 0 <= x - IZR (Zfloor x) <= 1.
Proof. pose proof (Zfloor_bound x). lra. Qed.

Lemma clampi_range (e : Z) : (0 <= clampi e 0 63 <= 63)%Z.
Proof. unfold clampi. lia. Qed.

Lemma corner_value (density : list Z) (m M : Z) (gi : Z * Z * Z) (frac : vec3 R)
    (dz dy dx : Z) (result : R) :
  Z.of_nat (List.length density) = 262144%Z ->
  Forall (fun v => (m <= v <= M)%Z) density ->
  exists val : R,
    IZR m / 1000 <= val <= IZR M / 1000
    /\ corner density gi frac 64 dz dy dx result
       = result
         + val * (if (dx =? 1)%Z then vx frac else 1 - vx frac)
           * (if (dy =? 1)%Z then vy frac else 1 - vy frac)
           * (if (dz =? 1)%Z then vz frac else 1 - vz frac).
Proof.
  intros Hlen Hd. destruct gi as [[gix giy] giz]. unfold corner.
  change (wrap32 (64 - 1)) with 63%Z.
  set (cx := clampi (wrap32 (gix + dx)) 0 63).
  set (cy := clampi (wrap32 (giy + dy)) 0 63).
  set (cz := clampi (wrap32 (giz + dz)) 0 63).
  pose proof (clampi_range (wrap32 (gix + dx))) as Hx. fold cx in Hx.
  pose proof (clampi_range (wrap32 (giy + dy))) as Hy. fold cy in Hy.
  pose proof (clampi_range (wrap32 (giz + dz))) as Hz. fold cz in Hz.
  assert (Hidx : u32 (wrap32 (cx + wrap32 (cy * 64) + wrap32 (wrap32 (cz * 64) * 64)))
                 = (cx + 64 * cy + 4096 * cz)%Z).
  { rewrite (wrap32_small (cy * 64)) by lia.
    rewrite (wrap32_small (cz * 64)) by lia.
    rewrite (wrap32_small (cz * 64 * 64)) by lia.
    rewrite wrap32_small by lia.
    unfold u32. rewrite Z.mod_small by lia. lia. }
  rewrite Hidx. unfold load.
  destruct (lookup_lt_is_Some_2 density (Z.to_nat (cx + 64 * cy + 4096 * cz)))
    as [v Hv]; [lia |].
  rewrite Hv.
  pose proof (Forall_lookup_1 _ _ _ _ Hd Hv) as Hb. cbv beta in Hb.
  exists (IZR v / 1000). split.
  - destruct Hb as [H1 H2]. apply IZR_le in H1, H2. lra.
  - cbn [fadd fsub fmul fdiv ofZ R_arith]. reflexivity.
Qed.

Lemma sampleDensity_between (u : RaymarchUniforms R) (density : list Z) (m M : Z)
    (pos : vec3 R) :
  grid_res u = 64 -> Z.of_nat (List.length density) = 262144%Z ->
  Forall (fun v => (m <= v <= M)%Z) density ->
  IZR m / 1000 <= sampleDensity u density pos <= IZR M / 1000.
Proof.
  intros Hres Hlen Hd. unfold sampleDensity. cbv zeta. rewrite Hres.
  replace (i32_of (64 : R)) with 64%Z
    by (unfold i32_of; cbn [toZ R_arith]; rewrite R_toZ_IZR; reflexivity).
  set (gf := vscale _ 64).
  cbn [ffloor R_arith vx vy vz].
  set (gi := (i32_of _, i32_of _, i32_of _)).
  set (frac := vsub gf _).
  assert (Hfx : 0 <= vx frac <= 1).
  { subst frac. unfold vsub. cbn [vx fsub R_arith]. apply frac_unit. }
  assert (Hfy : 0 <= vy frac <= 1).
  { subst frac. unfold vsub. cbn [vy fsub R_arith]. apply frac_unit. }
  assert (Hfz : 0 <= vz frac <= 1).
  { subst frac. unfold vsub. cbn [vz fsub R_arith]. apply frac_unit. }
  change (range 0 1) with [0%Z; 1%Z]. cbn [fold_left].
  repeat match goal with
  | |- context [corner density gi frac 64 ?dz ?dy ?dx ?r] =>
      let v := fresh "v" in let Hv := fresh "Hv" in let E := fresh "E" in
      destruct (corner_value density m M gi frac dz dy dx r Hlen Hd) as (v & Hv & E);
      rewrite E; clear E
  end.
  cbn [Z.eqb Pos.eqb ofZ R_arith].
  set (a := vx frac) in *. set (b := vy frac) in *. set (c := vz frac) in *.
  assert (W : forall p q r, 0 <= p -> 0 <= q -> 0 <= r -> 0 <= p * q * r).
  { intros p q r Hp Hq Hr. apply Rmult_le_pos; [apply Rmult_le_pos |]; assumption. }
  assert (B : forall s w, IZR m / 1000 <= s <= IZR M / 1000 -> 0 <= w ->
                          IZR m / 1000 * w <= s * w <= IZR M / 1000 * w).
  { intros s w Hs Hw. split; apply Rmult_le_compat_r; lra. }
  repeat match goal with
  | Hv : IZR m / 1000 <= ?v <= IZR M / 1000 |- context [?v * ?p * ?q * ?r] =>
      let Hw := fresh "Hw" in
      assert (Hw : 0 <= p * q * r) by (apply W; lra);
      pose proof (B v (p * q * r) Hv Hw);
      replace (v * p * q * r) with (v * (p * q * r)) by ring;
      clear Hv; set (v * (p * q * r)) in *
  end.
  assert (S1 : (1 - a) * (1 - b) * (1 - c) + a * (1 - b) * (1 - c) + (1 - a) * b * (1 - c)
               + a * b * (1 - c) + (1 - a) * (1 - b) * c + a * (1 - b) * c
               + (1 - a) * b * c + a * b * c = 1) by ring.
  set (w1 := (1 - a) * (1 - b) * (1 - c)) in *.
  set (w2 := a * (1 - b) * (1 - c)) in *.
  set (w3 := (1 - a) * b * (1 - c)) in *.
  set (w4' := a * b * (1 - c)) in *.
  set (w5 := (1 - a) * (1 - b) * c) in *.
  set (w6 := a * (1 - b) * c) in *.
  set (w7 := (1 - a) * b * c) in *.
  set (w8 := a * b * c) in *.
  set (lo := IZR m / 1000) in *. set (hi := IZR M / 1000) in *.
  split; nra.
Qed.

(** X24. Trilinear sampling stays inside the buffer and between the
    densities it reads: for the 64-cell grid of the renderer and a volume
    of [64^3] cells whose values all lie between [m] and [M], the sample at
    any position lies between [m / 1000] and [M / 1000] (exact
    arithmetic). *)
Theorem sampleDensity_within_range (invView invProj : mat4 R) (eye : vec3 R)
    (time width height : R) (density : list Z) (m M : Z) (pos : vec3 R) :
  Z.of_nat (List.length density) = 262144%Z ->
  Forall (fun v => (m <= v <= M)%Z) density ->
  IZR m / 1000
  <= sampleDensity (uniforms invView invProj eye time width height) density pos
  <= IZR M / 1000.
Proof.
  intros Hlen Hd. apply sampleDensity_between; [reflexivity | exact Hlen | exact Hd].
Qed.

Lemma sampleDensity_within_range_witness :
  IZR 1500 / 1000
  <= sampleDensity
       (uniforms mat4Identity mat4Identity (V3 0 0 8) 0 800 600)
       (replicate (Z.to_nat 262144) 1500%Z) (V3 (1 / 3) 9 (-2))
  <= IZR 1500 / 1000.
Proof.
  apply (sampleDensity_within_range mat4Identity mat4Identity (V3 0 0 8) 0 800 600
           (replicate (Z.to_nat 262144) 1500%Z) 1500 1500 (V3 (1 / 3) 9 (-2))).
  - rewrite length_replicate. apply Z2Nat.id. discriminate.
  - apply Forall_replicate. lia.
Defined.

(** ** The compositing loop *)








(** ** The empty volume *)


End RaymarchReal.
(** * js/color-map.js in exact arithmetic *)

Section ColorMapReal.
Import ColorMap.
Local Open Scope R_scope.

Lemma jsRound_byte (v : R) :
  0 <= v <= 255 ->
  exists k : Z, (0 <= k <= 255)%Z /\ jsRound v = IZR k /\ Rabs (IZR k - v) <= 1 / 2.
Proof.
  intros Hv. unfold jsRound, dec. cbv zeta.
  cbn [ffloor fltb fsub fadd fdiv ofZ R_arith].
  pose proof (Zfloor_bound v) as Hf.
  assert (H0 : (0 <= Zfloor v)%Z) by (apply Zfloor_lub; cbn; lra).
  assert (H1 : (Zfloor v <= 255)%Z).
  { apply le_IZR. lra. }
  destruct (Rlt_dec (v - IZR (Zfloor v)) (5 / 10)) as [Hlt | Hge].
  - exists (Zfloor v). split; [lia | split; [reflexivity |]].
    apply Rabs_le. lra.
  - exists (Zfloor v + 1)%Z. rewrite plus_IZR.
    assert (Zfloor v <> 255%Z).
    { intros E. rewrite E in Hf, Hge. lra. }
    split; [lia | split; [reflexivity |]].
    apply Rabs_le. lra.
Qed.

Lemma toUint8_byte (k : Z) : (0 <= k <= 255)%Z -> toUint8 (IZR k) = k.
Proof.
  intros Hk. unfold toUint8. cbn [toZ R_arith]. rewrite R_toZ_IZR.
  apply Z.mod_small. lia.
Qed.

Lemma fgeb_R (a b : R) : fgeb a b = true <-> b <= a.
Proof.
  unfold fgeb. cbn [fleb R_arith].
  destruct (Rle_dec b a); split; intros; try lra; try discriminate; auto.
Qed.

(** The stops around [t]: two stops with channels in [[0, 1]], the lower
    one strictly before the upper one, and [t] between them. *)
Lemma surrounding_spec (t : R) :
  0 <= t <= 1 ->
  (0 <= red (fst (surrounding t)) <= 1 /\ 0 <= green (fst (surrounding t)) <= 1
   /\ 0 <= blue (fst (surrounding t)) <= 1)
  /\ (0 <= red (snd (surrounding t)) <= 1 /\ 0 <= green (snd (surrounding t)) <= 1
      /\ 0 <= blue (snd (surrounding t)) <= 1)
  /\ pos (fst (surrounding t)) <= t <= pos (snd (surrounding t))
  /\ pos (fst (surrounding t)) < pos (snd (surrounding t)).
Proof.
  intros Ht. unfold surrounding.
  destruct (find _ _) as [p |] eqn:Hfind.
  - apply find_some in Hfind as [Hin Hc].
    apply andb_true_iff in Hc as [Hlo Hup].
    apply fgeb_R in Hlo. apply fleb_R in Hup.
    cbn [combine stops tl] in Hin.
    repeat (destruct Hin as [<- | Hin];
            [unfold dec in *; cbn [fst snd pos red green blue fdiv ofZ R_arith] in *;
             repeat split; lra |]).
    destruct Hin.
  - unfold first_stop, last_stop, dec.
    cbn [fst snd pos red green blue fdiv ofZ R_arith]. repeat split; lra.
Qed.

Lemma smoothstep_unit (f : R) : 0 <= f <= 1 -> 0 <= f * f * (3 - 2 * f) <= 1.
Proof.
  intros Hf. assert (0 <= f * f) by nra. assert (f * f <= 1) by nra.
  split; [apply Rmult_le_pos; lra |].
  assert (0 <= (1 - f) * (1 - f) * (1 + 2 * f)).
  { apply Rmult_le_pos; [nra | lra]. }
  nra.
Qed.

Lemma channel_byte (lo up sf : R) :
  0 <= lo <= 1 -> 0 <= up <= 1 -> 0 <= sf <= 1 ->
  exists k : Z,
    (0 <= k <= 255)%Z
    /\ toUint8 (jsRound ((lo + (up - lo) * sf) * 255)) = k
    /\ Rabs (IZR k - (lo + (up - lo) * sf) * 255) <= 1 / 2.
Proof.
  intros Hlo Hup Hsf.
  assert (Hc : 0 <= lo + (up - lo) * sf <= 1).
  { replace (lo + (up - lo) * sf) with (lo * (1 - sf) + up * sf) by ring.
    assert (0 <= lo * (1 - sf) <= 1 - sf) by nra.
    assert (0 <= up * sf <= sf) by nra. lra. }
  destruct (jsRound_byte ((lo + (up - lo) * sf) * 255) ltac:(lra)) as (k & Hk & E & Hn).
  exists k. rewrite E, toUint8_byte by exact Hk. auto.
Qed.

Lemma entry_bytes (size i : Z) :
  (2 <= size)%Z -> (0 <= i <= size - 1)%Z ->
  exists r g b : Z,
    entry (F := R) size i = [r; g; b; 255%Z]
    /\ (0 <= r <= 255)%Z /\ (0 <= g <= 255)%Z /\ (0 <= b <= 255)%Z.
Proof.
  intros Hs Hi. unfold entry. cbv zeta.
  set (t := ofZ i /! ofZ (size - 1)).
  assert (Ht : 0 <= t <= 1).
  { subst t. cbn [fdiv ofZ R_arith].
    assert (0 < IZR (size - 1)) by (apply IZR_lt; lia).
    assert (0 <= IZR i) by (apply IZR_le; lia).
    assert (IZR i <= IZR (size - 1)) by (apply IZR_le; lia).
    split; [apply div_nonneg; lra |].
    apply Rmult_le_reg_r with (IZR (size - 1)); [lra |].
    replace (IZR i / IZR (size - 1) * IZR (size - 1)) with (IZR i) by (field; lra).
    lra. }
  pose proof (surrounding_spec t Ht) as (Hlo & Hup & Hpos & Hlt).
  destruct (surrounding t) as [lower upper]. cbn [fst snd] in *.
  cbn [fsub fadd fmul fdiv ofZ R_arith].
  assert (Hg : fgtb (pos upper - pos lower) 0 = true) by (apply fgtb_R; lra).
  rewrite Hg.
  set (f := (t - pos lower) / (pos upper - pos lower)).
  assert (Hf : 0 <= f <= 1).
  { subst f. split; [apply div_nonneg; lra |].
    apply Rmult_le_reg_r with (pos upper - pos lower); [lra |].
    replace ((t - pos lower) / (pos upper - pos lower) * (pos upper - pos lower))
      with (t - pos lower) by (field; lra).
    lra. }
  pose proof (smoothstep_unit f Hf) as Hsf.
  destruct Hlo as (L1 & L2 & L3). destruct Hup as (U1 & U2 & U3).
  destruct (channel_byte (red lower) (red upper) _ L1 U1 Hsf) as (r & Hr & Er & _).
  destruct (channel_byte (green lower) (green upper) _ L2 U2 Hsf) as (g & Hg' & Eg & _).
  destruct (channel_byte (blue lower) (blue upper) _ L3 U3 Hsf) as (b & Hb & Eb & _).
  exists r, g, b. rewrite Er, Eg, Eb. auto.
Qed.

Lemma lut_over (size : Z) (l : list Z) :
  (2 <= size)%Z -> Forall (fun i => (0 <= i <= size - 1)%Z) l ->
  Forall (fun v => (0 <= v <= 255)%Z) (flat_map (entry (F := R) size) l)
  /\ List.length (flat_map (entry (F := R) size) l) = (4 * List.length l)%nat
  /\ forall j : nat, (j < List.length l)%nat ->
       flat_map (entry (F := R) size) l !! (4 * j + 3)%nat = Some 255%Z.
Proof.
  intros Hs Hl. induction Hl as [| i l Hi Hl (IH1 & IH2 & IH3)].
  - cbn. split; [constructor | split; [reflexivity | intros j Hj; lia]].
  - cbn [flat_map].
    destruct (entry_bytes size i Hs Hi) as (r & g & b & -> & Hr & Hg & Hb).
    split; [| split].
    + repeat (constructor; [lia |]). exact IH1.
    + cbn [app List.length]. rewrite IH2. lia.
    + intros j Hj. destruct j as [| j]; [reflexivity |].
      replace (4 * S j + 3)%nat with (S (S (S (S (4 * j + 3))))) by lia.
      cbn [app]. apply IH3. cbn [List.length] in Hj. lia.
Qed.

Lemma Zfloor_at (k : Z) (x : R) : IZR k <= x < IZR k + 1 -> Zfloor x = k.
Proof. intros Hx. apply Zfloor_eq. lra. Qed.

Lemma byte_at (k : Z) (x : R) :
  (0 <= k <= 255)%Z -> IZR k - 1 / 2 <= x < IZR k + 1 / 2 -> toUint8 (jsRound x) = k.
Proof.
  intros Hk Hx. unfold jsRound, dec. cbv zeta.
  cbn [ffloor fltb fsub fadd fdiv ofZ R_arith].
  destruct (Rlt_dec x (IZR k)) as [Hlt | Hge].
  - assert (E : Zfloor x = (k - 1)%Z) by (apply Zfloor_at; rewrite minus_IZR; lra).
    rewrite E, minus_IZR.
    destruct (Rlt_dec (x - (IZR k - 1)) (5 / 10)); [lra |].
    replace (IZR k - 1 + 1) with (IZR k) by ring. apply toUint8_byte. exact Hk.
  - assert (E : Zfloor x = k) by (apply Zfloor_at; lra).
    rewrite E.
    destruct (Rlt_dec (x - IZR k) (5 / 10)); [| lra].
    apply toUint8_byte. exact Hk.
Qed.

Lemma first_entry (size : Z) :
  (2 <= size)%Z -> entry (F := R) size 0 = [5; 10; 31; 255]%Z.
Proof.
  intros Hs. unfold entry. cbv zeta.
  assert (Ht : ofZ 0 /! ofZ (size - 1) = (0 : R)).
  { cbn [fdiv ofZ R_arith]. unfold Rdiv. ring. }
  rewrite Ht.
  assert (Hsur : surrounding (0 : R)
                 = (mkStop (dec 0 100) (dec 2 100) (dec 4 100) (dec 12 100),
                    mkStop (dec 15 100) (dec 5 100) (dec 15 100) (dec 35 100))).
  { unfold surrounding. cbn [combine stops tl find fst snd pos].
    assert (E1 : fgeb (0 : R) (dec 0 100) = true)
      by (apply fgeb_R; unfold dec; cbn [fdiv ofZ R_arith]; lra).
    assert (E2 : fleb (0 : R) (dec 15 100) = true)
      by (apply fleb_R; unfold dec; cbn [fdiv ofZ R_arith]; lra).
    rewrite E1, E2. reflexivity. }
  rewrite Hsur. cbn [pos red green blue]. unfold dec.
  cbn [fsub fadd fmul fdiv ofZ R_arith].
  assert (Hg : fgtb (15 / 100 - 0 / 100) 0 = true) by (apply fgtb_R; lra).
  rewrite Hg.
  rewrite (byte_at 5), (byte_at 10), (byte_at 31); try lia; try reflexivity;
    (split; [| ]); field_simplify; lra.
Qed.

Lemma last_entry (size : Z) :
  (2 <= size)%Z -> entry (F := R) size (size - 1) = [255; 245; 230; 255]%Z.
Proof.
  intros Hs. unfold entry. cbv zeta.
  assert (Ht : ofZ (size - 1) /! ofZ (size - 1) = (1 : R)).
  { cbn [fdiv ofZ R_arith]. field.
    assert (0 < IZR (size - 1)) by (apply IZR_lt; lia). lra. }
  rewrite Ht.
  assert (Hsur : surrounding (1 : R)
                 = (mkStop (dec 92 100) (dec 100 100) (dec 80 100) (dec 50 100),
                    mkStop (dec 100 100) (dec 100 100) (dec 96 100) (dec 90 100))).
  { unfold surrounding. cbn [combine stops tl find fst snd pos].
    assert (F1 : fleb (1 : R) (dec 15 100) = false).
    { destruct (fleb (1 : R) (dec 15 100)) eqn:E; [| reflexivity].
      apply fleb_R in E. unfold dec in E. cbn [fdiv ofZ R_arith] in E. lra. }
    assert (F2 : fleb (1 : R) (dec 30 100) = false).
    { destruct (fleb (1 : R) (dec 30 100)) eqn:E; [| reflexivity].
      apply fleb_R in E. unfold dec in E. cbn [fdiv ofZ R_arith] in E. lra. }
    assert (F3 : fleb (1 : R) (dec 50 100) = false).
    { destruct (fleb (1 : R) (dec 50 100)) eqn:E; [| reflexivity].
      apply fleb_R in E. unfold dec in E. cbn [fdiv ofZ R_arith] in E. lra. }
    assert (F4 : fleb (1 : R) (dec 65 100) = false).
    { destruct (fleb (1 : R) (dec 65 100)) eqn:E; [| reflexivity].
      apply fleb_R in E. unfold dec in E. cbn [fdiv ofZ R_arith] in E. lra. }
    assert (F5 : fleb (1 : R) (dec 80 100) = false).
    { destruct (fleb (1 : R) (dec 80 100)) eqn:E; [| reflexivity].
      apply fleb_R in E. unfold dec in E. cbn [fdiv ofZ R_arith] in E. lra. }
    assert (F6 : fleb (1 : R) (dec 92 100) = false).
    { destruct (fleb (1 : R) (dec 92 100)) eqn:E; [| reflexivity].
      apply fleb_R in E. unfold dec in E. cbn [fdiv ofZ R_arith] in E. lra. }
    assert (E1 : fgeb (1 : R) (dec 92 100) = true)
      by (apply fgeb_R; unfold dec; cbn [fdiv ofZ R_arith]; lra).
    assert (E2 : fleb (1 : R) (dec 100 100) = true)
      by (apply fleb_R; unfold dec; cbn [fdiv ofZ R_arith]; lra).
    rewrite F1, F2, F3, F4, F5, F6, E1, E2, !andb_false_r. reflexivity. }
  rewrite Hsur. cbn [pos red green blue]. unfold dec.
  cbn [fsub fadd fmul fdiv ofZ R_arith].
  assert (Hg : fgtb (100 / 100 - 92 / 100) 0 = true) by (apply fgtb_R; lra).
  rewrite Hg.
  rewrite (byte_at 255), (byte_at 245), (byte_at 230); try lia; try reflexivity;
    (split; [| ]); field_simplify; lra.
Qed.

Lemma range_snoc (n : Z) : (0 <= n)%Z -> range 0 n = range 0 (n - 1) ++ [n].
Proof.
  intros Hn. unfold range.
  replace (Z.to_nat (n - 0 + 1)) with (S (Z.to_nat (n - 1 - 0 + 1))) by lia.
  rewrite seq_S, map_app. cbn [map Nat.add]. f_equal. f_equal. lia.
Qed.

Lemma range_cons (n : Z) : (0 <= n)%Z -> range 0 n = 0%Z :: range 1 n.
Proof.
  intros Hn. unfold range.
  replace (Z.to_nat (n - 0 + 1)) with (S (Z.to_nat (n - 1 + 1))) by lia.
  cbn [seq map]. f_equal. rewrite <- seq_shift, map_map.
  apply map_ext. intros a. lia.
Qed.

(** X26. The colour table in exact arithmetic, for any size of at least
    two entries: it has four bytes per entry, every byte is in 0..255 (the
    store to the [Uint8Array] never wraps), every alpha byte is 255, the
    first entry is (5, 10, 31, 255) and the last (255, 245, 230, 255). *)
Theorem colour_lut_bytes (size : Z) :
  (2 <= size)%Z ->
  Z.of_nat (List.length (generateColorLUT (F := R) size)) = (4 * size)%Z
  /\ Forall (fun v => (0 <= v <= 255)%Z) (generateColorLUT (F := R) size)
  /\ (forall j : nat, (Z.of_nat j < size)%Z ->
      generateColorLUT (F := R) size !! (4 * j + 3)%nat = Some 255%Z)
  /\ firstn 4 (generateColorLUT (F := R) size) = [5; 10; 31; 255]%Z
  /\ skipn (4 * Z.to_nat (size - 1)) (generateColorLUT (F := R) size)
     = [255; 245; 230; 255]%Z.
Proof.
  intros Hs. unfold generateColorLUT.
  assert (Hr : Forall (fun i => (0 <= i <= size - 1)%Z) (range 0 (size - 1))).
  { apply List.Forall_forall. intros i Hi. apply in_range in Hi. exact Hi. }
  assert (Hlen : List.length (range 0 (size - 1)) = Z.to_nat size).
  { unfold range. rewrite length_map, length_seq. lia. }
  destruct (lut_over size _ Hs Hr) as (H1 & H2 & H3).
  split; [rewrite H2, Hlen; lia |].
  split; [exact H1 |].
  split; [intros j Hj; apply H3; rewrite Hlen; lia |].
  split.
  - rewrite range_cons by lia. cbn [flat_map].
    rewrite first_entry by exact Hs. reflexivity.
  - rewrite range_snoc by lia. rewrite flat_map_app. cbn [flat_map].
    rewrite last_entry by exact Hs. rewrite app_nil_r.
    assert (Hr' : Forall (fun i => (0 <= i <= size - 1)%Z) (range 0 (size - 1 - 1))).
    { apply List.Forall_forall. intros i Hi. apply in_range in Hi. lia. }
    destruct (lut_over size _ Hs Hr') as (_ & L2 & _).
    assert (Hlen' : List.length (range 0 (size - 1 - 1)) = Z.to_nat (size - 1)).
    { unfold range. rewrite length_map, length_seq. lia. }
    rewrite Hlen' in L2.
    rewrite <- L2. rewrite skipn_app, skipn_all, Nat.sub_diag. reflexivity.
Qed.

Lemma colour_lut_bytes_witness :
  Z.of_nat (List.length (generateColorLUT (F := R) 256)) = (4 * 256)%Z
  /\ Forall (fun v => (0 <= v <= 255)%Z) (generateColorLUT (F := R) 256)
  /\ (forall j : nat, (Z.of_nat j < 256)%Z ->
      generateColorLUT (F := R) 256 !! (4 * j + 3)%nat = Some 255%Z)
  /\ firstn 4 (generateColorLUT (F := R) 256) = [5; 10; 31; 255]%Z
  /\ skipn (4 * Z.to_nat (256 - 1)) (generateColorLUT (F := R) 256)
     = [255; 245; 230; 255]%Z.
Proof. apply (colour_lut_bytes 256). lia. Defined.
End ColorMapReal.
(** * js/main.js: the animation loop, in exact arithmetic *)

Section MainReal.
Import Main.
Import Stdlib.Strings.String.
Local Open Scope R_scope.

Lemma compute_single_bin (e : EntropyCalculator.t R) :
  EntropyCalculator.currentEntropy
    (fst (EntropyCalculator.compute (512%Z :: replicate 63 0%Z) e)) = 0
  /\ EntropyCalculator.normalizedEntropy
       (fst (EntropyCalculator.compute (512%Z :: replicate 63 0%Z) e)) = 0
  /\ EntropyCalculator.displayEntropy
       (fst (EntropyCalculator.compute (512%Z :: replicate 63 0%Z) e))
     = EntropyCalculator.displayEntropy e
  /\ EntropyCalculator.smoothing
       (fst (EntropyCalculator.compute (512%Z :: replicate 63 0%Z) e))
     = EntropyCalculator.smoothing e.
Proof.
  pose proof (single_bin_entropy e 512 0 63 ltac:(lia)) as Hs.
  change (replicate 0 0%Z ++ 512%Z :: replicate 63 0%Z)
    with (512%Z :: replicate 63 0%Z) in Hs.
  destruct (compute_keeps (512%Z :: replicate 63 0%Z) e) as (Hn & Hd & Hsm).
  rewrite Hs in Hn. cbn [snd] in Hn.
  split; [| split; [exact Hn | split; [exact Hd | exact Hsm]]].
  unfold EntropyCalculator.compute in *.
  destruct (feqb _ _); cbn [fst snd EntropyCalculator.currentEntropy] in *;
    [reflexivity |].
  injection Hs as E _. exact E.
Qed.

(** One frame of the idle application. *)
Lemma idle_frame (now : R) (a : Main.t R) :
  stateMachine a = StateMachine.constructor ->
  WebGLFallback.particles (renderer a) = WebGLFallback.initParticles ->
  EntropyCalculator.displayEntropy (entropy a) = 0 ->
  (stateMachine (frame now a) = StateMachine.constructor
   /\ WebGLFallback.particles (renderer (frame now a)) = WebGLFallback.initParticles
   /\ EntropyCalculator.normalizedEntropy (entropy (frame now a)) = 0
   /\ EntropyCalculator.displayEntropy (entropy (frame now a)) = 0)
  /\ (UI.barWidth (ui (frame now a)) = 0 /\ UI.hot (ui (frame now a)) = false
      /\ UI.labelVisible (ui (frame now a)) = false
      /\ UI.clickInstruction (ui (frame now a)) = "click to shatter"%string
      /\ UI.instructionHidden (ui (frame now a)) = false).
Proof.
  intros Hsm Hp Hd. unfold frame. cbv zeta.
  cbn [stateMachine renderer entropy ui].
  rewrite Hsm.
  change (StateMachine.update (fmin ((now -! lastTime a) /! ofZ 1000) (ofZ 1 /! ofZ 20))
            StateMachine.constructor)
    with (StateMachine.constructor (F := R)).
  change (StateMachine.tOrder (StateMachine.constructor (F := R))) with 1.
  rewrite (updatePhysics_at_rest _ _ _ Hp).
  cbn [WebGLFallback.getHistogram WebGLFallback.pendingHistogram WebGLFallback.particles].
  destruct (compute_single_bin (entropy a)) as (Hc & Hn & Hd' & _).
  unfold UI.update, EntropyCalculator.updateDisplay. cbv zeta.
  cbn [EntropyCalculator.currentEntropy EntropyCalculator.normalizedEntropy
       EntropyCalculator.displayEntropy
       UI.barWidth UI.hot UI.labelVisible UI.clickInstruction UI.instructionHidden].
  rewrite Hn, Hd', Hd.
  cbn [StateMachineView.clickInstruction StateMachineView.isTransitioning
       StateMachine.state StateMachine.constructor UI.truthy negb
       fadd fsub fmul ofZ R_arith].
  assert (Hz : 0 + (0 - 0) * EntropyCalculator.smoothing
                 (fst (EntropyCalculator.compute (512%Z :: replicate 63 0%Z) (entropy a)))
               = 0) by ring.
  rewrite Hz.
  split; [split; [reflexivity | split; [reflexivity | split; reflexivity]] |].
  split; [ring |].
  split; [apply fgtb_R_false; unfold dec; cbn [fdiv ofZ R_arith]; lra |].
  split; [reflexivity | split; reflexivity].
Qed.

(** X27. Until the first click nothing moves: in exact arithmetic, after
    any number of frames at any times, the state machine is still ORDERED
    with [tOrder = 1], the 512 particles are those of the lattice, the
    entropy and its display are 0; and once a frame has run the page shows
    an empty bar, no state label, and the instruction to click. *)
Theorem idle_until_first_click (now0 aspect : R) (page : UI.t R) (nows : list R) :
  let a := frames nows (start now0 aspect page) in
  StateMachine.state (stateMachine a) = StateMachine.ORDERED
  /\ StateMachine.tOrder (stateMachine a) = 1
  /\ WebGLFallback.particles (renderer a) = WebGLFallback.initParticles
  /\ EntropyCalculator.normalizedEntropy (entropy a) = 0
  /\ EntropyCalculator.displayEntropy (entropy a) = 0
  /\ (nows <> [] ->
      UI.barWidth (ui a) = 0 /\ UI.hot (ui a) = false
      /\ UI.labelVisible (ui a) = false
      /\ UI.clickInstruction (ui a) = "click to shatter"%string
      /\ UI.instructionHidden (ui a) = false).
Proof.
  cbv zeta.
  assert (Hinv : forall a : Main.t R,
             stateMachine a = StateMachine.constructor ->
             WebGLFallback.particles (renderer a) = WebGLFallback.initParticles ->
             EntropyCalculator.normalizedEntropy (entropy a) = 0 ->
             EntropyCalculator.displayEntropy (entropy a) = 0 ->
             (stateMachine (frames nows a) = StateMachine.constructor
              /\ WebGLFallback.particles (renderer (frames nows a))
                 = WebGLFallback.initParticles
              /\ EntropyCalculator.normalizedEntropy (entropy (frames nows a)) = 0
              /\ EntropyCalculator.displayEntropy (entropy (frames nows a)) = 0)
             /\ (nows <> [] ->
                 UI.barWidth (ui (frames nows a)) = 0
                 /\ UI.hot (ui (frames nows a)) = false
                 /\ UI.labelVisible (ui (frames nows a)) = false
                 /\ UI.clickInstruction (ui (frames nows a)) = "click to shatter"%string
                 /\ UI.instructionHidden (ui (frames nows a)) = false)).
  { unfold frames. induction nows as [| now nows IH] using rev_ind; intros a Hsm Hp Hn Hd.
    - cbn [fold_left]. split; [tauto |]. intros E. contradiction.
    - rewrite fold_left_app. cbn [fold_left].
      destruct (IH a Hsm Hp Hn Hd) as ((I1 & I2 & I3 & I4) & _).
      destruct (idle_frame now _ I1 I2 I4) as (J & K).
      split; [exact J | intros _; exact K]. }
  destruct (Hinv (start now0 aspect page)) as ((H1 & H2 & H3 & H4) & H5);
    try reflexivity.
  rewrite H1.
  split; [reflexivity | split; [reflexivity |]].
  split; [exact H2 | split; [exact H3 | split; [exact H4 | exact H5]]].
Qed.

(** One frame during the shatter. *)
Lemma shatter_frame (now : R) (a : Main.t R) (k : nat) :
  StateMachine.state (stateMachine a) = StateMachine.SHATTERING ->
  StateMachine.transitionDuration (stateMachine a) = 3 / 2 ->
  StateMachine.elapsed (stateMachine a) <= INR k / 20 -> (k < 29)%nat ->
  (StateMachine.state (stateMachine (frame now a)) = StateMachine.SHATTERING
   /\ StateMachine.transitionDuration (stateMachine (frame now a)) = 3 / 2
   /\ StateMachine.elapsed (stateMachine (frame now a)) <= INR (S k) / 20)
  /\ (UI.stateLabel (ui (frame now a)) = "SHATTERING"%string
      /\ UI.labelVisible (ui (frame now a)) = true
      /\ UI.instructionHidden (ui (frame now a)) = true).
Proof.
  intros Hs Hd He Hk. unfold frame. cbv zeta. cbn [stateMachine ui].
  set (dt := fmin ((now -! lastTime a) /! ofZ 1000) (ofZ 1 /! ofZ 20)).
  assert (Hdt : dt <= 1 / 20).
  { subst dt. cbn [fmin fsub fdiv ofZ R_arith]. apply Rmin_r. }
  rewrite (update_shattering dt _ Hs) by lra.
  rewrite Hd.
  assert (Hk' : INR k <= 28).
  { replace 28 with (INR 28) by (simpl; lra). apply le_INR. lia. }
  rewrite S_INR.
  destruct (Rle_dec (3 / 2) (StateMachine.elapsed (stateMachine a) + dt)) as [Hle | Hlt];
    [exfalso; lra |].
  unfold UI.update. cbv zeta.
  cbn [StateMachine.state StateMachine.transitionDuration StateMachine.elapsed
       UI.stateLabel UI.labelVisible UI.instructionHidden
       StateMachineView.stateLabel StateMachineView.isTransitioning
       StateMachineView.clickInstruction UI.truthy negb].
  split; [split; [reflexivity | split; [reflexivity | lra]] |].
  split; [reflexivity | split; reflexivity].
Qed.

(** X28. A shatter never takes fewer than 30 frames: because the loop
    clamps each time step to 1/20 s, in exact arithmetic the machine is
    still SHATTERING after fewer than 30 frames following the click,
    however much time passed between them, and once a frame has run the
    page shows the SHATTERING label and hides the click instruction. *)
Theorem shatter_takes_thirty_frames (now0 aspect : R) (page : UI.t R) (nows : list R) :
  (List.length nows < 30)%nat ->
  let a := frames nows (onClick (start now0 aspect page)) in
  StateMachine.state (stateMachine a) = StateMachine.SHATTERING
  /\ (nows <> [] ->
      UI.stateLabel (ui a) = "SHATTERING"%string
      /\ UI.labelVisible (ui a) = true
      /\ UI.instructionHidden (ui a) = true).
Proof.
  intros Hlen. cbv zeta.
  set (a0 := onClick (start now0 aspect page)).
  assert (H0 : StateMachine.state (stateMachine a0) = StateMachine.SHATTERING
               /\ StateMachine.transitionDuration (stateMachine a0) = 3 / 2
               /\ StateMachine.elapsed (stateMachine a0) <= INR 0 / 20).
  { subst a0. unfold onClick, start, dec.
    cbn [stateMachine StateMachine.canClick StateMachine.constructor StateMachine.state
         StateMachine.click StateMachine.transitionDuration StateMachine.elapsed
         INR fdiv ofZ R_arith].
    unfold dec. cbn [fdiv ofZ R_arith]. split; [reflexivity | split; lra]. }
  clearbody a0. revert Hlen. unfold frames.
  induction nows as [| now nows IH] using rev_ind; intros Hlen.
  - cbn [fold_left]. split; [tauto |]. intros E. contradiction.
  - rewrite fold_left_app. cbn [fold_left].
    rewrite length_app in Hlen. cbn [List.length] in Hlen.
    assert (Hinv : StateMachine.state
                     (stateMachine (fold_left (fun a now1 => frame now1 a) nows a0))
                   = StateMachine.SHATTERING
                   /\ StateMachine.transitionDuration
                        (stateMachine (fold_left (fun a now1 => frame now1 a) nows a0))
                      = 3 / 2
                   /\ StateMachine.elapsed
                        (stateMachine (fold_left (fun a now1 => frame now1 a) nows a0))
                      <= INR (List.length nows) / 20).
    { clear IH. assert (Hl : (List.length nows < 29)%nat) by lia. revert Hl. clear Hlen.
      induction nows as [| now' nows IH'] using rev_ind; intros Hl.
      - cbn [fold_left List.length]. exact H0.
      - rewrite fold_left_app. cbn [fold_left].
        rewrite length_app in *. cbn [List.length] in *.
        destruct (IH' ltac:(lia)) as (I1 & I2 & I3).
        destruct (shatter_frame now' _ (List.length nows) I1 I2 I3 ltac:(lia)) as (J & _).
        replace (List.length nows + 1)%nat with (S (List.length nows)) by lia.
        exact J. }
    destruct Hinv as (I1 & I2 & I3).
    destruct (shatter_frame now _ (List.length nows) I1 I2 I3 ltac:(lia))
      as ((J1 & _) & K).
    split; [exact J1 | intros _; exact K].
Qed.

Lemma shatter_takes_thirty_frames_witness :
  StateMachine.state
    (stateMachine (frames [1016; 1033; 5000] (onClick (start 1000 (16 / 9)
       (UI.mk 0 false 0 EmptyString false EmptyString false)))))
  = StateMachine.SHATTERING
  /\ ([1016; 1033; 5000] <> [] ->
      UI.stateLabel
        (ui (frames [1016; 1033; 5000] (onClick (start 1000 (16 / 9)
           (UI.mk 0 false 0 EmptyString false EmptyString false)))))
      = "SHATTERING"%string
      /\ UI.labelVisible
           (ui (frames [1016; 1033; 5000] (onClick (start 1000 (16 / 9)
              (UI.mk 0 false 0 EmptyString false EmptyString false)))))
         = true
      /\ UI.instructionHidden
           (ui (frames [1016; 1033; 5000] (onClick (start 1000 (16 / 9)
              (UI.mk 0 false 0 EmptyString false EmptyString false)))))
         = true).
Proof.
  apply (shatter_takes_thirty_frames 1000 (16 / 9)
           (UI.mk 0 false 0 EmptyString false EmptyString false) [1016; 1033; 5000]).
  cbn [List.length]. lia.
Defined.
End MainReal.
